(** * EMUWII1.0: a shallow embedding of the emulator core

    The repository holds several drafts of one Wii emulator.  Three of them
    carry the behaviour studied here:

    - [EmuWiiV1]: src/emuwiiv1.cpp, "Version 1.0 Beta", the richest draft
      (address translation, interrupts, the Starlet mailbox, the opcode table);
    - [WiiEmu]: src/wiiemu.cpp, "Version 0.4 Alpha", whose executor halts on
      an unknown opcode;
    - [EmuWiiV0]: the [Memory] class of src/emuwiiv0.cpp, with its two pairs
      of aliased RAM windows.

    Conventions.  A [uintN_t] value is a [Z] and every C++ operation that can
    leave the range is followed by the wrap-around it has in C++ ([wrap32],
    [wrap64], [wrap8]); [int16_t] and [int32_t] values are signed [Z]s
    ([to_int16], [to_int32]).  A fixed-size C array whose every index in the
    source is bounded by a mask or a guard ([gpr], [spr], [fpr], [memory],
    [framebuffer]) is a total function from the index to the element, updated
    pointwise with [upd]; the [std::map] of interrupt vectors is a [gmap].
    Output to [std::cout]/[std::cerr] and the SDL calls are not part of the
    model. *)

From Stdlib Require Import ZArith Lia Bool List.
From Stdlib Require Import Floats.SpecFloat.
From stdpp Require Import base gmap sorting.

Local Open Scope Z_scope.

(** ** Machine integers *)

Definition wrap8 (x : Z) : Z := x mod 2^8.
Definition wrap32 (x : Z) : Z := x mod 2^32.
Definition wrap64 (x : Z) : Z := x mod 2^64.

(** [static_cast<int16_t>] / [static_cast<int32_t>] of an integer. *)
Definition to_int16 (x : Z) : Z :=
  let y := x mod 2^16 in if y <? 2^15 then y else y - 2^16.
Definition to_int32 (x : Z) : Z :=
  let y := x mod 2^32 in if y <? 2^31 then y else y - 2^32.

(** [a[i] = v] on an array modelled as a function. *)
Definition upd {A : Type} (a : Z -> A) (i : Z) (v : A) : Z -> A :=
  fun j => if j =? i then v else a j.

(** The byte order of every draft that reads words bytewise: the value
    [(b[p] << 24) | (b[p+1] << 16) | (b[p+2] << 8) | b[p+3]], converted to
    [uint32_t], and the four byte stores of the matching write. *)
Definition big_endian (bytes : Z -> Z) (p : Z) : Z :=
  wrap32 (Z.lor (Z.lor (Z.lor (Z.shiftl (bytes p) 24)
                              (Z.shiftl (bytes (p + 1)) 16))
                       (Z.shiftl (bytes (p + 2)) 8))
                (bytes (p + 3))).

Definition store_big_endian (bytes : Z -> Z) (p value : Z) : Z -> Z :=
  let b1 := upd bytes p (Z.land (Z.shiftr value 24) 0xFF) in
  let b2 := upd b1 (p + 1) (Z.land (Z.shiftr value 16) 0xFF) in
  let b3 := upd b2 (p + 2) (Z.land (Z.shiftr value 8) 0xFF) in
  upd b3 (p + 3) (Z.land value 0xFF).

(** The byte order of the draft that reads words least significant byte
    first: [b[p] | (b[p+1] << 8) | (b[p+2] << 16) | (b[p+3] << 24)], and
    the four byte stores of the matching write. *)
Definition little_endian (bytes : Z -> Z) (p : Z) : Z :=
  wrap32 (Z.lor (Z.lor (Z.lor (bytes p)
                              (Z.shiftl (bytes (p + 1)) 8))
                       (Z.shiftl (bytes (p + 2)) 16))
                (Z.shiftl (bytes (p + 3)) 24)).

Definition store_little_endian (bytes : Z -> Z) (p value : Z) : Z -> Z :=
  let b1 := upd bytes p (Z.land value 0xFF) in
  let b2 := upd b1 (p + 1) (Z.land (Z.shiftr value 8) 0xFF) in
  let b3 := upd b2 (p + 2) (Z.land (Z.shiftr value 16) 0xFF) in
  upd b3 (p + 3) (Z.land (Z.shiftr value 24) 0xFF).

(** [(instruction >> 26) & 0x3F], the first line of every
    [execute_instruction]. *)
Definition opcode_of (instruction : Z) : Z := Z.land (Z.shiftr instruction 26) 0x3F.

(** The displacement that the 26-bit field of a branch word denotes when it
    is read as the specification reads it: bits 2-25 hold a signed word
    count, bits 0-1 are the absolute and link flags.  The executors compute
    their own offset; this definition is only compared with it. *)
Definition spec_displacement (instruction : Z) : Z :=
  let field := Z.land instruction 0x03FFFFFC in
  if field <? 2^25 then field else field - 2^26.

(** Single-precision values: IEEE binary32 (24 bits of precision, maximal
    exponent 128), with the arithmetic of [SpecFloat]. *)
Definition float32 : Type := spec_float.
Definition f32_add : float32 -> float32 -> float32 := SFadd 24 128.
Definition f32_sub : float32 -> float32 -> float32 := SFsub 24 128.
Definition f32_mul : float32 -> float32 -> float32 := SFmul 24 128.

(** ** src/emuwiiv1.cpp *)

Module EmuWiiV1.

Definition MEMORY_SIZE : Z := (24 + 64) * 1024 * 1024.
Definition MEM_MASK : Z := MEMORY_SIZE - 1.
Definition SCREEN_WIDTH : Z := 640.
Definition SCREEN_HEIGHT : Z := 480.
Definition KERNEL_BASE_ADDR : Z := 0x80000000.
Definition INTERRUPT_TABLE_BASE : Z := 0x80003000.

Definition RAM_START : Z := 0x80000000.
Definition RAM_END : Z := 0x81FFFFFF.
Definition HARDWARE_REGS_START : Z := 0xCC000000.
Definition HARDWARE_REGS_END : Z := 0xCC00FFFF.
Definition STARLET_MEM_START : Z := 0xCD000000.
Definition STARLET_MEM_END : Z := 0xCD00FFFF.

Record FPR := mkFPR { ps0 : float32; ps1 : float32 }.

Record CPUState := mkCPUState {
  pc : Z;
  gpr : Z -> Z;
  fpr : Z -> FPR;
  spr : Z -> Z;
  running : bool;
  interrupts_enabled : bool;
  kernel_mode : bool;
  cycle_count : Z
}.

Record StarletMemory := mkStarletMemory {
  command : Z;
  response : Z;
  param_addr : Z;
  result_addr : Z;
  status : Z
}.

(** [AudioState] without its SDL device handle. *)
Record AudioState := mkAudioState {
  buffer : Z -> Z;
  buffer_size : Z;
  position : Z;
  initialized : bool
}.

(** The [CPUState state] of [main] together with the globals of the file.
    [trigger_calls] is a ghost field, absent from the source: it records
    the argument of every call of [trigger_interrupt], oldest first, so
    that calls which change nothing can still be counted. *)
Record Machine := mkMachine {
  state : CPUState;
  memory : Z -> Z;
  framebuffer : Z -> Z;
  starlet_memory : StarletMemory;
  interrupt_vectors : gmap Z Z;
  audio_state : AudioState;
  trigger_calls : list Z
}.

(** *** Field updates *)

Definition set_pc (v : Z) (s : CPUState) : CPUState :=
  mkCPUState v (gpr s) (fpr s) (spr s) (running s) (interrupts_enabled s)
             (kernel_mode s) (cycle_count s).
Definition set_gpr (i v : Z) (s : CPUState) : CPUState :=
  mkCPUState (pc s) (upd (gpr s) i v) (fpr s) (spr s) (running s)
             (interrupts_enabled s) (kernel_mode s) (cycle_count s).
Definition set_fpr (i : Z) (v : FPR) (s : CPUState) : CPUState :=
  mkCPUState (pc s) (gpr s) (upd (fpr s) i v) (spr s) (running s)
             (interrupts_enabled s) (kernel_mode s) (cycle_count s).
Definition set_spr (i v : Z) (s : CPUState) : CPUState :=
  mkCPUState (pc s) (gpr s) (fpr s) (upd (spr s) i v) (running s)
             (interrupts_enabled s) (kernel_mode s) (cycle_count s).
Definition set_interrupts_enabled (b : bool) (s : CPUState) : CPUState :=
  mkCPUState (pc s) (gpr s) (fpr s) (spr s) (running s) b
             (kernel_mode s) (cycle_count s).
Definition set_kernel_mode (b : bool) (s : CPUState) : CPUState :=
  mkCPUState (pc s) (gpr s) (fpr s) (spr s) (running s)
             (interrupts_enabled s) b (cycle_count s).
Definition set_cycle_count (v : Z) (s : CPUState) : CPUState :=
  mkCPUState (pc s) (gpr s) (fpr s) (spr s) (running s)
             (interrupts_enabled s) (kernel_mode s) v.

Definition set_state (s : CPUState) (m : Machine) : Machine :=
  mkMachine s (memory m) (framebuffer m) (starlet_memory m)
            (interrupt_vectors m) (audio_state m) (trigger_calls m).
Definition set_memory (mem : Z -> Z) (m : Machine) : Machine :=
  mkMachine (state m) mem (framebuffer m) (starlet_memory m)
            (interrupt_vectors m) (audio_state m) (trigger_calls m).
Definition set_framebuffer (fb : Z -> Z) (m : Machine) : Machine :=
  mkMachine (state m) (memory m) fb (starlet_memory m)
            (interrupt_vectors m) (audio_state m) (trigger_calls m).
Definition set_starlet_memory (sm : StarletMemory) (m : Machine) : Machine :=
  mkMachine (state m) (memory m) (framebuffer m) sm
            (interrupt_vectors m) (audio_state m) (trigger_calls m).
Definition set_interrupt_vectors (iv : gmap Z Z) (m : Machine) : Machine :=
  mkMachine (state m) (memory m) (framebuffer m) (starlet_memory m)
            iv (audio_state m) (trigger_calls m).
Definition set_audio_state (a : AudioState) (m : Machine) : Machine :=
  mkMachine (state m) (memory m) (framebuffer m) (starlet_memory m)
            (interrupt_vectors m) a (trigger_calls m).
Definition set_trigger_calls (l : list Z) (m : Machine) : Machine :=
  mkMachine (state m) (memory m) (framebuffer m) (starlet_memory m)
            (interrupt_vectors m) (audio_state m) l.

Definition set_response (v : Z) (sm : StarletMemory) : StarletMemory :=
  mkStarletMemory (command sm) v (param_addr sm) (result_addr sm) (status sm).
Definition set_status (v : Z) (sm : StarletMemory) : StarletMemory :=
  mkStarletMemory (command sm) (response sm) (param_addr sm) (result_addr sm) v.
Definition set_command (v : Z) (sm : StarletMemory) : StarletMemory :=
  mkStarletMemory v (response sm) (param_addr sm) (result_addr sm) (status sm).

(** *** Memory management *)

(** [translate_address].  In each window the subtraction and the addition
    stay inside [uint32_t], so no wrap-around is written. *)
Definition translate_address (virtual_addr : Z) : Z :=
  if (RAM_START <=? virtual_addr) && (virtual_addr <=? RAM_END) then
    Z.land (virtual_addr - RAM_START) MEM_MASK
  else if (HARDWARE_REGS_START <=? virtual_addr)
          && (virtual_addr <=? HARDWARE_REGS_END) then
    Z.land (0x1000000 + (virtual_addr - HARDWARE_REGS_START)) MEM_MASK
  else if (STARLET_MEM_START <=? virtual_addr)
          && (virtual_addr <=? STARLET_MEM_END) then
    Z.land (0x1100000 + (virtual_addr - STARLET_MEM_START)) MEM_MASK
  else
    Z.land virtual_addr MEM_MASK.

(** [read_word] and [write_word]: translation, the bounds guard (computed
    in [uint32_t]), then the bytes in big-endian order; [write_word] also
    mirrors a write to the framebuffer addresses into [framebuffer]. *)
Definition read_word (m : Machine) (address : Z) : Z :=
  let physical_addr := translate_address address in
  if wrap32 (physical_addr + 3) >=? MEMORY_SIZE then 0
  else big_endian (memory m) physical_addr.

Definition write_word (address value : Z) (m : Machine) : Machine :=
  let physical_addr := translate_address address in
  if wrap32 (physical_addr + 3) >=? MEMORY_SIZE then m
  else
    let m' := set_memory (store_big_endian (memory m) physical_addr value) m in
    if (0x90000000 <=? address)
       && (address <? 0x90000000 + SCREEN_WIDTH * SCREEN_HEIGHT * 4) then
      let pixel_offset := (address - 0x90000000) / 4 in
      if pixel_offset <? SCREEN_WIDTH * SCREEN_HEIGHT then
        set_framebuffer (upd (framebuffer m') pixel_offset value) m'
      else m'
    else m'.

(** *** Interrupt management *)

Definition get_interrupt_vector (m : Machine) (interrupt_type : Z) : Z :=
  match interrupt_vectors m !! interrupt_type with
  | Some v => v
  | None => INTERRUPT_TABLE_BASE
  end.

Definition trigger_interrupt (interrupt_type : Z) (m : Machine) : Machine :=
  let m := set_trigger_calls (trigger_calls m ++ [interrupt_type]) m in
  if interrupts_enabled (state m) then
    let s := state m in
    let s := set_spr 8 (pc s) s in
    let s := set_pc (get_interrupt_vector m interrupt_type) s in
    let s := set_interrupts_enabled false s in
    let s := set_kernel_mode true s in
    set_state s m
  else m.

(** [initialize_kernel]: the twelve vectors, then one stub word per entry
    of the map, visited in increasing key order as [std::map] does. *)
Definition kernel_vectors : list (Z * Z) :=
  [ (0, INTERRUPT_TABLE_BASE + 0x00); (1, INTERRUPT_TABLE_BASE + 0x10);
    (2, INTERRUPT_TABLE_BASE + 0x20); (3, INTERRUPT_TABLE_BASE + 0x30);
    (4, INTERRUPT_TABLE_BASE + 0x40); (5, INTERRUPT_TABLE_BASE + 0x50);
    (6, INTERRUPT_TABLE_BASE + 0x60); (7, INTERRUPT_TABLE_BASE + 0x70);
    (8, INTERRUPT_TABLE_BASE + 0x80); (9, INTERRUPT_TABLE_BASE + 0x90);
    (10, INTERRUPT_TABLE_BASE + 0xA0); (11, INTERRUPT_TABLE_BASE + 0xB0) ].

Definition key_le (a b : Z * Z) : Prop := fst a <= fst b.

#[global] Instance key_le_dec : RelDecision key_le :=
  fun a b => Z_le_dec (fst a) (fst b).

Definition initialize_kernel (m : Machine) : Machine :=
  let iv := fold_left (fun acc e => <[fst e := snd e]> acc) kernel_vectors
                      (interrupt_vectors m) in
  let m := set_interrupt_vectors iv m in
  fold_left (fun acc e => write_word (snd e) 0x4C000064 acc)
            (merge_sort key_le (map_to_list iv)) m.

(** *** Starlet coprocessor *)

(** The body of the transfer loop of commands 0x03 and 0x04:
    [data = read_word(src_addr + i); write_word(dest_addr + i, data)]. *)
Definition transfer_round (src_addr dest_addr i : Z) (m : Machine) : Machine :=
  let data := read_word m (wrap32 (src_addr + i)) in
  write_word (wrap32 (dest_addr + i)) data m.

(** The loop itself, [for (uint32_t i = 0; i < size; i += 4)].  The counter
    wraps in [uint32_t], so for [size > 0xFFFFFFFC] the source loop never
    ends; the model takes fuel and answers [None] when it runs out. *)
Fixpoint transfer_loop (fuel : nat) (i size src_addr dest_addr : Z)
         (m : Machine) : option Machine :=
  match fuel with
  | O => None
  | S fuel' =>
      if i <? size then
        transfer_loop fuel' (wrap32 (i + 4)) size src_addr dest_addr
                      (transfer_round src_addr dest_addr i m)
      else Some m
  end.

(** The copy loop of command 0x05,
    [for (uint32_t i = 0; i < buffer_size; i++)]: exactly [buffer_size]
    rounds, so the recursion is on the number of rounds left. *)
Fixpoint audio_copy_loop (rounds : nat) (i buffer_addr : Z)
         (mem : Z -> Z) (buf : Z -> Z) : Z -> Z :=
  match rounds with
  | O => buf
  | S rounds' =>
      audio_copy_loop rounds' (i + 1) buffer_addr mem
        (upd buf i (mem (translate_address (wrap32 (buffer_addr + i)))))
  end.

(** The [switch] of [handle_starlet_command]: the machine when the
    [switch] is left. *)
Definition starlet_dispatch (fuel : nat) (m : Machine) : option Machine :=
  let sm := starlet_memory m in
  let cmd := command sm in
  if (cmd =? 0x01) || (cmd =? 0x02) then
    Some (set_starlet_memory (set_response 0x00 sm) m)
  else if (cmd =? 0x03) || (cmd =? 0x04) then
    let src_addr := read_word m (param_addr sm) in
    let dest_addr := read_word m (wrap32 (param_addr sm + 4)) in
    let size := read_word m (wrap32 (param_addr sm + 8)) in
    match transfer_loop fuel 0 size src_addr dest_addr m with
    | Some m' =>
        Some (set_starlet_memory (set_response 0x00 (starlet_memory m')) m')
    | None => None
    end
  else if cmd =? 0x05 then
    let buffer_addr := read_word m (param_addr sm) in
    let buffer_size' := read_word m (wrap32 (param_addr sm + 4)) in
    let a := audio_state m in
    if initialized a && (buffer_size' <=? buffer_size a) then
      let buf := audio_copy_loop (Z.to_nat buffer_size') 0 buffer_addr
                                 (memory m) (buffer a) in
      let a' := mkAudioState buf (buffer_size a) (position a) (initialized a) in
      Some (set_starlet_memory (set_response 0x00 sm) (set_audio_state a' m))
    else
      Some (set_starlet_memory (set_response 0x01 sm) m)
  else
    Some (set_starlet_memory (set_response 0xFF sm) m).

Definition handle_starlet_command (fuel : nat) (m : Machine)
  : option (bool * Machine) :=
  if negb (command (starlet_memory m) =? 0) then
    match starlet_dispatch fuel m with
    | Some m1 =>
        let m2 := set_starlet_memory (set_status 0x01 (starlet_memory m1)) m1 in
        let m3 := set_starlet_memory (set_command 0 (starlet_memory m2)) m2 in
        Some (true, trigger_interrupt 1 m3)
    | None => None
    end
  else Some (false, m).

(** *** PowerPC instruction execution *)

Definition field_21 (instruction : Z) : Z := Z.land (Z.shiftr instruction 21) 0x1F.
Definition field_16 (instruction : Z) : Z := Z.land (Z.shiftr instruction 16) 0x1F.
Definition field_11 (instruction : Z) : Z := Z.land (Z.shiftr instruction 11) 0x1F.

(** [state.pc += 4]. *)
Definition advance_pc (s : CPUState) : CPUState := set_pc (wrap32 (pc s + 4)) s.

(** [(ra == 0) ? offset : state.gpr[ra] + offset] of LWZ and STW; both
    arms are converted to [uint32_t]. *)
Definition effective_address (s : CPUState) (ra offset : Z) : Z :=
  if ra =? 0 then wrap32 offset else wrap32 (gpr s ra + offset).

(** [state.cycle_count++]. *)
Definition tick (m : Machine) : Machine :=
  set_state (set_cycle_count (wrap64 (cycle_count (state m) + 1)) (state m)) m.

Definition execute_instruction (instruction : Z) (m : Machine) : Machine :=
  let opcode := opcode_of instruction in
  let m := tick m in
  let s := state m in
  if opcode =? 0x18 then
    (* ADD *)
    let ra := field_21 instruction in
    let rb := field_16 instruction in
    let rd := field_11 instruction in
    set_state (advance_pc (set_gpr rd (wrap32 (gpr s ra + gpr s rb)) s)) m
  else if opcode =? 0x19 then
    (* ADDI *)
    let ra := field_21 instruction in
    let rd := field_16 instruction in
    let imm := to_int16 (Z.land instruction 0xFFFF) in
    set_state (advance_pc (set_gpr rd (wrap32 (gpr s ra + imm)) s)) m
  else if opcode =? 0x1C then
    (* ADDIS *)
    let ra := field_21 instruction in
    let rd := field_16 instruction in
    let imm := to_int16 (Z.land instruction 0xFFFF) in
    set_state (advance_pc (set_gpr rd (wrap32 (gpr s ra + Z.shiftl imm 16)) s)) m
  else if opcode =? 0x1F then
    (* Extended opcodes; [xo] is a [uint8_t] *)
    let xo := wrap8 (Z.land (Z.shiftr instruction 1) 0x3FF) in
    if xo =? 0x10A then
      (* SUB *)
      let ra := field_21 instruction in
      let rb := field_16 instruction in
      let rd := field_11 instruction in
      set_state (advance_pc (set_gpr rd (wrap32 (gpr s ra - gpr s rb)) s)) m
    else if xo =? 0x00A then
      (* CMP *)
      let ra := field_21 instruction in
      let rb := field_16 instruction in
      let crfd := Z.land (Z.shiftr instruction 23) 0x7 in
      let a := to_int32 (gpr s ra) in
      let b := to_int32 (gpr s rb) in
      let cr_val := if a <? b then 0x8 else if a >? b then 0x4 else 0x2 in
      let sh := 28 - 4 * crfd in
      let cr := wrap32 (Z.lor (Z.land (spr s 0) (Z.lnot (Z.shiftl 0xF sh)))
                              (Z.shiftl cr_val sh)) in
      set_state (advance_pc (set_spr 0 cr s)) m
    else
      set_state (advance_pc s) m
  else if opcode =? 0x12 then
    (* Branch *)
    let raw_offset := Z.land instruction 0x03FFFFFF in
    let offset := Z.shiftr (to_int32 (wrap32 (Z.shiftl raw_offset 2))) 2 in
    let link := negb (Z.land instruction 0x1 =? 0) in
    let s := if link then set_spr 8 (wrap32 (pc s + 4)) s else s in
    let absolute := negb (Z.land instruction 0x2 =? 0) in
    if absolute then
      set_state (set_pc (Z.land (wrap32 offset) 0xFFFFFFFC) s) m
    else
      set_state (set_pc (wrap32 (pc s + offset)) s) m
  else if opcode =? 0x10 then
    (* Branch Conditional *)
    let bo := field_21 instruction in
    let bi := field_16 instruction in
    let offset := to_int16 (Z.land instruction 0xFFFC) in
    let link := negb (Z.land instruction 0x1 =? 0) in
    let s := if link then set_spr 8 (wrap32 (pc s + 4)) s else s in
    let cr_field := bi / 4 in
    let cr_bit := bi mod 4 in
    let cr := spr s 0 in
    let condition :=
      negb (Z.land cr (Z.shiftr 0x80000000 (cr_field * 4 + cr_bit)) =? 0) in
    let branch_taken :=
      if negb (Z.land bo 0x4 =? 0) then true
      else if negb (Z.land bo 0x8 =? 0) then condition
      else negb condition in
    if branch_taken then set_state (set_pc (wrap32 (pc s + offset)) s) m
    else set_state (advance_pc s) m
  else if opcode =? 0x3C then
    (* PS_ADD *)
    let ra := field_21 instruction in
    let rb := field_16 instruction in
    let rd := field_11 instruction in
    let v := mkFPR (f32_add (ps0 (fpr s ra)) (ps0 (fpr s rb)))
                   (f32_add (ps1 (fpr s ra)) (ps1 (fpr s rb))) in
    set_state (advance_pc (set_fpr rd v s)) m
  else if opcode =? 0x3D then
    (* PS_SUB *)
    let ra := field_21 instruction in
    let rb := field_16 instruction in
    let rd := field_11 instruction in
    let v := mkFPR (f32_sub (ps0 (fpr s ra)) (ps0 (fpr s rb)))
                   (f32_sub (ps1 (fpr s ra)) (ps1 (fpr s rb))) in
    set_state (advance_pc (set_fpr rd v s)) m
  else if opcode =? 0x3E then
    (* PS_MUL *)
    let ra := field_21 instruction in
    let rb := field_16 instruction in
    let rd := field_11 instruction in
    let v := mkFPR (f32_mul (ps0 (fpr s ra)) (ps0 (fpr s rb)))
                   (f32_mul (ps1 (fpr s ra)) (ps1 (fpr s rb))) in
    set_state (advance_pc (set_fpr rd v s)) m
  else if opcode =? 0x20 then
    (* LWZ *)
    let rs := field_21 instruction in
    let ra := field_16 instruction in
    let offset := to_int16 (Z.land instruction 0xFFFF) in
    let addr := effective_address s ra offset in
    set_state (advance_pc (set_gpr rs (read_word m addr) s)) m
  else if opcode =? 0x24 then
    (* STW *)
    let rs := field_21 instruction in
    let ra := field_16 instruction in
    let offset := to_int16 (Z.land instruction 0xFFFF) in
    let addr := effective_address s ra offset in
    let m := write_word addr (gpr s rs) m in
    set_state (advance_pc (state m)) m
  else if opcode =? 0x0C then
    (* SYNC/ISYNC *)
    set_state (advance_pc s) m
  else if opcode =? 0x13 then
    (* System Call *)
    trigger_interrupt 9 m
  else if opcode =? 0x11 then
    (* Return from Interrupt *)
    set_state (set_interrupts_enabled true (set_pc (spr s 8) s)) m
  else
    (* default: skip the unknown instruction *)
    set_state (advance_pc s) m.

Definition fetch_instruction (m : Machine) : Z := read_word m (pc (state m)).

(** The general register an instruction word can write, read off the
    [case]s of [execute_instruction] (the SUB arm is left out: its test on
    the [uint8_t] [xo] never holds).  Used to state which registers the
    executor leaves alone. *)
Definition written_gpr (instruction : Z) : option Z :=
  let opcode := opcode_of instruction in
  if opcode =? 0x18 then Some (field_11 instruction)
  else if (opcode =? 0x19) || (opcode =? 0x1C) then Some (field_16 instruction)
  else if opcode =? 0x20 then Some (field_21 instruction)
  else None.

(** One round of the emulation loop of [main] (input polling, rendering
    and the delay left out). *)
Definition emulation_step (fuel : nat) (m : Machine) : option Machine :=
  let instruction := fetch_instruction m in
  let m := execute_instruction instruction m in
  match handle_starlet_command fuel m with
  | Some (_, m') => Some m'
  | None => None
  end.

(** What the specification asks of a block copy of [count] bytes, in the
    words the transfer moves: afterwards every destination word holds what
    the matching source word held before.  The predicate follows the
    specification; it is compared with what [handle_starlet_command] does. *)
Definition block_copied (before after : Machine) (src dest count : Z) : Prop :=
  forall i, 0 <= i < count -> i mod 4 = 0 ->
            read_word after (wrap32 (dest + i)) = read_word before (wrap32 (src + i)).

(** [n] rounds of [while (state.running)]. *)
Fixpoint emulation_loop (fuel : nat) (n : nat) (m : Machine) : option Machine :=
  match n with
  | O => Some m
  | S n' =>
      if running (state m) then
        match emulation_step fuel m with
        | Some m' => emulation_loop fuel n' m'
        | None => None
        end
      else Some m
  end.

(** *** Boot *)


(** The globals and the [CPUState] before anything runs: static storage is
    zero, the structs are as their constructors leave them, the vector
    table is empty. *)
Definition power_on : Machine :=
  mkMachine
    (mkCPUState 0 (fun _ => 0)
                (fun _ => mkFPR (S754_zero false) (S754_zero false))
                (fun _ => 0) true false true 0)
    (fun _ => 0) (fun _ => 0) (mkStarletMemory 0 0 0 0 0) ∅
    (mkAudioState (fun _ => 0) 0 0 false) [].


End EmuWiiV1.

(** ** src/wiiemu.cpp *)

Module WiiEmu.

Definition MEMORY_SIZE : Z := (24 + 64) * 1024 * 1024.

Record FPR := mkFPR { ps0 : float32; ps1 : float32 }.

Record CPUState := mkCPUState {
  pc : Z;
  gpr : Z -> Z;
  fpr : Z -> FPR;
  spr : Z -> Z;
  running : bool;
  interrupts_enabled : bool;
  kernel_mode : bool
}.

Record StarletMemory := mkStarletMemory {
  command : Z;
  response : Z
}.

Record Machine := mkMachine {
  state : CPUState;
  memory : Z -> Z;
  starlet_memory : StarletMemory
}.

Definition set_pc (v : Z) (s : CPUState) : CPUState :=
  mkCPUState v (gpr s) (fpr s) (spr s) (running s) (interrupts_enabled s)
             (kernel_mode s).
Definition set_gpr (i v : Z) (s : CPUState) : CPUState :=
  mkCPUState (pc s) (upd (gpr s) i v) (fpr s) (spr s) (running s)
             (interrupts_enabled s) (kernel_mode s).
Definition set_fpr (i : Z) (v : FPR) (s : CPUState) : CPUState :=
  mkCPUState (pc s) (gpr s) (upd (fpr s) i v) (spr s) (running s)
             (interrupts_enabled s) (kernel_mode s).
Definition set_running (b : bool) (s : CPUState) : CPUState :=
  mkCPUState (pc s) (gpr s) (fpr s) (spr s) b (interrupts_enabled s)
             (kernel_mode s).
Definition set_interrupts_enabled (b : bool) (s : CPUState) : CPUState :=
  mkCPUState (pc s) (gpr s) (fpr s) (spr s) (running s) b (kernel_mode s).

Definition set_state (s : CPUState) (m : Machine) : Machine :=
  mkMachine s (memory m) (starlet_memory m).
Definition set_memory (mem : Z -> Z) (m : Machine) : Machine :=
  mkMachine (state m) mem (starlet_memory m).
Definition set_starlet_memory (sm : StarletMemory) (m : Machine) : Machine :=
  mkMachine (state m) (memory m) sm.

Definition get_interrupt_vector (interrupt_type : Z) : Z := 0x80000000.

(** [read_word] and [write_word] index [memory] with the address itself.
    The guard [address + 3 >= MEMORY_SIZE] is computed in [uint32_t]; for
    the three addresses from 0xFFFFFFFD on the sum wraps and the source
    indexes past the array, where the model reads the function as it is. *)
Definition read_word (m : Machine) (address : Z) : Z :=
  if wrap32 (address + 3) >=? MEMORY_SIZE then 0
  else big_endian (memory m) address.

Definition write_word (address value : Z) (m : Machine) : Machine :=
  if wrap32 (address + 3) >=? MEMORY_SIZE then m
  else set_memory (store_big_endian (memory m) address value) m.

Definition trigger_interrupt (interrupt_type : Z) (m : Machine) : Machine :=
  if interrupts_enabled (state m) then
    let s := set_pc (get_interrupt_vector interrupt_type) (state m) in
    set_state (set_interrupts_enabled false s) m
  else m.

Definition handle_starlet_command (m : Machine) : bool * Machine :=
  let sm := starlet_memory m in
  if negb (command sm =? 0) then
    let sm := if command sm =? 0x01 then mkStarletMemory (command sm) 0x00
              else mkStarletMemory (command sm) 0xFF in
    let sm := mkStarletMemory 0 (response sm) in
    (true, trigger_interrupt 1 (set_starlet_memory sm m))
  else (false, m).

Definition field_21 (instruction : Z) : Z := Z.land (Z.shiftr instruction 21) 0x1F.
Definition field_16 (instruction : Z) : Z := Z.land (Z.shiftr instruction 16) 0x1F.
Definition field_11 (instruction : Z) : Z := Z.land (Z.shiftr instruction 11) 0x1F.

Definition execute_instruction (instruction : Z) (m : Machine) : Machine :=
  let opcode := opcode_of instruction in
  let s := state m in
  if opcode =? 0x18 then
    (* ADD *)
    let ra := field_21 instruction in
    let rb := field_16 instruction in
    let rd := field_11 instruction in
    let s := set_gpr rd (wrap32 (gpr s ra + gpr s rb)) s in
    set_state (set_pc (wrap32 (pc s + 4)) s) m
  else if opcode =? 0x12 then
    (* Branch *)
    let raw_offset := Z.land instruction 0x03FFFFFF in
    let offset := Z.shiftr (to_int32 (wrap32 (Z.shiftl raw_offset 2))) 2 in
    set_state (set_pc (wrap32 (pc s + offset)) s) m
  else if opcode =? 0x3C then
    (* PS_ADD *)
    let ra := field_21 instruction in
    let rb := field_16 instruction in
    let rd := field_11 instruction in
    let v := mkFPR (f32_add (ps0 (fpr s ra)) (ps0 (fpr s rb)))
                   (f32_add (ps1 (fpr s ra)) (ps1 (fpr s rb))) in
    let s := set_fpr rd v s in
    set_state (set_pc (wrap32 (pc s + 4)) s) m
  else
    (* default: unhandled opcode *)
    set_state (set_running false s) m.

Definition fetch_instruction (m : Machine) : Z := read_word m (pc (state m)).

(** The opcodes that have a [case] in [execute_instruction]. *)
Definition recognized (opcode : Z) : bool :=
  (opcode =? 0x18) || (opcode =? 0x12) || (opcode =? 0x3C).

(** One round of the emulation loop of [main] (event polling, rendering
    and the delay left out). *)
Definition emulation_step (m : Machine) : Machine :=
  let instruction := fetch_instruction m in
  let m := execute_instruction instruction m in
  snd (handle_starlet_command m).

(** [n] rounds of [while (state.running)]. *)
Fixpoint emulation_loop (n : nat) (m : Machine) : Machine :=
  match n with
  | O => m
  | S n' => if running (state m) then emulation_loop n' (emulation_step m) else m
  end.

End WiiEmu.

(** ** src/emuwiiv0.cpp: the [Memory] class *)

Module EmuWiiV0.

Definition MEM1_SIZE : Z := 24 * 1024 * 1024.
Definition MEM2_SIZE : Z := 64 * 1024 * 1024.

Definition REG_VIDEO_BG_COLOR : Z := 0x0D000000.
Definition REG_INPUT_STATE : Z := 0x0D000004.
Definition REG_AUDIO_FREQ : Z := 0x0D000008.

(** The object.  The three device pointers are options: [None] for
    [nullptr], otherwise the value the device holds (the background colour
    of the [Video], the tone frequency of the [Audio], the button state
    that [Input::getButtonState] returns). *)
Record Memory := mkMemory {
  mem1 : Z -> Z;
  mem2 : Z -> Z;
  video : option Z;
  audio : option Z;
  input : option Z;
  videoBgColor : Z;
  audioFreqValue : Z
}.

Definition in_mem1_window (address : Z) : bool :=
  ((0x80000000 <=? address) && (address <? 0x80000000 + MEM1_SIZE))
  || ((0xC0000000 <=? address) && (address <? 0xC0000000 + MEM1_SIZE)).

Definition in_mem2_window (address : Z) : bool :=
  ((0x90000000 <=? address) && (address <? 0x90000000 + MEM2_SIZE))
  || ((0xD0000000 <=? address) && (address <? 0xD0000000 + MEM2_SIZE)).

(** [address & (MEM1_SIZE - 1)] and [address & (MEM2_SIZE - 1)]. *)
Definition mem1_offset (address : Z) : Z := Z.land address (MEM1_SIZE - 1).
Definition mem2_offset (address : Z) : Z := Z.land address (MEM2_SIZE - 1).

Definition read32 (m : Memory) (address : Z) : Z :=
  if in_mem1_window address then
    let offset := mem1_offset address in
    if offset + 3 <? MEM1_SIZE then big_endian (mem1 m) offset else 0
  else if in_mem2_window address then
    let offset := mem2_offset address in
    if offset + 3 <? MEM2_SIZE then big_endian (mem2 m) offset else 0
  else if address =? REG_VIDEO_BG_COLOR then videoBgColor m
  else if address =? REG_INPUT_STATE then
    match input m with Some buttons => buttons | None => 0 end
  else if address =? REG_AUDIO_FREQ then audioFreqValue m
  else 0.

Definition write32 (address value : Z) (m : Memory) : Memory :=
  if in_mem1_window address then
    let offset := mem1_offset address in
    if offset + 3 <? MEM1_SIZE then
      mkMemory (store_big_endian (mem1 m) offset value) (mem2 m)
               (video m) (audio m) (input m) (videoBgColor m) (audioFreqValue m)
    else m
  else if in_mem2_window address then
    let offset := mem2_offset address in
    if offset + 3 <? MEM2_SIZE then
      mkMemory (mem1 m) (store_big_endian (mem2 m) offset value)
               (video m) (audio m) (input m) (videoBgColor m) (audioFreqValue m)
    else m
  else if address =? REG_VIDEO_BG_COLOR then
    mkMemory (mem1 m) (mem2 m)
             (match video m with Some _ => Some value | None => None end)
             (audio m) (input m) value (audioFreqValue m)
  else if address =? REG_INPUT_STATE then m
  else if address =? REG_AUDIO_FREQ then
    mkMemory (mem1 m) (mem2 m) (video m)
             (match audio m with Some _ => Some value | None => None end)
             (input m) (videoBgColor m) value
  else m.

End EmuWiiV0.

(** ** src/emuwiiv0.cpp: the draft headed "emulator.cpp" *)

Module Emulator.

Definition MEMORY_SIZE : Z := 16 * 1024 * 1024.

Record CPUState := mkCPUState {
  pc : Z;
  gpr : Z -> Z;
  running : bool
}.

(** The [CPUState cpuState] of [main] and the global [memory]. *)
Record Machine := mkMachine {
  state : CPUState;
  memory : Z -> Z
}.

Definition set_pc (v : Z) (s : CPUState) : CPUState :=
  mkCPUState v (gpr s) (running s).
Definition set_gpr (i v : Z) (s : CPUState) : CPUState :=
  mkCPUState (pc s) (upd (gpr s) i v) (running s).
Definition set_running (b : bool) (s : CPUState) : CPUState :=
  mkCPUState (pc s) (gpr s) b.

Definition set_state (s : CPUState) (m : Machine) : Machine :=
  mkMachine s (memory m).
Definition set_memory (mem : Z -> Z) (m : Machine) : Machine :=
  mkMachine (state m) mem.

(** [load_binary].  The file is given by its bytes, [None] when it cannot
    be opened; a file larger than the memory is refused, a smaller one is
    read over the start of the memory and the rest is left as it was. *)
Definition load_binary (file : option (list Z)) (m : Machine) : bool * Machine :=
  match file with
  | None => (false, m)
  | Some bytes =>
      let fileSize := Z.of_nat (length bytes) in
      if fileSize >? MEMORY_SIZE then (false, m)
      else
        (true,
         set_memory (fun i => if (0 <=? i) && (i <? fileSize)
                              then nth (Z.to_nat i) bytes 0
                              else memory m i) m)
  end.

Definition read_word (m : Machine) (address : Z) : Z :=
  if address >? MEMORY_SIZE - 4 then 0
  else little_endian (memory m) address.

Definition write_word (address value : Z) (m : Machine) : Machine :=
  if address >? MEMORY_SIZE - 4 then m
  else set_memory (store_little_endian (memory m) address value) m.

(** [fetch_instruction]: the word at pc, and pc moved past it; a pc out
    of bounds stops the emulator and yields the word 0. *)
Definition fetch_instruction (m : Machine) : Z * Machine :=
  let s := state m in
  if pc s >? MEMORY_SIZE - 4 then (0, set_state (set_running false s) m)
  else (read_word m (pc s), set_state (set_pc (wrap32 (pc s + 4)) s) m).

Definition field_21 (instruction : Z) : Z := Z.land (Z.shiftr instruction 21) 0x1F.
Definition field_16 (instruction : Z) : Z := Z.land (Z.shiftr instruction 16) 0x1F.
Definition field_11 (instruction : Z) : Z := Z.land (Z.shiftr instruction 11) 0x1F.

(** [immediate = static_cast<int16_t>(instruction & 0xFFFF)], stored in a
    [uint32_t]. *)
Definition sign_extended (instruction : Z) : Z :=
  wrap32 (to_int16 (Z.land instruction 0xFFFF)).

(** [int32_t address = state.gpr[rA] + imm_signed] of LW and SW. *)
Definition data_address (s : CPUState) (instruction : Z) : Z :=
  to_int32 (wrap32 (gpr s (field_16 instruction)
                    + to_int16 (Z.land instruction 0xFFFF))).

(** [address < 0 || address > MEMORY_SIZE - 4]; the second comparison is
    made in [uint32_t]. *)
Definition out_of_bounds (address : Z) : bool :=
  (address <? 0) || (wrap32 address >? MEMORY_SIZE - 4).

Definition execute_instruction (instruction : Z) (m : Machine) : Machine :=
  let opcode := opcode_of instruction in
  let s := state m in
  if opcode =? 0x00 then
    (* NOP *)
    m
  else if opcode =? 0x14 then
    (* ADDI *)
    let rD := field_21 instruction in
    let rA := field_16 instruction in
    let immediate := sign_extended instruction in
    set_state (set_gpr rD (wrap32 (gpr s rA + immediate)) s) m
  else if opcode =? 0x10 then
    (* ADD *)
    let rD := field_21 instruction in
    let rA := field_16 instruction in
    let rB := field_11 instruction in
    set_state (set_gpr rD (wrap32 (gpr s rA + gpr s rB)) s) m
  else if opcode =? 0x08 then
    (* SUB *)
    let rD := field_21 instruction in
    let rA := field_16 instruction in
    let rB := field_11 instruction in
    set_state (set_gpr rD (wrap32 (gpr s rA - gpr s rB)) s) m
  else if opcode =? 0x0C then
    (* MUL *)
    let rD := field_21 instruction in
    let rA := field_16 instruction in
    let rB := field_11 instruction in
    set_state (set_gpr rD (wrap32 (gpr s rA * gpr s rB)) s) m
  else if opcode =? 0x04 then
    (* ANDI *)
    let rD := field_21 instruction in
    let rA := field_16 instruction in
    let immediate := sign_extended instruction in
    set_state (set_gpr rD (Z.land (gpr s rA) (immediate mod 2^16)) s) m
  else if opcode =? 0x0A then
    (* ORI *)
    let rD := field_21 instruction in
    let rA := field_16 instruction in
    let immediate := sign_extended instruction in
    set_state (set_gpr rD (Z.lor (gpr s rA) (immediate mod 2^16)) s) m
  else if opcode =? 0x02 then
    (* BEQ *)
    let rA := field_21 instruction in
    let rB := field_16 instruction in
    let offset := to_int16 (sign_extended instruction) in
    if gpr s rA =? gpr s rB then
      set_state (set_pc (wrap32 (pc s + Z.shiftl offset 2)) s) m
    else m
  else if opcode =? 0x03 then
    (* BNE *)
    let rA := field_21 instruction in
    let rB := field_16 instruction in
    let offset := to_int16 (sign_extended instruction) in
    if negb (gpr s rA =? gpr s rB) then
      set_state (set_pc (wrap32 (pc s + Z.shiftl offset 2)) s) m
    else m
  else if opcode =? 0x20 then
    (* LW *)
    let rD := field_21 instruction in
    let address := data_address s instruction in
    if out_of_bounds address then set_state (set_running false s) m
    else set_state (set_gpr rD (read_word m (wrap32 address)) s) m
  else if opcode =? 0x28 then
    (* SW *)
    let rD := field_21 instruction in
    let address := data_address s instruction in
    if out_of_bounds address then set_state (set_running false s) m
    else write_word (wrap32 address) (gpr s rD) m
  else
    (* HALT (0x3F) and the default *)
    set_state (set_running false s) m.

(** One round of the loop of [main]: fetch, then execute. *)
Definition emulation_step (m : Machine) : Machine :=
  let (instruction, m1) := fetch_instruction m in
  execute_instruction instruction m1.

(** [n] rounds of [while (cpuState.running)]. *)
Fixpoint emulation_loop (n : nat) (m : Machine) : Machine :=
  match n with
  | O => m
  | S n' => if running (state m) then emulation_loop n' (emulation_step m) else m
  end.

End Emulator.

(** ** Example machines

    Concrete states on which the statements below are exercised. *)

Module Examples.
Import EmuWiiV1.

Definition zero_fpr : FPR := mkFPR (S754_zero false) (S754_zero false).

(** The state built by [CPUState()]. *)
Definition initial_state : CPUState :=
  mkCPUState 0 (fun _ => 0) (fun _ => zero_fpr) (fun _ => 0)
             true false true 0.

Definition idle_mailbox : StarletMemory := mkStarletMemory 0 0 0 0 0.

Definition silent_audio : AudioState := mkAudioState (fun _ => 0) 0 0 false.

(** A machine whose memory is all zero. *)
Definition blank : Machine :=
  mkMachine initial_state (fun _ => 0) (fun _ => 0) idle_mailbox
            ∅ silent_audio [].

(** [ADD r3, r1, r2] in the encoding of [execute_instruction]. *)
Definition add_r3_r1_r2 : Z := 0x60221800.

(** The scenario machine: the ADD word at the entry point, r1 = 5,
    r2 = 7, pc at the entry point. *)
Definition add_machine : Machine :=
  let m := write_word KERNEL_BASE_ADDR add_r3_r1_r2 blank in
  let s := set_gpr 2 7 (set_gpr 1 5 (set_pc KERNEL_BASE_ADDR (state m))) in
  set_state s m.

(** An address whose word would end past the buffer. *)
Definition fault_address : Z := 0x057FFFFD.

(** The machine after [initialize_kernel], stopped at some pc with
    interrupts enabled. *)
Definition armed_machine : Machine :=
  let m := initialize_kernel blank in
  set_state (set_interrupts_enabled true (set_pc 0x80000040 (state m))) m.

(** The machine after [initialize_kernel] with pc on the stub of the
    system-call vector and interrupts disabled, as an interrupt leaves
    them.  The stub word 0x4C000064 has opcode 0x13. *)
Definition stub_machine : Machine :=
  let m := initialize_kernel blank in
  set_state (set_pc 0x80003090 (state m)) m.

(** [LWZ r3, 8(r0)] and [LWZ r3, -4(r1)]; [STW r3, 8(r0)]. *)
Definition lwz_r3_8_r0 : Z := 0x80600008.
Definition lwz_r3_m4_r1 : Z := 0x8061FFFC.
Definition stw_r3_8_r0 : Z := 0x90600008.

(** Distinct words at addresses 0x8, 0x1008 and 0x80000100; r0 = 0x1000,
    r1 = 0x80000104, r3 = 0x33333333. *)
Definition lwz_machine : Machine :=
  let m := write_word 0x8 0xAAAA0008 blank in
  let m := write_word 0x1008 0xBBBB1008 m in
  let m := write_word 0x80000100 0xCCCC0100 m in
  let s := set_gpr 3 0x33333333
             (set_gpr 1 0x80000104 (set_gpr 0 0x1000 (state m))) in
  set_state s m.

(** [b -4] (link and absolute bits clear) and a machine stopped at
    0x80000010. *)
Definition b_minus_4 : Z := 0x4BFFFFFC.
Definition branch_machine : Machine :=
  set_state (set_pc 0x80000010 (state blank)) blank.

(** [ADDI r0, r0, 1] in the encoding of [execute_instruction] (source
    register in bits 21-25, destination in bits 16-20). *)
Definition addi_r0_r0_1 : Z := 0x64000001.

(** A destination whose fourth word (at 0x057FFFFD) would end past the
    buffer. *)
Definition unmapped_destination : Z := 0x057FFFF1.

(** A pending block copy: command 0x03, the parameter block at 0x80000000
    holding source, destination and the byte count 16, and four distinct
    words at the source. *)
Definition copy_machine (src dest : Z) : Machine :=
  let m := write_word 0x80000000 src blank in
  let m := write_word 0x80000004 dest m in
  let m := write_word 0x80000008 16 m in
  let m := write_word src 0x11111111 m in
  let m := write_word (src + 4) 0x22222222 m in
  let m := write_word (src + 8) 0x33333333 m in
  let m := write_word (src + 12) 0x44444444 m in
  set_starlet_memory (mkStarletMemory 0x03 0 0x80000000 0 0) m.

(** Source and destination apart, and destination one word into the
    source. *)
Definition disjoint_copy : Machine := copy_machine 0x80000100 0x80000200.
Definition overlap_copy : Machine := copy_machine 0x80000100 0x80000104.
Definition unmapped_copy : Machine := copy_machine 0x80000100 unmapped_destination.

(** The draft of src/wiiemu.cpp on an all-zero memory: the word fetched at
    pc = 0 is 0, whose opcode 0 has no [case]. *)
Definition wiiemu_blank : WiiEmu.Machine :=
  WiiEmu.mkMachine
    (WiiEmu.mkCPUState 0 (fun _ => 0)
       (fun _ => WiiEmu.mkFPR (S754_zero false) (S754_zero false))
       (fun _ => 0) true false false)
    (fun _ => 0)
    (WiiEmu.mkStarletMemory 0 0).

(** The [Memory] object of src/emuwiiv0.cpp as its constructor leaves it. *)
Definition fresh_memory : EmuWiiV0.Memory :=
  EmuWiiV0.mkMemory (fun _ => 0) (fun _ => 0) None None None 0 0.

(** The last offset of the first RAM window whose word does not fit. *)
Definition edge_offset : Z := 0x17FFFFD.

(** [BC] with BO = 01000 and BI = 0, displacement 16: branch if bit 31
    of the condition register (the first bit of field 0) is set. *)
Definition bc_bit31_16 : Z := 0x41000010.

(** A machine at the entry point whose condition register has that bit. *)
Definition less_machine : Machine :=
  set_state (set_spr 0 0x80000000 (set_pc KERNEL_BASE_ADDR (state blank))) blank.

(** The word that the source decodes as SUB r3, r1, r2: opcode 0x1F with
    extended opcode 0x10A. *)
Definition sub_r3_r1_r2 : Z := 0x7C221A14.

(** A pending block copy whose parameter block, at offset 0, gives the
    byte count 0xFFFFFFFF. *)
Definition endless_copy : Machine :=
  set_starlet_memory (mkStarletMemory 0x03 0 0 0 0)
                     (write_word 8 0xFFFFFFFF blank).

(** A pending block copy of 10 bytes, a count that is not a multiple of
    4, from 0x80000100 to 0x80000200. *)
Definition odd_copy : Machine :=
  let m := write_word 0x80000000 0x80000100 blank in
  let m := write_word 0x80000004 0x80000200 m in
  let m := write_word 0x80000008 10 m in
  let m := write_word 0x80000100 0x11111111 m in
  let m := write_word 0x80000104 0x22222222 m in
  let m := write_word 0x80000108 0x33333333 m in
  set_starlet_memory (mkStarletMemory 0x04 0 0x80000000 0 0) m.

(** A pending audio update of two bytes from the unaligned address
    0x80000101, with an initialised four-byte audio buffer. *)
Definition audio_request : Machine :=
  let m := write_word 0x80000000 0x80000101 blank in
  let m := write_word 0x80000004 2 m in
  let m := write_word 0x80000100 0xAABBCCDD m in
  set_audio_state (mkAudioState (fun _ => 0) 4 0 true)
    (set_starlet_memory (mkStarletMemory 0x05 0 0x80000000 0 0) m).

(** The draft of src/wiiemu.cpp with the ADD word at offset 0, where its
    pc starts. *)
Definition wiiemu_add : WiiEmu.Machine :=
  WiiEmu.write_word 0 add_r3_r1_r2 wiiemu_blank.

(** The draft headed "emulator.cpp" with an all-zero memory, and with
    [BEQ r0, r0, -1] (opcode 0x02, offset 0xFFFF), stored least
    significant byte first, at offset 0x100 and pc there. *)
Definition emulator_blank : Emulator.Machine :=
  Emulator.mkMachine (Emulator.mkCPUState 0 (fun _ => 0) true) (fun _ => 0).

Definition beq_self : Z := 0x0800FFFF.

Definition spinning : Emulator.Machine :=
  let m := Emulator.write_word 0x100 beq_self emulator_blank in
  Emulator.set_state (Emulator.set_pc 0x100 (Emulator.state m)) m.

End Examples.

(** * Properties *)

(** ** Arrays and byte order *)

Lemma upd_same {A : Type} (a : Z -> A) (i : Z) (v : A) : upd a i v i = v.
Proof. unfold upd. now rewrite Z.eqb_refl. Qed.

Lemma upd_other {A : Type} (a : Z -> A) (i j : Z) (v : A) :
  j <> i -> upd a i v j = a j.
Proof. unfold upd. intros H. apply Z.eqb_neq in H. now rewrite H. Qed.

Lemma wrap32_small (x : Z) : 0 <= x < 2^32 -> wrap32 x = x.
Proof. intros H. unfold wrap32. now apply Z.mod_small. Qed.

Lemma wrap32_range (x : Z) : 0 <= wrap32 x < 2^32.
Proof. unfold wrap32. apply Z.mod_pos_bound. lia. Qed.

(** A bit of [v] at or beyond position 32 is clear when [v] is a 32-bit
    value. *)
Lemma testbit_above_32 (v n : Z) : 0 <= v < 2^32 -> 32 <= n -> Z.testbit v n = false.
Proof.
  intros Hv Hn.
  destruct (Z.eq_dec v 0) as [->|Hz]; [apply Z.bits_0|].
  apply Z.bits_above_log2; [lia|].
  apply Z.log2_lt_pow2; [lia|].
  assert (2^32 <= 2^n) by (apply Z.pow_le_mono_r; lia). lia.
Qed.

Ltac bit_range_true := symmetry; apply Z.ltb_lt; lia.
Ltac bit_range_false := symmetry; apply Z.ltb_ge; lia.

(** The four bytes that [write_word] stores, put together the way
    [read_word] does, are the word. *)
Lemma bytes_of_word (v : Z) :
  0 <= v < 2^32 ->
  Z.lor (Z.lor (Z.lor (Z.shiftl (Z.land (Z.shiftr v 24) 0xFF) 24)
                      (Z.shiftl (Z.land (Z.shiftr v 16) 0xFF) 16))
               (Z.shiftl (Z.land (Z.shiftr v 8) 0xFF) 8))
        (Z.land v 0xFF) = v.
Proof.
  intros Hv.
  apply Z.bits_inj'. intros n Hn.
  rewrite !Z.lor_spec.
  change 0xFF with (Z.ones 8).
  destruct (Z.lt_ge_cases n 8) as [H8|H8].
  - rewrite !Z.shiftl_spec_low by lia.
    rewrite Z.land_spec, Z.testbit_ones_nonneg by lia.
    replace (n <? 8) with true by bit_range_true.
    simpl. now rewrite andb_true_r.
  - destruct (Z.lt_ge_cases n 16) as [H16|H16].
    + rewrite (Z.shiftl_spec_low _ 24), (Z.shiftl_spec_low _ 16) by lia.
      rewrite Z.shiftl_spec by lia.
      rewrite !Z.land_spec, !Z.testbit_ones_nonneg by lia.
      rewrite Z.shiftr_spec by lia.
      replace (n - 8 <? 8) with true by bit_range_true.
      replace (n <? 8) with false by bit_range_false.
      replace (n - 8 + 8) with n by lia.
      simpl. now rewrite !andb_true_r, andb_false_r, orb_false_r.
    + destruct (Z.lt_ge_cases n 24) as [H24|H24].
      * rewrite (Z.shiftl_spec_low _ 24) by lia.
        rewrite !Z.shiftl_spec by lia.
        rewrite !Z.land_spec, !Z.testbit_ones_nonneg by lia.
        rewrite !Z.shiftr_spec by lia.
        replace (n - 16 <? 8) with true by bit_range_true.
        replace (n - 8 <? 8) with false by bit_range_false.
        replace (n <? 8) with false by bit_range_false.
        replace (n - 16 + 16) with n by lia.
        simpl. now rewrite !andb_true_r, !andb_false_r, !orb_false_r.
      * rewrite !Z.shiftl_spec by lia.
        rewrite !Z.land_spec, !Z.testbit_ones_nonneg by lia.
        rewrite !Z.shiftr_spec by lia.
        replace (n - 16 <? 8) with false by bit_range_false.
        replace (n - 8 <? 8) with false by bit_range_false.
        replace (n <? 8) with false by bit_range_false.
        replace (n - 24 + 24) with n by lia.
        rewrite !andb_false_r, !orb_false_r.
        destruct (Z.lt_ge_cases n 32) as [H32|H32].
        -- replace (n - 24 <? 8) with true by bit_range_true.
           now rewrite andb_true_r.
        -- replace (n - 24 <? 8) with false by bit_range_false.
           rewrite andb_false_r. symmetry. now apply testbit_above_32.
Qed.

Lemma big_endian_store (bytes : Z -> Z) (p v : Z) :
  0 <= v < 2^32 -> big_endian (store_big_endian bytes p v) p = v.
Proof.
  intros Hv. unfold big_endian, store_big_endian.
  rewrite upd_same.
  rewrite (upd_other _ (p + 3) (p + 2)), upd_same by lia.
  rewrite (upd_other _ (p + 3) (p + 1)), (upd_other _ (p + 2) (p + 1)),
    upd_same by lia.
  rewrite (upd_other _ (p + 3) p), (upd_other _ (p + 2) p),
    (upd_other _ (p + 1) p), upd_same by lia.
  rewrite bytes_of_word by exact Hv.
  now apply wrap32_small.
Qed.

Lemma store_big_endian_other (bytes : Z -> Z) (p v q : Z) :
  q < p \/ p + 3 < q -> store_big_endian bytes p v q = bytes q.
Proof.
  intros H. unfold store_big_endian.
  rewrite !upd_other by lia. reflexivity.
Qed.

Lemma big_endian_store_disjoint (bytes : Z -> Z) (p v q : Z) :
  q + 4 <= p \/ p + 4 <= q ->
  big_endian (store_big_endian bytes p v) q = big_endian bytes q.
Proof.
  intros H. unfold big_endian.
  rewrite !store_big_endian_other by lia. reflexivity.
Qed.

Lemma big_endian_range (bytes : Z -> Z) (p : Z) : 0 <= big_endian bytes p < 2^32.
Proof. unfold big_endian. apply wrap32_range. Qed.

(** Masking with a non-negative mask stays between 0 and the mask. *)
Lemma land_mask_range (x mask : Z) : 0 <= mask -> 0 <= Z.land x mask <= mask.
Proof.
  intros Hm. apply Z.ldiff_le; [exact Hm|].
  apply Z.bits_inj'. intros n Hn.
  rewrite Z.ldiff_spec, Z.land_spec, Z.bits_0.
  destruct (Z.testbit x n), (Z.testbit mask n); reflexivity.
Qed.

(** A mask below [2^k] only looks at the low [k] bits. *)
Lemma land_mask_mod (x mask k : Z) :
  0 <= k -> 0 <= mask < 2^k -> Z.land x mask = Z.land (x mod 2^k) mask.
Proof.
  intros Hk Hm. apply Z.bits_inj'. intros n Hn.
  rewrite !Z.land_spec.
  destruct (Z.lt_ge_cases n k) as [Hlt|Hge].
  - now rewrite Z.mod_pow2_bits_low by lia.
  - assert (Hb : Z.testbit mask n = false).
    { destruct (Z.eq_dec mask 0) as [->|Hz]; [apply Z.bits_0|].
      apply Z.bits_above_log2; [lia|].
      apply Z.log2_lt_pow2; [lia|].
      assert (2^k <= 2^n) by (apply Z.pow_le_mono_r; lia). lia. }
    now rewrite Hb, !andb_false_r.
Qed.

(** ** src/emuwiiv1.cpp *)

Module EmuWiiV1Facts.
Import EmuWiiV1.

(** *** Memory *)

Lemma translate_address_range (a : Z) : 0 <= translate_address a <= MEM_MASK.
Proof.
  unfold translate_address.
  repeat match goal with |- context [if ?c then _ else _] => destruct c end;
    apply land_mask_range; unfold MEM_MASK, MEMORY_SIZE; lia.
Qed.

(** The guard of [read_word] and [write_word] never wraps. *)
Lemma guard_no_wrap (a : Z) :
  wrap32 (translate_address a + 3) = translate_address a + 3.
Proof.
  pose proof (translate_address_range a) as H.
  unfold MEM_MASK, MEMORY_SIZE in H.
  apply wrap32_small. lia.
Qed.

Lemma read_word_fault (m : Machine) (a : Z) :
  translate_address a + 3 >= MEMORY_SIZE -> read_word m a = 0.
Proof.
  intros H. unfold read_word. rewrite guard_no_wrap.
  destruct (Z.geb_spec (translate_address a + 3) MEMORY_SIZE); [reflexivity|lia].
Qed.

Lemma read_word_mapped (m : Machine) (a : Z) :
  translate_address a + 3 < MEMORY_SIZE ->
  read_word m a = big_endian (memory m) (translate_address a).
Proof.
  intros H. unfold read_word. rewrite guard_no_wrap.
  destruct (Z.geb_spec (translate_address a + 3) MEMORY_SIZE); [lia|reflexivity].
Qed.

Lemma read_word_range (m : Machine) (a : Z) : 0 <= read_word m a < 2^32.
Proof.
  unfold read_word.
  destruct (_ >=? _); [lia|apply big_endian_range].
Qed.

Lemma write_word_fault (m : Machine) (a v : Z) :
  translate_address a + 3 >= MEMORY_SIZE -> write_word a v m = m.
Proof.
  intros H. unfold write_word. rewrite guard_no_wrap.
  destruct (Z.geb_spec (translate_address a + 3) MEMORY_SIZE); [reflexivity|lia].
Qed.

Lemma memory_write_word (m : Machine) (a v : Z) :
  translate_address a + 3 < MEMORY_SIZE ->
  memory (write_word a v m) = store_big_endian (memory m) (translate_address a) v.
Proof.
  intros H. unfold write_word. rewrite guard_no_wrap.
  destruct (Z.geb_spec (translate_address a + 3) MEMORY_SIZE); [lia|].
  repeat match goal with |- context [if ?c then _ else _] => destruct c end;
    reflexivity.
Qed.

(** [write_word] only ever touches [memory] and [framebuffer]. *)
Lemma write_word_frame (m : Machine) (a v : Z) :
  state (write_word a v m) = state m
  /\ starlet_memory (write_word a v m) = starlet_memory m
  /\ interrupt_vectors (write_word a v m) = interrupt_vectors m
  /\ audio_state (write_word a v m) = audio_state m
  /\ trigger_calls (write_word a v m) = trigger_calls m.
Proof.
  unfold write_word.
  repeat match goal with |- context [if ?c then _ else _] => destruct c end;
    repeat split; reflexivity.
Qed.

(** A byte outside the four bytes of the word keeps its value. *)
Lemma memory_write_word_other (m : Machine) (a v p : Z) :
  p < translate_address a \/ translate_address a + 3 < p ->
  memory (write_word a v m) p = memory m p.
Proof.
  intros H.
  destruct (Z.lt_ge_cases (translate_address a + 3) MEMORY_SIZE) as [Hin|Hout].
  - rewrite memory_write_word by exact Hin.
    now apply store_big_endian_other.
  - rewrite write_word_fault by lia. reflexivity.
Qed.

(** A mapped word that was just written reads back. *)
Lemma read_write_same (m : Machine) (a v : Z) :
  translate_address a + 3 < MEMORY_SIZE -> 0 <= v < 2^32 ->
  read_word (write_word a v m) a = v.
Proof.
  intros Hmapped Hv.
  rewrite read_word_mapped by exact Hmapped.
  rewrite memory_write_word by exact Hmapped.
  now apply big_endian_store.
Qed.

(** A write does not disturb the reading of a word that lies elsewhere. *)
Lemma read_write_disjoint (m : Machine) (a v b : Z) :
  translate_address b + 4 <= translate_address a
  \/ translate_address a + 4 <= translate_address b ->
  read_word (write_word a v m) b = read_word m b.
Proof.
  intros H.
  destruct (Z.lt_ge_cases (translate_address a + 3) MEMORY_SIZE) as [Hin|Hout].
  - unfold read_word. rewrite memory_write_word by exact Hin.
    destruct (_ >=? _); [reflexivity|].
    now apply big_endian_store_disjoint.
  - rewrite write_word_fault by lia. reflexivity.
Qed.

(** The addresses 0x80000000 + x of the RAM window and 0xC0000000 + x,
    which reaches the fallback, are translated to the same offset, and every
    word of the window is mapped: a word written at one is read at the
    other. *)
Lemma ram_window_alias (x : Z) :
  0 <= x <= RAM_END - RAM_START ->
  translate_address (0x80000000 + x) = translate_address (0xC0000000 + x)
  /\ translate_address (0x80000000 + x) + 3 < MEMORY_SIZE
  /\ (forall m v, 0 <= v < 2^32 ->
                  read_word (write_word (0x80000000 + x) v m) (0xC0000000 + x) = v).
Proof.
  unfold RAM_END, RAM_START. intros Hx.
  assert (Hlow : translate_address (0x80000000 + x) = Z.land x MEM_MASK).
  { unfold translate_address, RAM_START, RAM_END.
    destruct (Z.leb_spec 0x80000000 (0x80000000 + x)); [|lia].
    destruct (Z.leb_spec (0x80000000 + x) 0x81FFFFFF); [|lia].
    cbn [andb]. f_equal. lia. }
  assert (Hhigh : translate_address (0xC0000000 + x) = Z.land x MEM_MASK).
  { unfold translate_address, RAM_START, RAM_END, HARDWARE_REGS_START,
      HARDWARE_REGS_END, STARLET_MEM_START, STARLET_MEM_END.
    destruct (Z.leb_spec (0xC0000000 + x) 0x81FFFFFF); [lia|].
    rewrite andb_false_r.
    destruct (Z.leb_spec 0xCC000000 (0xC0000000 + x)); [lia|].
    destruct (Z.leb_spec 0xCD000000 (0xC0000000 + x)); [lia|].
    cbn [andb].
    rewrite (land_mask_mod (0xC0000000 + x) MEM_MASK 27),
            (land_mask_mod x MEM_MASK 27)
      by (unfold MEM_MASK, MEMORY_SIZE; lia).
    f_equal. change 0xC0000000 with (24 * 2^27).
    rewrite Z.add_comm. apply Z_mod_plus_full. }
  assert (Hfit : Z.land x MEM_MASK + 3 < MEMORY_SIZE).
  { rewrite Z.land_comm.
    assert (Hb : 0 <= Z.land MEM_MASK x <= x) by (apply land_mask_range; lia).
    unfold MEMORY_SIZE. lia. }
  split; [now rewrite Hlow, Hhigh|].
  split; [now rewrite Hlow|].
  intros m v Hv.
  rewrite read_word_mapped by now rewrite Hhigh.
  rewrite memory_write_word by now rewrite Hlow.
  rewrite Hlow, Hhigh. now apply big_endian_store.
Qed.

(** [xo] is read into a [uint8_t], so it is never 0x10A: the SUB arm of the
    extended opcodes cannot be reached. *)
Lemma sub_unreachable (instruction : Z) :
  (wrap8 (Z.land (Z.shiftr instruction 1) 0x3FF) =? 0x10A) = false.
Proof.
  apply Z.eqb_neq. unfold wrap8.
  pose proof (Z.mod_pos_bound (Z.land (Z.shiftr instruction 1) 0x3FF) (2^8)).
  lia.
Qed.

(** [initialize_kernel] leaves the vector of type [i] at
    [INTERRUPT_TABLE_BASE + 0x10 * i] for the twelve types 0 to 11. *)
Lemma write_words_keep_vectors (l : list (Z * Z)) (w : Z) (m : Machine) :
  interrupt_vectors (fold_left (fun acc e => write_word (snd e) w acc) l m)
  = interrupt_vectors m.
Proof.
  revert m. induction l as [|e l IH]; intros m; [reflexivity|].
  cbn [fold_left]. rewrite IH.
  now destruct (write_word_frame m (snd e) w) as (_ & _ & -> & _).
Qed.

Lemma initialize_kernel_vectors (m : Machine) (i : Z) :
  0 <= i < 12 ->
  get_interrupt_vector (initialize_kernel m) i = INTERRUPT_TABLE_BASE + 0x10 * i.
Proof.
  intros Hi. unfold get_interrupt_vector, initialize_kernel.
  rewrite write_words_keep_vectors.
  cbn [interrupt_vectors set_interrupt_vectors fold_left kernel_vectors fst snd].
  assert (i = 0 \/ i = 1 \/ i = 2 \/ i = 3 \/ i = 4 \/ i = 5 \/ i = 6
          \/ i = 7 \/ i = 8 \/ i = 9 \/ i = 10 \/ i = 11)
    as [->|[->|[->|[->|[->|[->|[->|[->|[->|[->|[->| ->]]]]]]]]]]] by lia;
    repeat (rewrite lookup_insert_ne by discriminate);
    rewrite lookup_insert_eq; reflexivity.
Qed.

(** *** The executor, one opcode at a time *)

Lemma execute_add (instruction : Z) (m : Machine) :
  opcode_of instruction = 0x18 ->
  execute_instruction instruction m =
  set_state
    (advance_pc
       (set_gpr (field_11 instruction)
                (wrap32 (gpr (state m) (field_21 instruction)
                         + gpr (state m) (field_16 instruction)))
                (state (tick m))))
    (tick m).
Proof.
  intros Hop. unfold execute_instruction. rewrite Hop. reflexivity.
Qed.

Lemma execute_addi (instruction : Z) (m : Machine) :
  opcode_of instruction = 0x19 ->
  execute_instruction instruction m =
  set_state
    (advance_pc
       (set_gpr (field_16 instruction)
                (wrap32 (gpr (state m) (field_21 instruction)
                         + to_int16 (Z.land instruction 0xFFFF)))
                (state (tick m))))
    (tick m).
Proof.
  intros Hop. unfold execute_instruction. rewrite Hop. reflexivity.
Qed.

Lemma execute_addis (instruction : Z) (m : Machine) :
  opcode_of instruction = 0x1C ->
  execute_instruction instruction m =
  set_state
    (advance_pc
       (set_gpr (field_16 instruction)
                (wrap32 (gpr (state m) (field_21 instruction)
                         + Z.shiftl (to_int16 (Z.land instruction 0xFFFF)) 16))
                (state (tick m))))
    (tick m).
Proof.
  intros Hop. unfold execute_instruction. rewrite Hop. reflexivity.
Qed.

Lemma execute_lwz (instruction : Z) (m : Machine) :
  opcode_of instruction = 0x20 ->
  execute_instruction instruction m =
  set_state
    (advance_pc
       (set_gpr (field_21 instruction)
                (read_word m (effective_address (state m) (field_16 instruction)
                                (to_int16 (Z.land instruction 0xFFFF))))
                (state (tick m))))
    (tick m).
Proof.
  intros Hop. unfold execute_instruction. rewrite Hop. reflexivity.
Qed.

Lemma execute_stw (instruction : Z) (m : Machine) :
  opcode_of instruction = 0x24 ->
  execute_instruction instruction m =
  let m1 := write_word (effective_address (state m) (field_16 instruction)
                          (to_int16 (Z.land instruction 0xFFFF)))
                       (gpr (state m) (field_21 instruction)) (tick m) in
  set_state (advance_pc (state m1)) m1.
Proof.
  intros Hop. unfold execute_instruction. rewrite Hop. reflexivity.
Qed.

Lemma execute_sc (instruction : Z) (m : Machine) :
  opcode_of instruction = 0x13 ->
  execute_instruction instruction m = trigger_interrupt 9 (tick m).
Proof.
  intros Hop. unfold execute_instruction. rewrite Hop. reflexivity.
Qed.

Lemma execute_rfi (instruction : Z) (m : Machine) :
  opcode_of instruction = 0x11 ->
  execute_instruction instruction m =
  set_state (set_interrupts_enabled true
               (set_pc (spr (state m) 8) (state (tick m)))) (tick m).
Proof.
  intros Hop. unfold execute_instruction. rewrite Hop. reflexivity.
Qed.

(** The branch displacement as the source computes it. *)
Lemma execute_branch (instruction : Z) (m : Machine) :
  opcode_of instruction = 0x12 ->
  execute_instruction instruction m =
  let s := state (tick m) in
  let offset :=
    Z.shiftr (to_int32 (wrap32 (Z.shiftl (Z.land instruction 0x03FFFFFF) 2))) 2 in
  let s := if negb (Z.land instruction 0x1 =? 0)
           then set_spr 8 (wrap32 (pc s + 4)) s else s in
  if negb (Z.land instruction 0x2 =? 0)
  then set_state (set_pc (Z.land (wrap32 offset) 0xFFFFFFFC) s) (tick m)
  else set_state (set_pc (wrap32 (pc s + offset)) s) (tick m).
Proof.
  intros Hop. unfold execute_instruction. rewrite Hop. reflexivity.
Qed.

(** The opcodes with a [case] of their own. *)
Lemma execute_default (instruction : Z) (m : Machine) :
  ~ In (opcode_of instruction)
       [0x18; 0x19; 0x1C; 0x1F; 0x12; 0x10; 0x3C; 0x3D; 0x3E; 0x20; 0x24;
        0x0C; 0x13; 0x11] ->
  execute_instruction instruction m = set_state (advance_pc (state (tick m))) (tick m).
Proof.
  intros Hop. unfold execute_instruction.
  repeat match goal with
         | |- context [opcode_of instruction =? ?k] =>
             destruct (Z.eqb_spec (opcode_of instruction) k) as [E|_];
             [exfalso; apply Hop; rewrite E; simpl; tauto|]
         end.
  reflexivity.
Qed.

(** C1.  An ADD word (opcode 0x18) with register fields ra (bits 21-25),
    rb (bits 16-20) and rd (bits 11-15), executed on any machine, puts
    (GPR[ra] + GPR[rb]) mod 2^32 into GPR[rd], leaves the other general
    registers alone, advances pc by 4 and cycle_count by 1 (in [uint32_t]
    and [uint64_t]: exactly 4 and exactly 1 unless the counter is at the
    top of its range), and touches nothing else.  In particular, when the
    word fetched at the entry point is ADD r3,r1,r2 with GPR[1] = 5,
    GPR[2] = 7, cycle_count = 0 and an idle mailbox, one round of the
    emulation loop ends with GPR[3] = 12, pc = entry + 4, cycle_count = 1. *)
Theorem add_step (instruction : Z) (m : Machine)
        (Hop : opcode_of instruction = 0x18) :
  let m' := execute_instruction instruction m in
  let ra := field_21 instruction in
  let rb := field_16 instruction in
  let rd := field_11 instruction in
  (gpr (state m') rd = (gpr (state m) ra + gpr (state m) rb) mod 2^32
   /\ (forall r, r <> rd -> gpr (state m') r = gpr (state m) r)
   /\ pc (state m') = (pc (state m) + 4) mod 2^32
   /\ (0 <= pc (state m) < 2^32 - 4 -> pc (state m') = pc (state m) + 4)
   /\ cycle_count (state m') = (cycle_count (state m) + 1) mod 2^64
   /\ (0 <= cycle_count (state m) < 2^64 - 1 ->
       cycle_count (state m') = cycle_count (state m) + 1)
   /\ fpr (state m') = fpr (state m)
   /\ spr (state m') = spr (state m)
   /\ running (state m') = running (state m)
   /\ interrupts_enabled (state m') = interrupts_enabled (state m)
   /\ kernel_mode (state m') = kernel_mode (state m)
   /\ memory m' = memory m
   /\ framebuffer m' = framebuffer m
   /\ starlet_memory m' = starlet_memory m)
  /\ (pc (state m) = KERNEL_BASE_ADDR ->
      fetch_instruction m = instruction ->
      ra = 1 -> rb = 2 -> rd = 3 ->
      gpr (state m) 1 = 5 -> gpr (state m) 2 = 7 ->
      cycle_count (state m) = 0 ->
      command (starlet_memory m) = 0 ->
      forall fuel, exists m1,
        emulation_step fuel m = Some m1
        /\ gpr (state m1) 3 = 12
        /\ pc (state m1) = KERNEL_BASE_ADDR + 4
        /\ cycle_count (state m1) = 1).
Proof.
  intros m' ra rb rd. subst m'.
  rewrite (execute_add instruction m Hop). fold ra rb rd.
  split.
  - cbn [state set_state advance_pc set_pc set_gpr tick set_cycle_count
         gpr pc cycle_count fpr spr running interrupts_enabled kernel_mode
         memory framebuffer starlet_memory].
    unfold wrap32, wrap64.
    split; [apply upd_same|].
    split; [intros r Hr; now apply upd_other|].
    split; [reflexivity|].
    split; [intros Hpc; apply Z.mod_small; lia|].
    split; [reflexivity|].
    split; [intros Hcc; apply Z.mod_small; lia|].
    repeat split.
  - intros Hpc Hfetch Hra Hrb Hrd H1 H2 Hcc Hidle fuel.
    unfold emulation_step. rewrite Hfetch.
    rewrite (execute_add instruction m Hop). fold ra rb rd.
    unfold handle_starlet_command.
    cbn [starlet_memory set_state tick].
    rewrite Hidle. cbn [Z.eqb negb].
    eexists. split; [reflexivity|].
    cbn [state set_state advance_pc set_pc set_gpr tick set_cycle_count
         gpr pc cycle_count].
    rewrite Hra, Hrb, Hrd, H1, H2, Hpc, Hcc, upd_same.
    repeat split.
Qed.

Lemma add_step_witness :
  let m1 := execute_instruction Examples.add_r3_r1_r2 Examples.add_machine in
  gpr (state m1) 3 = 12
  /\ pc (state m1) = 0x80000004
  /\ cycle_count (state m1) = 1
  /\ exists m2, emulation_step 0 Examples.add_machine = Some m2
                /\ gpr (state m2) 3 = 12
                /\ pc (state m2) = 0x80000004
                /\ cycle_count (state m2) = 1.
Proof.
  assert (Hop : opcode_of Examples.add_r3_r1_r2 = 0x18) by reflexivity.
  destruct (add_step Examples.add_r3_r1_r2 Examples.add_machine Hop)
    as [(Hg & _ & Hp & _ & Hc & _) Hscenario].
  split; [exact Hg|]. split; [exact Hp|]. split; [exact Hc|].
  apply Hscenario; reflexivity.
Defined.

(** C8.  When the word at address [a] is mapped (its physical offset plus 3
    is inside the buffer), writing a 32-bit value [v] there and reading
    the same address returns [v]. *)
Theorem write_then_read (m : Machine) (a v : Z)
        (Hmapped : translate_address a + 3 < MEMORY_SIZE)
        (Hv : 0 <= v < 2^32) :
  read_word (write_word a v m) a = v.
Proof.
  unfold read_word, write_word.
  rewrite guard_no_wrap.
  destruct (Z.geb_spec (translate_address a + 3) MEMORY_SIZE) as [Hge|_]; [lia|].
  repeat match goal with |- context [if ?c then _ else _] => destruct c end;
    cbn [memory set_framebuffer set_memory];
    now apply big_endian_store.
Qed.

Lemma write_then_read_witness :
  translate_address 0x80000100 + 3 < MEMORY_SIZE
  /\ read_word (write_word 0x80000100 0xDEADBEEF Examples.blank) 0x80000100
     = 0xDEADBEEF.
Proof.
  split; [reflexivity|].
  apply (write_then_read Examples.blank 0x80000100 0xDEADBEEF);
    [reflexivity | split; [discriminate | reflexivity]].
Defined.

(** C6.  When the physical offset plus 3 reaches past the buffer,
    [read_word] returns 0 and [write_word] returns the machine it was
    given: every byte of memory, the framebuffer, the registers and
    [running] are as before.  The load and store instructions that make
    such an access go on as usual: LWZ loads 0, STW stores nothing, both
    advance pc, neither changes [running]. *)
Theorem out_of_range_access (m : Machine) (a v : Z)
        (Hfault : translate_address a + 3 >= MEMORY_SIZE) :
  read_word m a = 0
  /\ write_word a v m = m
  /\ (forall p, memory (write_word a v m) p = memory m p)
  /\ running (state (write_word a v m)) = running (state m)
  /\ (forall instruction,
        opcode_of instruction = 0x20 ->
        effective_address (state m) (field_16 instruction)
                          (to_int16 (Z.land instruction 0xFFFF)) = a ->
        let m' := execute_instruction instruction m in
        running (state m') = running (state m)
        /\ gpr (state m') (field_21 instruction) = 0
        /\ pc (state m') = (pc (state m) + 4) mod 2^32
        /\ memory m' = memory m)
  /\ (forall instruction,
        opcode_of instruction = 0x24 ->
        effective_address (state m) (field_16 instruction)
                          (to_int16 (Z.land instruction 0xFFFF)) = a ->
        let m' := execute_instruction instruction m in
        running (state m') = running (state m)
        /\ gpr (state m') = gpr (state m)
        /\ pc (state m') = (pc (state m) + 4) mod 2^32
        /\ memory m' = memory m
        /\ framebuffer m' = framebuffer m).
Proof.
  split; [now apply read_word_fault|].
  split; [now apply write_word_fault|].
  split; [intros p; now rewrite write_word_fault|].
  split; [now rewrite write_word_fault|].
  split.
  - intros instruction Hop Hea m'. subst m'.
    rewrite (execute_lwz instruction m Hop), Hea.
    rewrite read_word_fault by exact Hfault.
    cbn [state set_state advance_pc set_pc set_gpr tick set_cycle_count
         gpr pc running memory].
    rewrite upd_same. repeat split.
  - intros instruction Hop Hea m'. subst m'.
    rewrite (execute_stw instruction m Hop), Hea.
    cbv zeta. rewrite write_word_fault by exact Hfault.
    repeat split.
Qed.

Lemma out_of_range_access_witness :
  translate_address Examples.fault_address + 3 >= MEMORY_SIZE
  /\ read_word Examples.blank Examples.fault_address = 0
  /\ write_word Examples.fault_address 0xFFFFFFFF Examples.blank = Examples.blank.
Proof.
  assert (Hfault : translate_address Examples.fault_address + 3 >= MEMORY_SIZE)
    by (vm_compute; discriminate).
  destruct (out_of_range_access Examples.blank Examples.fault_address
                                0xFFFFFFFF Hfault) as (Hr & Hw & _).
  split; [exact Hfault|]. split; [exact Hr | exact Hw].
Defined.

(** C7.  With interrupts enabled, [trigger_interrupt] stores the old pc in
    spr[8] (the link register), sets pc to the vector of the interrupt
    type, or to [INTERRUPT_TABLE_BASE] when the type has no vector, clears
    [interrupts_enabled] and sets [kernel_mode]; the general registers,
    the other special registers, [running], [cycle_count] and memory are
    untouched. *)
Theorem trigger_armed (interrupt_type : Z) (m : Machine)
        (Harmed : interrupts_enabled (state m) = true) :
  let m' := trigger_interrupt interrupt_type m in
  spr (state m') 8 = pc (state m)
  /\ (forall v, interrupt_vectors m !! interrupt_type = Some v ->
                pc (state m') = v)
  /\ (interrupt_vectors m !! interrupt_type = None ->
      pc (state m') = INTERRUPT_TABLE_BASE)
  /\ interrupts_enabled (state m') = false
  /\ kernel_mode (state m') = true
  /\ gpr (state m') = gpr (state m)
  /\ fpr (state m') = fpr (state m)
  /\ (forall i, i <> 8 -> spr (state m') i = spr (state m) i)
  /\ running (state m') = running (state m)
  /\ cycle_count (state m') = cycle_count (state m)
  /\ memory m' = memory m
  /\ interrupt_vectors m' = interrupt_vectors m.
Proof.
  intros m'. subst m'. unfold trigger_interrupt.
  cbn [state set_trigger_calls]. rewrite Harmed.
  cbn [state set_state set_pc set_spr set_interrupts_enabled set_kernel_mode
       pc gpr fpr spr running interrupts_enabled kernel_mode cycle_count
       memory interrupt_vectors].
  split; [apply upd_same|].
  unfold get_interrupt_vector. cbn [interrupt_vectors set_trigger_calls].
  split; [intros v Hv; now rewrite Hv|].
  split; [intros Hv; now rewrite Hv|].
  repeat split.
  intros i Hi. now apply upd_other.
Qed.

Lemma trigger_armed_witness :
  (let m' := trigger_interrupt 9 Examples.armed_machine in
   spr (state m') 8 = 0x80000040 /\ pc (state m') = 0x80003090
   /\ interrupts_enabled (state m') = false /\ kernel_mode (state m') = true)
  /\ (let m' := trigger_interrupt 42 Examples.armed_machine in
      spr (state m') 8 = 0x80000040 /\ pc (state m') = 0x80003000
      /\ interrupts_enabled (state m') = false /\ kernel_mode (state m') = true).
Proof.
  assert (Harmed : interrupts_enabled (state Examples.armed_machine) = true)
    by reflexivity.
  split.
  - destruct (trigger_armed 9 Examples.armed_machine Harmed)
      as (Hlr & Hmapped & _ & Hie & Hkm & _).
    split; [exact Hlr|]. split; [apply Hmapped; reflexivity|].
    split; [exact Hie | exact Hkm].
  - destruct (trigger_armed 42 Examples.armed_machine Harmed)
      as (Hlr & _ & Hdefault & Hie & Hkm & _).
    split; [exact Hlr|]. split; [apply Hdefault; reflexivity|].
    split; [exact Hie | exact Hkm].
Defined.

(** *** The system call with interrupts disabled *)

Lemma trigger_disarmed (interrupt_type : Z) (m : Machine) :
  interrupts_enabled (state m) = false ->
  trigger_interrupt interrupt_type m
  = set_trigger_calls (trigger_calls m ++ [interrupt_type]) m.
Proof.
  intros H. unfold trigger_interrupt. cbn [state set_trigger_calls].
  now rewrite H.
Qed.

Lemma execute_sc_disarmed (m : Machine) :
  interrupts_enabled (state m) = false ->
  opcode_of (fetch_instruction m) = 0x13 ->
  execute_instruction (fetch_instruction m) m
  = set_trigger_calls (trigger_calls m ++ [9]) (tick m).
Proof.
  intros Hdis Hsc.
  rewrite (execute_sc _ m Hsc).
  now rewrite trigger_disarmed by exact Hdis.
Qed.

Lemma step_sc_disarmed (fuel : nat) (m : Machine) :
  interrupts_enabled (state m) = false ->
  opcode_of (fetch_instruction m) = 0x13 ->
  command (starlet_memory m) = 0 ->
  emulation_step fuel m = Some (set_trigger_calls (trigger_calls m ++ [9]) (tick m)).
Proof.
  intros Hdis Hsc Hidle. unfold emulation_step.
  rewrite (execute_sc_disarmed m Hdis Hsc).
  unfold handle_starlet_command.
  cbn [starlet_memory set_trigger_calls tick set_state].
  now rewrite Hidle.
Qed.

(** C9.  With interrupts disabled, executing a word whose opcode is 0x13
    (the system call) changes the CPU state in [cycle_count] only, which
    goes up by 1 (in [uint64_t]); memory, the framebuffer, the mailbox,
    the vector table and the audio state are unchanged.  pc is not
    advanced, so the next fetch returns the same word; with an idle
    mailbox the whole round of the emulation loop ends in that state. *)
Theorem system_call_disarmed (m : Machine)
        (Hdis : interrupts_enabled (state m) = false)
        (Hsc : opcode_of (fetch_instruction m) = 0x13) :
  let m1 := execute_instruction (fetch_instruction m) m in
  state m1 = set_cycle_count ((cycle_count (state m) + 1) mod 2^64) (state m)
  /\ (0 <= cycle_count (state m) < 2^64 - 1 ->
      cycle_count (state m1) = cycle_count (state m) + 1)
  /\ pc (state m1) = pc (state m)
  /\ memory m1 = memory m
  /\ framebuffer m1 = framebuffer m
  /\ starlet_memory m1 = starlet_memory m
  /\ interrupt_vectors m1 = interrupt_vectors m
  /\ audio_state m1 = audio_state m
  /\ fetch_instruction m1 = fetch_instruction m
  /\ (command (starlet_memory m) = 0 ->
      forall fuel, emulation_step fuel m = Some m1).
Proof.
  intros m1. subst m1.
  rewrite (execute_sc_disarmed m Hdis Hsc).
  split; [reflexivity|].
  split.
  { intros Hcc. cbn [state set_trigger_calls tick set_state cycle_count
                     set_cycle_count].
    unfold wrap64. apply Z.mod_small. lia. }
  repeat split.
  intros Hidle fuel. now apply step_sc_disarmed.
Qed.

Lemma system_call_disarmed_witness :
  let m := Examples.stub_machine in
  let m1 := execute_instruction (fetch_instruction m) m in
  fetch_instruction m = 0x4C000064
  /\ pc (state m1) = 0x80003090
  /\ cycle_count (state m1) = 1
  /\ fetch_instruction m1 = 0x4C000064
  /\ emulation_step 0 m = Some m1.
Proof.
  assert (Hdis : interrupts_enabled (state Examples.stub_machine) = false)
    by reflexivity.
  assert (Hsc : opcode_of (fetch_instruction Examples.stub_machine) = 0x13)
    by reflexivity.
  destruct (system_call_disarmed Examples.stub_machine Hdis Hsc)
    as (Hs & _ & Hpc & _ & _ & _ & _ & _ & Hf & Hstep).
  split; [reflexivity|].
  split; [exact Hpc|].
  split; [now rewrite Hs|].
  split; [exact Hf|].
  apply Hstep. reflexivity.
Defined.

(** The loop never leaves such a system call: after any number of rounds
    pc is where it was and only the cycle counter has moved. *)
Lemma system_call_livelock (fuel n : nat) (m : Machine) :
  running (state m) = true ->
  interrupts_enabled (state m) = false ->
  opcode_of (fetch_instruction m) = 0x13 ->
  command (starlet_memory m) = 0 ->
  exists mn,
    emulation_loop fuel n m = Some mn
    /\ pc (state mn) = pc (state m)
    /\ gpr (state mn) = gpr (state m)
    /\ memory mn = memory m
    /\ running (state mn) = true
    /\ cycle_count (state mn) mod 2^64
       = (cycle_count (state m) + Z.of_nat n) mod 2^64.
Proof.
  revert m. induction n as [|n IH]; intros m Hrun Hdis Hsc Hidle.
  - exists m. cbn [emulation_loop]. repeat split; [exact Hrun|].
    change (Z.of_nat 0) with 0. now rewrite Z.add_0_r.
  - cbn [emulation_loop]. rewrite Hrun.
    rewrite (step_sc_disarmed fuel m Hdis Hsc Hidle).
    set (m1 := set_trigger_calls (trigger_calls m ++ [9]) (tick m)).
    destruct (IH m1) as (mn & Hloop & Hpcn & Hgprn & Hmemn & Hrunn & Hccn);
      try assumption.
    exists mn. split; [exact Hloop|].
    split; [exact Hpcn|]. split; [exact Hgprn|]. split; [exact Hmemn|].
    split; [exact Hrunn|].
    rewrite Hccn. cbn [m1 state set_trigger_calls tick set_state
                       cycle_count set_cycle_count].
    unfold wrap64. rewrite Zplus_mod_idemp_l. f_equal. lia.
Qed.

(** *** General registers *)

(** An instruction changes no general register but the one it names as its
    destination; register 0 gets no special treatment. *)
Lemma gpr_frame (instruction : Z) (m : Machine) (r : Z) :
  written_gpr instruction <> Some r ->
  gpr (state (execute_instruction instruction m)) r = gpr (state m) r.
Proof.
  unfold written_gpr, execute_instruction. cbv zeta.
  rewrite sub_unreachable.
  repeat match goal with
         | |- context [opcode_of instruction =? ?k] =>
             destruct (opcode_of instruction =? k)
         end;
    cbn [orb]; intros H;
    try (destruct (write_word_frame (tick m)
                     (effective_address (state (tick m)) (field_16 instruction)
                        (to_int16 (Z.land instruction 0xFFFF)))
                     (gpr (state (tick m)) (field_21 instruction)))
          as (-> & _));
    unfold trigger_interrupt;
    repeat match goal with
           | |- context [if ?c then _ else _] => destruct c
           end;
    cbn [state set_state advance_pc set_pc set_gpr set_spr set_fpr
         set_interrupts_enabled set_kernel_mode set_trigger_calls tick
         set_cycle_count gpr];
    try reflexivity;
    apply upd_other; congruence.
Qed.

(** *** Load and store *)

(** [int16_t offset = instruction & 0xFFFF] is the low half-word read as a
    signed number. *)
Lemma to_int16_low_half (instruction : Z) :
  let imm := Z.land instruction 0xFFFF in
  to_int16 imm = if imm <? 2^15 then imm else imm - 2^16.
Proof.
  intros imm. unfold to_int16.
  assert (H : 0 <= imm <= 0xFFFF) by (apply land_mask_range; lia).
  rewrite Z.mod_small by lia. reflexivity.
Qed.

Lemma write_word_set_state (s : CPUState) (m : Machine) (a v : Z) :
  write_word a v (set_state s m) = set_state s (write_word a v m).
Proof.
  unfold write_word. cbn [memory set_state framebuffer set_memory].
  repeat match goal with |- context [if ?c then _ else _] => destruct c end;
    reflexivity.
Qed.

(** C10.  LWZ (opcode 0x20) and STW (opcode 0x24) take the base register
    from bits 16-20 and the offset from the low 16 bits, sign-extended.
    When the base field is 0 the effective address is the sign-extended
    offset alone (mod 2^32), whatever GPR[0] holds; otherwise it is
    GPR[ra] plus the sign-extended offset (mod 2^32).  Everywhere else
    register 0 is a register like the others: ADD, ADDI and ADDIS read
    GPR[0] when a source field is 0 and write GPR[0] when the destination
    field is 0, LWZ writes GPR[0] when its target field is 0, STW stores
    GPR[0] when its source field is 0, and every instruction word that does
    not name register 0 as its destination leaves GPR[0] as it is. *)
Theorem load_store_effective_address (instruction : Z) (m : Machine) :
  let rs := field_21 instruction in
  let ra := field_16 instruction in
  let imm := Z.land instruction 0xFFFF in
  let d := if imm <? 2^15 then imm else imm - 2^16 in
  let m' := execute_instruction instruction m in
  (opcode_of instruction = 0x20 ->
     (ra = 0 -> gpr (state m') rs = read_word m (d mod 2^32))
     /\ (ra <> 0 ->
         gpr (state m') rs = read_word m ((gpr (state m) ra + d) mod 2^32))
     /\ (forall r, r <> rs -> gpr (state m') r = gpr (state m) r))
  /\ (opcode_of instruction = 0x24 ->
      (ra = 0 -> memory m' = memory (write_word (d mod 2^32) (gpr (state m) rs) m))
      /\ (ra <> 0 ->
          memory m' = memory (write_word ((gpr (state m) ra + d) mod 2^32)
                                         (gpr (state m) rs) m))
      /\ gpr (state m') = gpr (state m))
  /\ (opcode_of instruction = 0x18 ->
      gpr (state m') (field_11 instruction)
      = (gpr (state m) (field_21 instruction)
         + gpr (state m) (field_16 instruction)) mod 2^32
      /\ (forall r, r <> field_11 instruction ->
                    gpr (state m') r = gpr (state m) r))
  /\ (opcode_of instruction = 0x19 ->
      gpr (state m') (field_16 instruction)
      = (gpr (state m) (field_21 instruction) + d) mod 2^32
      /\ (forall r, r <> field_16 instruction ->
                    gpr (state m') r = gpr (state m) r))
  /\ (opcode_of instruction = 0x1C ->
      gpr (state m') (field_16 instruction)
      = (gpr (state m) (field_21 instruction) + d * 2^16) mod 2^32
      /\ (forall r, r <> field_16 instruction ->
                    gpr (state m') r = gpr (state m) r))
  /\ (written_gpr instruction <> Some 0 ->
      gpr (state m') 0 = gpr (state m) 0).
Proof.
  intros rs ra imm d m'. subst m'.
  assert (Hd : to_int16 (Z.land instruction 0xFFFF) = d)
    by apply to_int16_low_half.
  split; [|split; [|split; [|split; [|split]]]]; intros Hop;
    [| | | | |now apply gpr_frame].
  - rewrite (execute_lwz instruction m Hop), Hd. fold rs ra.
    cbn [state set_state advance_pc set_pc set_gpr gpr].
    rewrite upd_same. unfold effective_address, wrap32.
    split; [|split].
    + intros Hra. rewrite Hra. reflexivity.
    + intros Hra. apply Z.eqb_neq in Hra. rewrite Hra. reflexivity.
    + intros r Hr. now apply upd_other.
  - rewrite (execute_stw instruction m Hop), Hd. fold rs ra. cbv zeta.
    unfold tick. rewrite write_word_set_state.
    cbn [state set_state advance_pc set_pc memory gpr set_cycle_count].
    unfold effective_address, wrap32.
    split; [|split].
    + intros Hra. rewrite Hra. reflexivity.
    + intros Hra. apply Z.eqb_neq in Hra. rewrite Hra. reflexivity.
    + reflexivity.
  - rewrite (execute_add instruction m Hop).
    cbn [state set_state advance_pc set_pc set_gpr gpr].
    split; [apply upd_same | intros r Hr; now apply upd_other].
  - rewrite (execute_addi instruction m Hop), Hd.
    cbn [state set_state advance_pc set_pc set_gpr gpr].
    split; [apply upd_same | intros r Hr; now apply upd_other].
  - rewrite (execute_addis instruction m Hop), Hd.
    cbn [state set_state advance_pc set_pc set_gpr gpr].
    rewrite Z.shiftl_mul_pow2 by lia.
    split; [apply upd_same | intros r Hr; now apply upd_other].
Qed.

Lemma load_store_effective_address_witness :
  let m := Examples.lwz_machine in
  gpr (state m) 0 = 0x1000
  /\ gpr (state (execute_instruction Examples.lwz_r3_8_r0 m)) 3 = 0xAAAA0008
  /\ gpr (state (execute_instruction Examples.lwz_r3_m4_r1 m)) 3 = 0xCCCC0100
  /\ read_word (execute_instruction Examples.stw_r3_8_r0 m) 0x8 = 0x33333333
  /\ gpr (state (execute_instruction Examples.addi_r0_r0_1 m)) 0 = 0x1001.
Proof.
  intros m.
  split; [reflexivity|].
  split.
  { destruct (load_store_effective_address Examples.lwz_r3_8_r0 m)
      as (Hlwz & _).
    destruct (Hlwz eq_refl) as (H0 & _).
    exact (H0 eq_refl). }
  split.
  { destruct (load_store_effective_address Examples.lwz_r3_m4_r1 m)
      as (Hlwz & _).
    destruct (Hlwz eq_refl) as (_ & Hn & _).
    apply Hn. discriminate. }
  split.
  { destruct (load_store_effective_address Examples.stw_r3_8_r0 m)
      as (_ & Hstw & _).
    destruct (Hstw eq_refl) as (H0 & _).
    unfold read_word. rewrite (H0 eq_refl). reflexivity. }
  destruct (load_store_effective_address Examples.addi_r0_r0_1 m)
    as (_ & _ & _ & Haddi & _).
  destruct (Haddi eq_refl) as (Hv & _). exact Hv.
Defined.

(** *** The unconditional branch *)

(** [static_cast<int32_t>(raw_offset << 2) >> 2] gives [raw_offset] back: the
    26-bit field shifted left by two has bit 31 clear, so the arithmetic
    shift right has no sign to extend. *)
Lemma branch_offset_is_raw (instruction : Z) :
  let raw_offset := Z.land instruction 0x03FFFFFF in
  Z.shiftr (to_int32 (wrap32 (Z.shiftl raw_offset 2))) 2 = raw_offset.
Proof.
  intros raw_offset.
  assert (H : 0 <= raw_offset <= 0x03FFFFFF) by (apply land_mask_range; lia).
  rewrite Z.shiftl_mul_pow2 by lia.
  rewrite wrap32_small by lia.
  unfold to_int32. rewrite Z.mod_small by lia.
  destruct (Z.ltb_spec (raw_offset * 2^2) (2^31)) as [_|Hge]; [|lia].
  rewrite Z.shiftr_div_pow2 by lia.
  apply Z.div_mul. lia.
Qed.

Lemma execute_branch_relative (instruction : Z) (m : Machine) :
  opcode_of instruction = 0x12 ->
  Z.land instruction 0x2 = 0 ->
  pc (state (execute_instruction instruction m))
  = (pc (state m) + Z.land instruction 0x03FFFFFF) mod 2^32.
Proof.
  intros Hop Hrel.
  rewrite (execute_branch instruction m Hop). cbv zeta.
  rewrite Hrel, branch_offset_is_raw. cbn [Z.eqb negb].
  destruct (negb (Z.land instruction 1 =? 0)); reflexivity.
Qed.

(** The link half of the branch: with bit 0 set, spr[8] receives pc + 4. *)
Lemma execute_branch_link (instruction : Z) (m : Machine) :
  opcode_of instruction = 0x12 ->
  Z.land instruction 0x1 <> 0 ->
  spr (state (execute_instruction instruction m)) 8
  = (pc (state m) + 4) mod 2^32.
Proof.
  intros Hop Hlink.
  rewrite (execute_branch instruction m Hop). cbv zeta.
  apply Z.eqb_neq in Hlink. rewrite Hlink. cbn [negb].
  destruct (negb (Z.land instruction 2 =? 0));
    cbn [state set_state set_pc set_spr spr tick set_cycle_count pc];
    apply upd_same.
Qed.

(** With both flag bits clear the raw field is the spec's field. *)
Lemma raw_offset_flags_clear (instruction : Z) :
  Z.land instruction 0x3 = 0 ->
  Z.land instruction 0x03FFFFFF = Z.land instruction 0x03FFFFFC.
Proof.
  intros Hflags.
  apply Z.bits_inj'. intros n Hn.
  rewrite !Z.land_spec.
  destruct (Z.lt_ge_cases n 2) as [Hlt|Hge].
  - assert (Hb : Z.testbit instruction n = false).
    { assert (Hx : Z.testbit (Z.land instruction 3) n = false)
        by (rewrite Hflags; apply Z.bits_0).
      rewrite Z.land_spec in Hx.
      assert (Hc : Z.testbit 3 n = true).
      { assert (n = 0 \/ n = 1) as [->| ->] by lia; reflexivity. }
      now rewrite Hc, andb_true_r in Hx. }
    now rewrite Hb.
  - f_equal.
    change 0x03FFFFFF with (Z.ones 26).
    change 0x03FFFFFC with (Z.shiftl (Z.ones 24) 2).
    rewrite Z.shiftl_spec by lia.
    rewrite !Z.testbit_ones_nonneg by lia.
    destruct (Z.ltb_spec n 26), (Z.ltb_spec (n - 2) 24); (reflexivity || lia).
Qed.

(** Where the claimed behaviour is there: flags clear and a displacement
    that is not negative. *)
Lemma branch_forward (instruction : Z) (m : Machine) :
  opcode_of instruction = 0x12 ->
  Z.land instruction 0x3 = 0 ->
  0 <= spec_displacement instruction ->
  pc (state (execute_instruction instruction m))
  = (pc (state m) + spec_displacement instruction) mod 2^32.
Proof.
  intros Hop Hflags Hpos.
  assert (Hrel : Z.land instruction 0x2 = 0).
  { apply Z.bits_inj'. intros n Hn.
    rewrite Z.land_spec, Z.bits_0.
    assert (Hx : Z.testbit (Z.land instruction 3) n = false)
      by (rewrite Hflags; apply Z.bits_0).
    rewrite Z.land_spec in Hx.
    destruct (Z.eq_dec n 1) as [->|Hne].
    - change (Z.testbit 3 1) with true in Hx. rewrite andb_true_r in Hx.
      now rewrite Hx.
    - assert (Hc : Z.testbit 2 n = false).
      { change 2 with (2^1). apply Z.pow2_bits_false. lia. }
      now rewrite Hc, andb_false_r. }
  rewrite (execute_branch_relative instruction m Hop Hrel).
  rewrite (raw_offset_flags_clear instruction Hflags).
  unfold spec_displacement in *.
  assert (H : 0 <= Z.land instruction 0x03FFFFFC <= 0x03FFFFFC)
    by (apply land_mask_range; lia).
  destruct (Z.ltb_spec (Z.land instruction 0x03FFFFFC) (2^25)); [reflexivity|lia].
Qed.

(** C3 (on the code).  The word 0x4BFFFFFC is an unconditional branch with
    link and absolute bits clear whose 26-bit field encodes the displacement
    -4.  Executed at any pc it adds 0x03FFFFFC instead; from 0x80000010 the
    new pc is 0x8400000C, where pc + d would be 0x8000000C. *)
Theorem backward_branch_goes_forward :
  opcode_of Examples.b_minus_4 = 0x12
  /\ Z.land Examples.b_minus_4 0x3 = 0
  /\ spec_displacement Examples.b_minus_4 = -4
  /\ (forall m, pc (state (execute_instruction Examples.b_minus_4 m))
                = (pc (state m) + 0x03FFFFFC) mod 2^32)
  /\ pc (state Examples.branch_machine) = 0x80000010
  /\ pc (state (execute_instruction Examples.b_minus_4 Examples.branch_machine))
     = 0x8400000C
  /\ (pc (state Examples.branch_machine)
      + spec_displacement Examples.b_minus_4) mod 2^32 = 0x8000000C.
Proof.
  split; [reflexivity|]. split; [reflexivity|]. split; [reflexivity|].
  split.
  - intros m. now rewrite execute_branch_relative.
  - repeat split.
Qed.

(** *** The Starlet mailbox *)

Lemma trigger_interrupt_frame (interrupt_type : Z) (m : Machine) :
  let m' := trigger_interrupt interrupt_type m in
  memory m' = memory m
  /\ framebuffer m' = framebuffer m
  /\ starlet_memory m' = starlet_memory m
  /\ interrupt_vectors m' = interrupt_vectors m
  /\ audio_state m' = audio_state m
  /\ trigger_calls m' = trigger_calls m ++ [interrupt_type].
Proof.
  unfold trigger_interrupt. cbn [state set_trigger_calls].
  destruct (interrupts_enabled (state m)); repeat split.
Qed.

Lemma read_word_memory (m1 m2 : Machine) (a : Z) :
  memory m1 = memory m2 -> read_word m1 a = read_word m2 a.
Proof. intros H. unfold read_word. now rewrite H. Qed.

Lemma transfer_loop_S (fuel : nat) (i size src_addr dest_addr : Z) (m : Machine) :
  transfer_loop (S fuel) i size src_addr dest_addr m
  = if i <? size then
      transfer_loop fuel (wrap32 (i + 4)) size src_addr dest_addr
                    (transfer_round src_addr dest_addr i m)
    else Some m.
Proof. reflexivity. Qed.

(** With byte count 16 the loop makes four rounds, at 0, 4, 8 and 12, and
    five units of fuel are enough. *)
Lemma transfer_loop_16 (fuel : nat) (src_addr dest_addr : Z) (m : Machine) :
  (5 <= fuel)%nat ->
  transfer_loop fuel 0 16 src_addr dest_addr m
  = Some (transfer_round src_addr dest_addr 12
            (transfer_round src_addr dest_addr 8
               (transfer_round src_addr dest_addr 4
                  (transfer_round src_addr dest_addr 0 m)))).
Proof.
  intros Hfuel.
  do 5 (destruct fuel as [|fuel]; [lia|]).
  rewrite transfer_loop_S. change (0 <? 16) with true. cbv iota.
  change (wrap32 (0 + 4)) with 4.
  rewrite transfer_loop_S. change (4 <? 16) with true. cbv iota.
  change (wrap32 (4 + 4)) with 8.
  rewrite transfer_loop_S. change (8 <? 16) with true. cbv iota.
  change (wrap32 (8 + 4)) with 12.
  rewrite transfer_loop_S. change (12 <? 16) with true. cbv iota.
  change (wrap32 (12 + 4)) with 16.
  rewrite transfer_loop_S. change (16 <? 16) with false. cbv iota.
  reflexivity.
Qed.

Lemma transfer_round_frame (src_addr dest_addr i : Z) (m : Machine) :
  let m' := transfer_round src_addr dest_addr i m in
  state m' = state m
  /\ starlet_memory m' = starlet_memory m
  /\ interrupt_vectors m' = interrupt_vectors m
  /\ audio_state m' = audio_state m
  /\ trigger_calls m' = trigger_calls m.
Proof. unfold transfer_round. apply write_word_frame. Qed.

(** Four rounds in a row, on any four source and destination addresses:
    when the destination words are mapped and no destination word overlaps
    a source word read later or a destination word written later, each
    destination word ends up with the old content of its source word. *)
Lemma four_rounds (m : Machine) (a0 a1 a2 a3 b0 b1 b2 b3 : Z) :
  let T := translate_address in
  let apart x y := x + 4 <= y \/ y + 4 <= x in
  let m1 := write_word b0 (read_word m a0) m in
  let m2 := write_word b1 (read_word m1 a1) m1 in
  let m3 := write_word b2 (read_word m2 a2) m2 in
  let m4 := write_word b3 (read_word m3 a3) m3 in
  T b0 + 3 < MEMORY_SIZE -> T b1 + 3 < MEMORY_SIZE ->
  T b2 + 3 < MEMORY_SIZE -> T b3 + 3 < MEMORY_SIZE ->
  apart (T b0) (T a1) -> apart (T b0) (T a2) -> apart (T b0) (T a3) ->
  apart (T b1) (T a2) -> apart (T b1) (T a3) -> apart (T b2) (T a3) ->
  apart (T b0) (T b1) -> apart (T b0) (T b2) -> apart (T b0) (T b3) ->
  apart (T b1) (T b2) -> apart (T b1) (T b3) -> apart (T b2) (T b3) ->
  read_word m4 b0 = read_word m a0
  /\ read_word m4 b1 = read_word m a1
  /\ read_word m4 b2 = read_word m a2
  /\ read_word m4 b3 = read_word m a3.
Proof.
  intros T apart m1 m2 m3 m4 I0 I1 I2 I3 D01 D02 D03 D12 D13 D23
         E01 E02 E03 E12 E13 E23.
  unfold apart, T in *.
  assert (R1 : read_word m1 a1 = read_word m a1)
    by (unfold m1; apply read_write_disjoint; lia).
  assert (R2 : read_word m2 a2 = read_word m a2).
  { unfold m2. rewrite read_write_disjoint by lia.
    unfold m1. apply read_write_disjoint; lia. }
  assert (R3 : read_word m3 a3 = read_word m a3).
  { unfold m3. rewrite read_write_disjoint by lia.
    unfold m2. rewrite read_write_disjoint by lia.
    unfold m1. apply read_write_disjoint; lia. }
  subst m4. rewrite R3. subst m3. rewrite R2. subst m2. rewrite R1. subst m1.
  repeat split.
  - do 3 (rewrite read_write_disjoint by lia).
    apply read_write_same; [lia | apply read_word_range].
  - do 2 (rewrite read_write_disjoint by lia).
    apply read_write_same; [lia | apply read_word_range].
  - rewrite read_write_disjoint by lia.
    apply read_write_same; [lia | apply read_word_range].
  - apply read_write_same; [lia | apply read_word_range].
Qed.

(** The state in which [handle_starlet_command] leaves a pending command 3
    or 4 whose parameter block gives the byte count 16. *)
Lemma handle_block_copy_16 (fuel : nat) (m : Machine) :
  let sm := starlet_memory m in
  let src := read_word m (param_addr sm) in
  let dest := read_word m (wrap32 (param_addr sm + 4)) in
  let m4 := transfer_round src dest 12
              (transfer_round src dest 8
                 (transfer_round src dest 4 (transfer_round src dest 0 m))) in
  command sm = 0x03 \/ command sm = 0x04 ->
  read_word m (wrap32 (param_addr sm + 8)) = 16 ->
  (5 <= fuel)%nat ->
  handle_starlet_command fuel m
  = Some (true,
          trigger_interrupt 1
            (set_starlet_memory
               (mkStarletMemory 0 0x00 (param_addr sm) (result_addr sm) 0x01) m4)).
Proof.
  intros sm src dest m4 Hcmd Hsize Hfuel.
  assert (Hsm4 : starlet_memory m4 = sm).
  { unfold m4.
    repeat match goal with
           | |- starlet_memory (transfer_round ?s ?d ?i ?x) = _ =>
               destruct (transfer_round_frame s d i x) as (_ & -> & _)
           end.
    reflexivity. }
  assert (Hdispatch : starlet_dispatch fuel m
                      = Some (set_starlet_memory (set_response 0x00 sm) m4)).
  { unfold starlet_dispatch. fold sm.
    destruct Hcmd as [Hc|Hc]; rewrite Hc; simpl (_ =? _); cbn [orb];
      fold src dest; rewrite Hsize, (transfer_loop_16 fuel src dest m Hfuel);
      fold m4; rewrite Hsm4; reflexivity. }
  unfold handle_starlet_command. fold sm.
  assert (Hpending : negb (command sm =? 0) = true)
    by (destruct Hcmd as [Hc|Hc]; rewrite Hc; reflexivity).
  rewrite Hpending, Hdispatch. reflexivity.
Qed.

Lemma word_index_cases (i : Z) :
  0 <= i < 16 -> i mod 4 = 0 -> i = 0 \/ i = 4 \/ i = 8 \/ i = 12.
Proof. intros Hi Hmod. Z.div_mod_to_equations. lia. Qed.

(** Translation keeps the low 20 bits of an address: every window starts
    at a multiple of 2^20 and the mask has its low 23 bits set. *)
Lemma translate_address_low_bits (v : Z) :
  translate_address v mod 2^20 = v mod 2^20.
Proof.
  assert (Hmask : forall y, Z.land y MEM_MASK mod 2^20 = y mod 2^20).
  { intros y. rewrite <- !Z.land_ones by lia.
    rewrite <- Z.land_assoc. reflexivity. }
  unfold translate_address, RAM_START, HARDWARE_REGS_START, STARLET_MEM_START.
  repeat match goal with |- context [if ?c then _ else _] => destruct c end;
    rewrite Hmask; try reflexivity.
  - replace (v - 0x80000000) with (v + (-2048) * 2^20) by lia.
    apply Z_mod_plus_full.
  - replace (0x1000000 + (v - 0xCC000000)) with (v + (-3248) * 2^20) by lia.
    apply Z_mod_plus_full.
  - replace (0x1100000 + (v - 0xCD000000)) with (v + (-3263) * 2^20) by lia.
    apply Z_mod_plus_full.
Qed.

(** Two words of one block, a multiple of 4 below 2^20 apart, never overlap
    after translation. *)
Lemma block_words_apart (base i j : Z) :
  0 <= i < j -> j < 2^20 - 3 -> i mod 4 = 0 -> j mod 4 = 0 ->
  translate_address (wrap32 (base + i)) + 4 <= translate_address (wrap32 (base + j))
  \/ translate_address (wrap32 (base + j)) + 4 <= translate_address (wrap32 (base + i)).
Proof.
  intros Hij Hj Hi4 Hj4.
  pose proof (translate_address_low_bits (wrap32 (base + i))) as Ei.
  pose proof (translate_address_low_bits (wrap32 (base + j))) as Ej.
  unfold wrap32 in *.
  rewrite Z.mod_mod_divide in Ei, Ej by (exists (2^12); reflexivity).
  set (ti := translate_address ((base + i) mod 2^32)) in *.
  set (tj := translate_address ((base + j) mod 2^32)) in *.
  clearbody ti tj.
  Z.div_mod_to_equations. lia.
Qed.

(** C4 (amended).  A pending block copy (command 3 or 4) whose parameter
    block gives the byte count 16, whose four destination words are mapped,
    and none of whose destination words overlaps a source word that is read
    in a later round: the poll ends with every destination word holding
    what its source word held, no byte outside the sixteen destination
    bytes changed, response = 0 (success), status = 1 (completed),
    command = 0, and exactly one more call of [trigger_interrupt], with
    type 1. *)
Theorem block_copy_16 (fuel : nat) (m : Machine) :
  let sm := starlet_memory m in
  let src := read_word m (param_addr sm) in
  let dest := read_word m (wrap32 (param_addr sm + 4)) in
  let P := fun k => translate_address (wrap32 (src + 4 * k)) in
  let Q := fun k => translate_address (wrap32 (dest + 4 * k)) in
  command sm = 0x03 \/ command sm = 0x04 ->
  read_word m (wrap32 (param_addr sm + 8)) = 16 ->
  (forall k, 0 <= k < 4 -> Q k + 3 < MEMORY_SIZE) ->
  (forall j k, 0 <= j < k -> k < 4 -> Q j + 4 <= P k \/ P k + 4 <= Q j) ->
  (5 <= fuel)%nat ->
  exists m',
    handle_starlet_command fuel m = Some (true, m')
    /\ block_copied m m' src dest 16
    /\ (forall p, (forall k, 0 <= k < 4 -> p < Q k \/ Q k + 3 < p) ->
                  memory m' p = memory m p)
    /\ response (starlet_memory m') = 0x00
    /\ status (starlet_memory m') = 0x01
    /\ command (starlet_memory m') = 0
    /\ param_addr (starlet_memory m') = param_addr sm
    /\ result_addr (starlet_memory m') = result_addr sm
    /\ trigger_calls m' = trigger_calls m ++ [1].
Proof.
  intros sm src dest P Q Hcmd Hsize Hin Hapart Hfuel.
  rewrite (handle_block_copy_16 fuel m Hcmd Hsize Hfuel). fold sm src dest.
  set (m4 := transfer_round src dest 12
               (transfer_round src dest 8
                  (transfer_round src dest 4 (transfer_round src dest 0 m)))).
  set (m5 := set_starlet_memory
               (mkStarletMemory 0 0 (param_addr sm) (result_addr sm) 1) m4).
  eexists. split; [reflexivity|].
  destruct (trigger_interrupt_frame 1 m5) as (Hmem & _ & Hsm & _ & _ & Hcalls).
  assert (Hmem4 : memory (trigger_interrupt 1 m5) = memory m4) by exact Hmem.
  pose proof (Hin 0 ltac:(lia)) as I0. pose proof (Hin 1 ltac:(lia)) as I1.
  pose proof (Hin 2 ltac:(lia)) as I2. pose proof (Hin 3 ltac:(lia)) as I3.
  pose proof (Hapart 0 1 ltac:(lia) ltac:(lia)) as D01.
  pose proof (Hapart 0 2 ltac:(lia) ltac:(lia)) as D02.
  pose proof (Hapart 0 3 ltac:(lia) ltac:(lia)) as D03.
  pose proof (Hapart 1 2 ltac:(lia) ltac:(lia)) as D12.
  pose proof (Hapart 1 3 ltac:(lia) ltac:(lia)) as D13.
  pose proof (Hapart 2 3 ltac:(lia) ltac:(lia)) as D23.
  pose proof (block_words_apart dest 0 4) as E01.
  pose proof (block_words_apart dest 0 8) as E02.
  pose proof (block_words_apart dest 0 12) as E03.
  pose proof (block_words_apart dest 4 8) as E12.
  pose proof (block_words_apart dest 4 12) as E13.
  pose proof (block_words_apart dest 8 12) as E23.
  specialize (E01 ltac:(lia) ltac:(lia) eq_refl eq_refl).
  specialize (E02 ltac:(lia) ltac:(lia) eq_refl eq_refl).
  specialize (E03 ltac:(lia) ltac:(lia) eq_refl eq_refl).
  specialize (E12 ltac:(lia) ltac:(lia) eq_refl eq_refl).
  specialize (E13 ltac:(lia) ltac:(lia) eq_refl eq_refl).
  specialize (E23 ltac:(lia) ltac:(lia) eq_refl eq_refl).
  unfold P, Q in *.
  change (4 * 0) with 0 in *. change (4 * 1) with 4 in *.
  change (4 * 2) with 8 in *. change (4 * 3) with 12 in *.
  split.
  { (* the four words *)
    destruct (four_rounds m
                (wrap32 (src + 0)) (wrap32 (src + 4))
                (wrap32 (src + 8)) (wrap32 (src + 12))
                (wrap32 (dest + 0)) (wrap32 (dest + 4))
                (wrap32 (dest + 8)) (wrap32 (dest + 12)))
      as (R0 & R1 & R2 & R3); try assumption.
    intros i Hi Hmod.
    rewrite (read_word_memory _ m4 _ Hmem4).
    destruct (word_index_cases i Hi Hmod) as [->|[->|[->| ->]]]; assumption. }
  split.
  { (* the frame *)
    intros p Hp. rewrite Hmem4.
    pose proof (Hp 0 ltac:(lia)) as F0. pose proof (Hp 1 ltac:(lia)) as F1.
    pose proof (Hp 2 ltac:(lia)) as F2. pose proof (Hp 3 ltac:(lia)) as F3.
    cbv beta in F0, F1, F2, F3.
    change (4 * 0) with 0 in *. change (4 * 1) with 4 in *.
    change (4 * 2) with 8 in *. change (4 * 3) with 12 in *.
    unfold m4, transfer_round.
    now rewrite !memory_write_word_other by assumption. }
  rewrite Hsm, Hcalls.
  assert (Hc4 : trigger_calls m4 = trigger_calls m).
  { unfold m4.
    repeat match goal with
           | |- trigger_calls (transfer_round ?s ?d ?i ?x) = _ =>
               destruct (transfer_round_frame s d i x) as (_ & _ & _ & _ & ->)
           end.
    reflexivity. }
  cbn [m5 starlet_memory set_starlet_memory response status command
       param_addr result_addr trigger_calls].
  rewrite Hc4. repeat split.
Qed.

Lemma block_copy_16_witness :
  exists m',
    handle_starlet_command 5 Examples.disjoint_copy = Some (true, m')
    /\ read_word m' 0x80000200 = 0x11111111
    /\ read_word m' 0x80000204 = 0x22222222
    /\ read_word m' 0x80000208 = 0x33333333
    /\ read_word m' 0x8000020C = 0x44444444
    /\ response (starlet_memory m') = 0
    /\ status (starlet_memory m') = 1
    /\ command (starlet_memory m') = 0
    /\ trigger_calls m' = [1].
Proof.
  destruct (block_copy_16 5 Examples.disjoint_copy)
    as (m' & Hrun & Hcopy & _ & Hresp & Hstat & Hcmd & _ & _ & Hcalls).
  - left. reflexivity.
  - reflexivity.
  - intros k Hk.
    assert (k = 0 \/ k = 1 \/ k = 2 \/ k = 3) as [->|[->|[->| ->]]] by lia;
      reflexivity.
  - intros j k Hj Hk.
    assert ((j = 0 /\ (k = 1 \/ k = 2 \/ k = 3))
            \/ (j = 1 /\ (k = 2 \/ k = 3)) \/ (j = 2 /\ k = 3))
      as [[-> [->|[->| ->]]]|[[-> [->| ->]]|[-> ->]]] by lia;
      (right; vm_compute; discriminate).
  - apply le_n.
  - exists m'. split; [exact Hrun|].
    split; [exact (Hcopy 0 ltac:(lia) eq_refl)|].
    split; [exact (Hcopy 4 ltac:(lia) eq_refl)|].
    split; [exact (Hcopy 8 ltac:(lia) eq_refl)|].
    split; [exact (Hcopy 12 ltac:(lia) eq_refl)|].
    split; [exact Hresp|]. split; [exact Hstat|]. split; [exact Hcmd|].
    exact Hcalls.
Defined.

(** C4 as stated fails when the destination overlaps the source.  With
    source 0x80000100, destination 0x80000104 and byte count 16 the first
    round overwrites the second source word before it is read: afterwards
    the destination word at 0x80000108 holds the first source word
    0x11111111, not the second source word 0x22222222. *)
Lemma block_copy_overlap_counterexample :
  command (starlet_memory Examples.overlap_copy) = 0x03
  /\ read_word Examples.overlap_copy
               (param_addr (starlet_memory Examples.overlap_copy)) = 0x80000100
  /\ read_word Examples.overlap_copy
               (wrap32 (param_addr (starlet_memory Examples.overlap_copy) + 4))
     = 0x80000104
  /\ read_word Examples.overlap_copy
               (wrap32 (param_addr (starlet_memory Examples.overlap_copy) + 8))
     = 16
  /\ exists m',
      handle_starlet_command 5 Examples.overlap_copy = Some (true, m')
      /\ read_word Examples.overlap_copy 0x80000104 = 0x22222222
      /\ read_word m' 0x80000108 = 0x11111111
      /\ ~ block_copied Examples.overlap_copy m' 0x80000100 0x80000104 16.
Proof.
  set (m := Examples.overlap_copy).
  split; [reflexivity|]. split; [reflexivity|]. split; [reflexivity|].
  split; [reflexivity|].
  rewrite (handle_block_copy_16 5 m (or_introl eq_refl) eq_refl (le_n 5)).
  eexists. split; [reflexivity|].
  split; [reflexivity|]. split; [vm_compute; reflexivity|].
  intros Hcopy.
  specialize (Hcopy 4 ltac:(lia) eq_refl).
  vm_compute in Hcopy. discriminate Hcopy.
Qed.

(** The other way the copy can fall short: a destination word that is not
    mapped is not written.  With destination 0x057FFFF1 the fourth word
    would end past the buffer; it reads 0 afterwards, not the fourth source
    word. *)
Lemma block_copy_unmapped_destination :
  translate_address (wrap32 (Examples.unmapped_destination + 12)) + 3 >= MEMORY_SIZE
  /\ exists m',
      handle_starlet_command 5 Examples.unmapped_copy = Some (true, m')
      /\ read_word Examples.unmapped_copy 0x8000010C = 0x44444444
      /\ read_word m' (wrap32 (Examples.unmapped_destination + 12)) = 0
      /\ response (starlet_memory m') = 0.
Proof.
  split; [vm_compute; discriminate|].
  rewrite (handle_block_copy_16 5 Examples.unmapped_copy
             (or_introl eq_refl) eq_refl (le_n 5)).
  eexists. split; [reflexivity|].
  split; [reflexivity|]. split; [vm_compute; reflexivity|].
  vm_compute. reflexivity.
Qed.

End EmuWiiV1Facts.

(** ** src/wiiemu.cpp *)

Module WiiEmuFacts.
Import WiiEmu.

Lemma execute_unrecognized (instruction : Z) (m : Machine) :
  recognized (opcode_of instruction) = false ->
  execute_instruction instruction m = set_state (set_running false (state m)) m.
Proof.
  unfold recognized, execute_instruction. intros H.
  destruct (opcode_of instruction =? 24); [discriminate|].
  destruct (opcode_of instruction =? 18); [discriminate|].
  destruct (opcode_of instruction =? 60); [discriminate|].
  reflexivity.
Qed.

Lemma trigger_without_effect (interrupt_type : Z) (m : Machine) :
  interrupts_enabled (state m) = false -> trigger_interrupt interrupt_type m = m.
Proof. intros H. unfold trigger_interrupt. now rewrite H. Qed.

(** The loop does nothing once [running] is false. *)
Lemma emulation_loop_stopped (n : nat) (m : Machine) :
  running (state m) = false -> emulation_loop n m = m.
Proof. intros H. destruct n as [|n]; [reflexivity|]. cbn. now rewrite H. Qed.

(** C2.  In the draft whose policy for an unknown opcode is to halt, a
    fetched word whose opcode has no [case] makes [execute_instruction] set
    [running] to false and nothing else: pc, the general, floating and
    special registers, the two other flags, memory and the mailbox are as
    before.  With an idle mailbox the rest of the round of the emulation
    loop adds nothing, and the loop, however long it is allowed to run,
    stops in that state; with a pending command but interrupts disabled the
    round still leaves the CPU state and memory there. *)
Theorem unknown_opcode_halts (m : Machine)
        (Hunknown : recognized (opcode_of (fetch_instruction m)) = false) :
  let m1 := execute_instruction (fetch_instruction m) m in
  running (state m1) = false
  /\ pc (state m1) = pc (state m)
  /\ gpr (state m1) = gpr (state m)
  /\ fpr (state m1) = fpr (state m)
  /\ spr (state m1) = spr (state m)
  /\ interrupts_enabled (state m1) = interrupts_enabled (state m)
  /\ kernel_mode (state m1) = kernel_mode (state m)
  /\ memory m1 = memory m
  /\ starlet_memory m1 = starlet_memory m
  /\ (command (starlet_memory m) = 0 -> emulation_step m = m1)
  /\ (command (starlet_memory m) = 0 -> running (state m) = true ->
      forall n, emulation_loop (S n) m = m1)
  /\ (interrupts_enabled (state m) = false ->
      state (emulation_step m) = state m1
      /\ memory (emulation_step m) = memory m).
Proof.
  intros m1. subst m1.
  assert (Hstep : command (starlet_memory m) = 0 ->
                  emulation_step m = set_state (set_running false (state m)) m).
  { intros Hidle. unfold emulation_step.
    rewrite (execute_unrecognized _ m Hunknown).
    unfold handle_starlet_command.
    cbn [starlet_memory set_state]. now rewrite Hidle. }
  rewrite (execute_unrecognized _ m Hunknown).
  do 9 (split; [reflexivity|]).
  split; [exact Hstep|].
  split.
  - intros Hidle Hrun n. cbn [emulation_loop]. rewrite Hrun, (Hstep Hidle).
    now apply emulation_loop_stopped.
  - intros Hdis. unfold emulation_step.
    rewrite (execute_unrecognized _ m Hunknown).
    unfold handle_starlet_command.
    cbn [starlet_memory set_state].
    destruct (negb (command (starlet_memory m) =? 0)); [|split; reflexivity].
    cbn [snd]. rewrite trigger_without_effect by exact Hdis.
    split; reflexivity.
Qed.

Lemma unknown_opcode_halts_witness :
  let m := Examples.wiiemu_blank in
  recognized (opcode_of (fetch_instruction m)) = false
  /\ running (state m) = true
  /\ running (state (emulation_step m)) = false
  /\ pc (state (emulation_step m)) = pc (state m)
  /\ emulation_loop 10 m = execute_instruction (fetch_instruction m) m.
Proof.
  intros m.
  assert (Hunknown : recognized (opcode_of (fetch_instruction m)) = false)
    by reflexivity.
  destruct (unknown_opcode_halts m Hunknown)
    as (Hrun & Hpc & _ & _ & _ & _ & _ & _ & _ & Hidle & Hloop & _).
  split; [exact Hunknown|]. split; [reflexivity|].
  rewrite (Hidle eq_refl). split; [exact Hrun|]. split; [exact Hpc|].
  exact (Hloop eq_refl eq_refl 9%nat).
Defined.

End WiiEmuFacts.

(** ** src/emuwiiv0.cpp: the [Memory] class *)

Module EmuWiiV0Facts.
Import EmuWiiV0.

Lemma mem1_offset_alias (x : Z) :
  mem1_offset (0x80000000 + x) = mem1_offset (0xC0000000 + x).
Proof.
  unfold mem1_offset.
  rewrite (land_mask_mod (0x80000000 + x) _ 25),
          (land_mask_mod (0xC0000000 + x) _ 25)
    by (unfold MEM1_SIZE; lia).
  f_equal.
  change 0x80000000 with (64 * 2^25). change 0xC0000000 with (96 * 2^25).
  rewrite (Z.add_comm (64 * 2^25)), (Z.add_comm (96 * 2^25)).
  now rewrite !Z_mod_plus_full.
Qed.

Lemma in_mem1_window_low (x : Z) :
  0 <= x < MEM1_SIZE -> in_mem1_window (0x80000000 + x) = true.
Proof.
  unfold in_mem1_window, MEM1_SIZE. intros H.
  apply orb_true_iff. left. apply andb_true_iff.
  split; [apply Z.leb_le | apply Z.ltb_lt]; lia.
Qed.

Lemma in_mem1_window_high (x : Z) :
  0 <= x < MEM1_SIZE -> in_mem1_window (0xC0000000 + x) = true.
Proof.
  unfold in_mem1_window, MEM1_SIZE. intros H.
  apply orb_true_iff. right. apply andb_true_iff.
  split; [apply Z.leb_le | apply Z.ltb_lt]; lia.
Qed.

(** Reading after a write, through any two addresses of the MEM1 windows
    that share their offset. *)
Lemma read32_write32_mem1 (m : Memory) (a b v : Z) :
  in_mem1_window a = true -> in_mem1_window b = true ->
  mem1_offset a = mem1_offset b ->
  read32 (write32 a v m) b
  = if mem1_offset a + 3 <? MEM1_SIZE then big_endian
        (store_big_endian (mem1 m) (mem1_offset a) v) (mem1_offset a)
    else 0.
Proof.
  intros Ha Hb Hoff. unfold read32, write32.
  rewrite Ha, Hb, <- Hoff.
  destruct (mem1_offset a + 3 <? MEM1_SIZE); reflexivity.
Qed.

(** C5 (amended).  For every offset [x] inside the first RAM window
    (0 <= x < MEM1_SIZE) the addresses 0x80000000 + x and 0xC0000000 + x
    fall in the two MEM1 windows and are masked to the same offset of
    [mem1]; a read through either window after a write through one of them
    returns the same value; and when the word fits the buffer (masked offset
    + 3 < MEM1_SIZE) that value is the 32-bit word written, in both
    directions. *)
Theorem mem1_windows_alias (x : Z) (Hx : 0 <= x < MEM1_SIZE) :
  in_mem1_window (0x80000000 + x) = true
  /\ in_mem1_window (0xC0000000 + x) = true
  /\ mem1_offset (0x80000000 + x) = mem1_offset (0xC0000000 + x)
  /\ (forall m v,
        read32 (write32 (0x80000000 + x) v m) (0xC0000000 + x)
        = read32 (write32 (0x80000000 + x) v m) (0x80000000 + x))
  /\ (mem1_offset (0x80000000 + x) + 3 < MEM1_SIZE ->
      forall m v, 0 <= v < 2^32 ->
        read32 (write32 (0x80000000 + x) v m) (0xC0000000 + x) = v
        /\ read32 (write32 (0xC0000000 + x) v m) (0x80000000 + x) = v).
Proof.
  pose proof (in_mem1_window_low x Hx) as Hlow.
  pose proof (in_mem1_window_high x Hx) as Hhigh.
  pose proof (mem1_offset_alias x) as Halias.
  split; [exact Hlow|]. split; [exact Hhigh|]. split; [exact Halias|].
  split.
  - intros m v.
    rewrite (read32_write32_mem1 m _ _ v Hlow Hhigh Halias).
    now rewrite (read32_write32_mem1 m _ _ v Hlow Hlow eq_refl).
  - intros Hfits m v Hv.
    rewrite (read32_write32_mem1 m _ _ v Hlow Hhigh Halias).
    rewrite (read32_write32_mem1 m _ _ v Hhigh Hlow (eq_sym Halias)).
    rewrite <- Halias.
    destruct (Z.ltb_spec (mem1_offset (0x80000000 + x) + 3) MEM1_SIZE); [|lia].
    split; now apply big_endian_store.
Qed.

Lemma mem1_windows_alias_witness :
  let x := 0x100 in
  0 <= x < MEM1_SIZE
  /\ mem1_offset (0x80000000 + x) + 3 < MEM1_SIZE
  /\ read32 (write32 (0x80000000 + x) 0xDEADBEEF Examples.fresh_memory)
            (0xC0000000 + x) = 0xDEADBEEF
  /\ read32 (write32 (0xC0000000 + x) 0xDEADBEEF Examples.fresh_memory)
            (0x80000000 + x) = 0xDEADBEEF.
Proof.
  intros x.
  assert (Hx : 0 <= x < MEM1_SIZE) by (split; [discriminate | reflexivity]).
  assert (Hfits : mem1_offset (0x80000000 + x) + 3 < MEM1_SIZE) by reflexivity.
  destruct (mem1_windows_alias x Hx) as (_ & _ & _ & _ & Hback).
  split; [exact Hx|]. split; [exact Hfits|].
  apply (Hback Hfits Examples.fresh_memory 0xDEADBEEF).
  split; [discriminate | reflexivity].
Defined.

(** C5 as stated fails at the end of the window.  The offset 0x17FFFFD is
    inside the window, but its word would end one byte past [mem1]: the
    write through the first window is dropped and the read through the
    second returns 0, not the word 1 that was written. *)
Lemma mem1_window_edge_counterexample :
  0 <= Examples.edge_offset < MEM1_SIZE
  /\ in_mem1_window (0x80000000 + Examples.edge_offset) = true
  /\ in_mem1_window (0xC0000000 + Examples.edge_offset) = true
  /\ mem1_offset (0x80000000 + Examples.edge_offset)
     = mem1_offset (0xC0000000 + Examples.edge_offset)
  /\ read32 (write32 (0x80000000 + Examples.edge_offset) 1 Examples.fresh_memory)
            (0xC0000000 + Examples.edge_offset) = 0
  /\ read32 (write32 (0x80000000 + Examples.edge_offset) 1 Examples.fresh_memory)
            (0xC0000000 + Examples.edge_offset) <> 1.
Proof.
  split; [split; [discriminate | reflexivity]|].
  do 4 (split; [reflexivity|]).
  discriminate.
Qed.

End EmuWiiV0Facts.


(** * Further properties *)

(** ** Masks *)

(** A mask leaves alone a value whose bits it covers. *)
Lemma land_covered (y mask k : Z) :
  0 <= k -> 0 <= y < 2^k -> Z.land (Z.ones k) mask = Z.ones k ->
  Z.land y mask = y.
Proof.
  intros Hk Hy Hcover.
  destruct (Z.eq_dec y 0) as [->|Hz]; [apply Z.land_0_l|].
  assert (Hlog : Z.log2 y < k) by (apply Z.log2_lt_pow2; lia).
  rewrite <- (Z.land_ones_low y k) at 1 by lia.
  rewrite <- Z.land_assoc, Hcover. apply Z.land_ones_low; lia.
Qed.

(** Adding a value below [2^k] to a multiple of [2^k] sets disjoint bits. *)
Lemma add_high_low (h x k : Z) :
  0 <= k -> 0 <= x < 2^k -> h * 2^k + x = Z.lor (h * 2^k) x.
Proof.
  intros Hk Hx.
  rewrite <- Z.add_lor_land.
  assert (Hdisj : Z.land (h * 2^k) x = 0).
  { apply Z.bits_inj'. intros n Hn.
    rewrite Z.land_spec, Z.bits_0.
    destruct (Z.lt_ge_cases n k) as [Hlt|Hge].
    - rewrite Z.mul_pow2_bits_low by lia. reflexivity.
    - assert (Hx0 : Z.testbit x n = false).
      { destruct (Z.eq_dec x 0) as [->|Hz]; [apply Z.bits_0|].
        apply Z.bits_above_log2; [lia|].
        apply Z.log2_lt_pow2; [lia|].
        assert (2^k <= 2^n) by (apply Z.pow_le_mono_r; lia). lia. }
      now rewrite Hx0, andb_false_r. }
  rewrite Hdisj. lia.
Qed.

(** [Z.land a (2^j)] is zero exactly when bit [j] of [a] is clear. *)
Lemma land_pow2_eqb (a j : Z) :
  0 <= j -> (Z.land a (2^j) =? 0) = negb (Z.testbit a j).
Proof.
  intros Hj.
  destruct (Z.testbit a j) eqn:Hb; cbn [negb].
  - apply Z.eqb_neq. intros H0.
    assert (Hx : Z.testbit (Z.land a (2^j)) j = false)
      by (rewrite H0; apply Z.bits_0).
    rewrite Z.land_spec, Hb, Z.pow2_bits_true in Hx by lia. discriminate.
  - apply Z.eqb_eq. apply Z.bits_inj'. intros n Hn.
    rewrite Z.land_spec, Z.bits_0.
    destruct (Z.eq_dec n j) as [->|Hne].
    + now rewrite Hb.
    + rewrite Z.pow2_bits_false by lia. apply andb_false_r.
Qed.

(** ** src/emuwiiv1.cpp: translation and memory *)

Module EmuWiiV1Memory.
Import EmuWiiV1 EmuWiiV1Facts.

Lemma mask_low (x : Z) : 0 <= x < 2^23 -> Z.land x MEM_MASK = x.
Proof. intros H. apply (land_covered x MEM_MASK 23); [lia | exact H | reflexivity]. Qed.

(** Bit 23 is not in the mask, bit 24 is. *)
Lemma mask_bit23 (x : Z) : 0 <= x < 2^23 -> Z.land (2^23 + x) MEM_MASK = x.
Proof.
  intros H.
  replace (2^23 + x) with (1 * 2^23 + x) by lia.
  rewrite (add_high_low 1 x 23) by lia.
  rewrite Z.land_lor_distr_l, (mask_low x) by exact H.
  reflexivity.
Qed.

Lemma mask_bit24 (x : Z) : 0 <= x < 2^23 -> Z.land (2^24 + x) MEM_MASK = 2^24 + x.
Proof.
  intros H.
  replace (2^24 + x) with (2 * 2^23 + x) at 1 by lia.
  rewrite (add_high_low 2 x 23) by lia.
  rewrite Z.land_lor_distr_l, (mask_low x) by exact H.
  change (Z.land (2 * 2^23) MEM_MASK) with (2 * 2^23).
  rewrite <- (add_high_low 2 x 23) by lia. lia.
Qed.

Lemma mask_bit24_bit23 (x : Z) :
  0 <= x < 2^23 -> Z.land (2^24 + 2^23 + x) MEM_MASK = 2^24 + x.
Proof.
  intros H.
  replace (2^24 + 2^23 + x) with (3 * 2^23 + x) by lia.
  rewrite (add_high_low 3 x 23) by lia.
  rewrite Z.land_lor_distr_l, (mask_low x) by exact H.
  change (Z.land (3 * 2^23) MEM_MASK) with (2 * 2^23).
  rewrite <- (add_high_low 2 x 23) by lia. lia.
Qed.

(** The branch of [translate_address] an address of the RAM window takes. *)
Lemma translate_ram (o : Z) :
  0 <= o <= 0x1FFFFFF -> translate_address (0x80000000 + o) = Z.land o MEM_MASK.
Proof.
  intros H. unfold translate_address, RAM_START, RAM_END.
  destruct (Z.leb_spec 0x80000000 (0x80000000 + o)); [|lia].
  destruct (Z.leb_spec (0x80000000 + o) 0x81FFFFFF); [|lia].
  cbn [andb]. f_equal. lia.
Qed.

Lemma translate_hardware (x : Z) :
  0 <= x <= 0xFFFF ->
  translate_address (0xCC000000 + x) = Z.land (0x1000000 + x) MEM_MASK.
Proof.
  intros H. unfold translate_address, RAM_START, RAM_END, HARDWARE_REGS_START,
    HARDWARE_REGS_END.
  destruct (Z.leb_spec (0xCC000000 + x) 0x81FFFFFF); [lia|].
  rewrite andb_false_r.
  destruct (Z.leb_spec 0xCC000000 (0xCC000000 + x)); [|lia].
  destruct (Z.leb_spec (0xCC000000 + x) 0xCC00FFFF); [|lia].
  cbn [andb]. f_equal. lia.
Qed.

Lemma translate_starlet (x : Z) :
  0 <= x <= 0xFFFF ->
  translate_address (0xCD000000 + x) = Z.land (0x1100000 + x) MEM_MASK.
Proof.
  intros H. unfold translate_address, RAM_START, RAM_END, HARDWARE_REGS_START,
    HARDWARE_REGS_END, STARLET_MEM_START, STARLET_MEM_END.
  destruct (Z.leb_spec (0xCD000000 + x) 0x81FFFFFF); [lia|].
  rewrite andb_false_r.
  destruct (Z.leb_spec (0xCD000000 + x) 0xCC00FFFF); [lia|].
  rewrite andb_false_r.
  destruct (Z.leb_spec 0xCD000000 (0xCD000000 + x)); [|lia].
  destruct (Z.leb_spec (0xCD000000 + x) 0xCD00FFFF); [|lia].
  cbn [andb]. f_equal. lia.
Qed.

(** Two addresses with the same mapped offset: a word written at one is
    read at the other. *)
Lemma read_write_alias (m : Machine) (a b v : Z) :
  translate_address a = translate_address b ->
  translate_address a + 3 < MEMORY_SIZE -> 0 <= v < 2^32 ->
  read_word (write_word a v m) b = v.
Proof.
  intros Hab Hmapped Hv.
  rewrite read_word_mapped by now rewrite <- Hab.
  rewrite memory_write_word by exact Hmapped.
  rewrite <- Hab. now apply big_endian_store.
Qed.

(** X1.  [translate_address] never leaves the buffer, and keeps the
    alignment of the address: a word-aligned address is translated to a
    word-aligned offset whose word is inside the buffer, so an aligned
    [read_word] or [write_word] never takes the out-of-bounds path and an
    aligned write reads back. *)
Theorem aligned_access_never_faults (v : Z) :
  0 <= translate_address v < MEMORY_SIZE
  /\ translate_address v mod 4 = v mod 4
  /\ (v mod 4 = 0 ->
      translate_address v + 3 < MEMORY_SIZE
      /\ forall m w, 0 <= w < 2^32 -> read_word (write_word v w m) v = w).
Proof.
  pose proof (translate_address_range v) as Hr.
  pose proof (translate_address_low_bits v) as Hlow.
  assert (Hmod : translate_address v mod 4 = v mod 4).
  { rewrite <- (Z.mod_mod_divide (translate_address v) (2^20) 4)
      by (exists (2^18); reflexivity).
    rewrite Hlow. apply Z.mod_mod_divide. exists (2^18). reflexivity. }
  unfold MEM_MASK, MEMORY_SIZE in *.
  split; [lia|]. split; [exact Hmod|].
  intros Hal.
  assert (Hfit : translate_address v + 3 < (24 + 64) * 1024 * 1024).
  { rewrite Hal in Hmod. clear Hlow Hal.
    set (t := translate_address v) in *. clearbody t.
    Z.div_mod_to_equations. lia. }
  split; [exact Hfit|].
  intros m w Hw. now apply read_write_same.
Qed.

Lemma aligned_access_never_faults_witness :
  translate_address 0xFFFFFFFC + 3 < MEMORY_SIZE
  /\ read_word (write_word 0xFFFFFFFC 0xCAFEF00D Examples.blank) 0xFFFFFFFC
     = 0xCAFEF00D.
Proof.
  destruct (aligned_access_never_faults 0xFFFFFFFC) as (_ & _ & Haligned).
  destruct (Haligned eq_refl) as (Hfit & Hback).
  split; [exact Hfit|].
  apply Hback. split; [discriminate | reflexivity].
Defined.

(** X2.  The hardware-register window 0xCC000000-0xCC00FFFF is translated
    to the offsets 0x1000000 + x and the Starlet window
    0xCD000000-0xCD00FFFF to 0x1100000 + x.  These are the offsets of the
    RAM-window addresses 0x81000000 + x and 0x81100000 + x, so the two
    "special sections" are shared with RAM: a word written through a device
    window is read back at the RAM address, and the other way round. *)
Theorem device_windows_share_ram (x : Z) (Hx : 0 <= x <= 0xFFFF) :
  translate_address (0xCC000000 + x) = 0x1000000 + x
  /\ translate_address (0xCD000000 + x) = 0x1100000 + x
  /\ translate_address (0x81000000 + x) = 0x1000000 + x
  /\ translate_address (0x81100000 + x) = 0x1100000 + x
  /\ forall m v, 0 <= v < 2^32 ->
       read_word (write_word (0xCC000000 + x) v m) (0x81000000 + x) = v
       /\ read_word (write_word (0x81000000 + x) v m) (0xCC000000 + x) = v
       /\ read_word (write_word (0xCD000000 + x) v m) (0x81100000 + x) = v
       /\ read_word (write_word (0x81100000 + x) v m) (0xCD000000 + x) = v.
Proof.
  assert (Hh : translate_address (0xCC000000 + x) = 0x1000000 + x).
  { rewrite translate_hardware by exact Hx.
    change 0x1000000 with (2^24). apply mask_bit24. lia. }
  assert (Hs : translate_address (0xCD000000 + x) = 0x1100000 + x).
  { rewrite translate_starlet by exact Hx.
    replace (0x1100000 + x) with (2^24 + (0x100000 + x)) by lia.
    apply mask_bit24. lia. }
  assert (Hrh : translate_address (0x81000000 + x) = 0x1000000 + x).
  { replace (0x81000000 + x) with (0x80000000 + (0x1000000 + x)) by lia.
    rewrite translate_ram by lia.
    change 0x1000000 with (2^24). apply mask_bit24. lia. }
  assert (Hrs : translate_address (0x81100000 + x) = 0x1100000 + x).
  { replace (0x81100000 + x) with (0x80000000 + (0x1100000 + x)) by lia.
    rewrite translate_ram by lia.
    replace (0x1100000 + x) with (2^24 + (0x100000 + x)) by lia.
    apply mask_bit24. lia. }
  do 4 (split; [assumption|]).
  intros m v Hv. unfold MEMORY_SIZE.
  repeat split; apply read_write_alias; try exact Hv;
    rewrite ?Hh, ?Hs, ?Hrh, ?Hrs; unfold MEMORY_SIZE; (reflexivity || lia).
Qed.

Lemma device_windows_share_ram_witness :
  read_word (write_word 0xCC000010 0x12345678 Examples.blank) 0x81000010
  = 0x12345678
  /\ read_word (write_word 0x81100020 0x9ABCDEF0 Examples.blank) 0xCD000020
     = 0x9ABCDEF0.
Proof.
  assert (H1 : 0 <= 0x10 <= 0xFFFF) by (split; discriminate).
  assert (H2 : 0 <= 0x20 <= 0xFFFF) by (split; discriminate).
  destruct (device_windows_share_ram 0x10 H1) as (_ & _ & _ & _ & Ha).
  destruct (device_windows_share_ram 0x20 H2) as (_ & _ & _ & _ & Hb).
  split.
  - apply (Ha Examples.blank 0x12345678). split; [discriminate | reflexivity].
  - apply (Hb Examples.blank 0x9ABCDEF0). split; [discriminate | reflexivity].
Defined.

(** X3.  [MEM_MASK] is [MEMORY_SIZE - 1] with [MEMORY_SIZE] = 88 MB, which
    is not a power of two: bit 23 is missing from the mask.  Inside the
    RAM window the offsets 0x800000 + x and x (and 0x1800000 + x and
    0x1000000 + x) are therefore the same memory: a word written at
    0x80800000 + x is read at 0x80000000 + x. *)
Theorem ram_window_folds (x : Z) (Hx : 0 <= x < 0x800000) :
  translate_address (0x80000000 + x) = x
  /\ translate_address (0x80800000 + x) = x
  /\ translate_address (0x81000000 + x) = 0x1000000 + x
  /\ translate_address (0x81800000 + x) = 0x1000000 + x
  /\ forall m v, 0 <= v < 2^32 ->
       read_word (write_word (0x80800000 + x) v m) (0x80000000 + x) = v
       /\ read_word (write_word (0x81800000 + x) v m) (0x81000000 + x) = v.
Proof.
  assert (H0 : translate_address (0x80000000 + x) = x).
  { rewrite translate_ram by lia. apply mask_low. lia. }
  assert (H1 : translate_address (0x80800000 + x) = x).
  { replace (0x80800000 + x) with (0x80000000 + (2^23 + x)) by lia.
    rewrite translate_ram by lia. apply mask_bit23. lia. }
  assert (H2 : translate_address (0x81000000 + x) = 0x1000000 + x).
  { replace (0x81000000 + x) with (0x80000000 + (2^24 + x)) by lia.
    rewrite translate_ram by lia. apply mask_bit24. lia. }
  assert (H3 : translate_address (0x81800000 + x) = 0x1000000 + x).
  { replace (0x81800000 + x) with (0x80000000 + (2^24 + 2^23 + x)) by lia.
    rewrite translate_ram by lia. apply mask_bit24_bit23. lia. }
  do 4 (split; [assumption|]).
  intros m v Hv.
  split; apply read_write_alias; try exact Hv;
    rewrite ?H0, ?H1, ?H2, ?H3; unfold MEMORY_SIZE; (reflexivity || lia).
Qed.

Lemma ram_window_folds_witness :
  read_word (write_word 0x80800100 0x0BADF00D Examples.blank) 0x80000100
  = 0x0BADF00D.
Proof.
  assert (Hx : 0 <= 0x100 < 0x800000) by (split; [discriminate | reflexivity]).
  destruct (ram_window_folds 0x100 Hx) as (_ & _ & _ & _ & Hfold).
  apply (Hfold Examples.blank 0x0BADF00D). split; [discriminate | reflexivity].
Defined.

(** X4.  No address at all is translated to an offset with bit 23 or bit 25
    set: the offsets from 0x800000 up to 0xFFFFFF and from 0x2000000 up to
    0x3FFFFFF of the buffer are never read or written through
    [read_word] and [write_word]. *)
Theorem unreachable_offsets (v : Z) :
  Z.testbit (translate_address v) 23 = false
  /\ Z.testbit (translate_address v) 25 = false
  /\ ~ (0x800000 <= translate_address v <= 0xFFFFFF)
  /\ ~ (0x2000000 <= translate_address v <= 0x3FFFFFF).
Proof.
  assert (Hbits : forall y, Z.testbit (Z.land y MEM_MASK) 23 = false
                            /\ Z.testbit (Z.land y MEM_MASK) 25 = false).
  { intros y. rewrite !Z.land_spec.
    change (Z.testbit MEM_MASK 23) with false.
    change (Z.testbit MEM_MASK 25) with false.
    now rewrite !andb_false_r. }
  assert (H : Z.testbit (translate_address v) 23 = false
              /\ Z.testbit (translate_address v) 25 = false).
  { unfold translate_address.
    repeat match goal with |- context [if ?c then _ else _] => destruct c end;
      apply Hbits. }
  destruct H as [H23 H25].
  split; [exact H23|]. split; [exact H25|].
  split; intros Hin.
  - assert (Ht : Z.testbit (translate_address v) 23 = true).
    { apply Z.testbit_true; [lia|].
      set (t := translate_address v) in *. clearbody t.
      Z.div_mod_to_equations. lia. }
    rewrite H23 in Ht. discriminate.
  - assert (Ht : Z.testbit (translate_address v) 25 = true).
    { apply Z.testbit_true; [lia|].
      set (t := translate_address v) in *. clearbody t.
      Z.div_mod_to_equations. lia. }
    rewrite H25 in Ht. discriminate.
Qed.

(** The fall-through branch of [translate_address] on the framebuffer
    addresses. *)
Lemma translate_framebuffer (x : Z) :
  0 <= x < SCREEN_WIDTH * SCREEN_HEIGHT * 4 ->
  translate_address (0x90000000 + x) = x.
Proof.
  unfold SCREEN_WIDTH, SCREEN_HEIGHT. intros H.
  unfold translate_address, RAM_START, RAM_END, HARDWARE_REGS_START,
    HARDWARE_REGS_END, STARLET_MEM_START, STARLET_MEM_END.
  destruct (Z.leb_spec (0x90000000 + x) 0x81FFFFFF); [lia|].
  destruct (Z.leb_spec 0xCC000000 (0x90000000 + x)); [lia|].
  destruct (Z.leb_spec 0xCD000000 (0x90000000 + x)); [lia|].
  rewrite andb_false_r. cbn [andb].
  rewrite (land_mask_mod (0x90000000 + x) MEM_MASK 27)
    by (try split; discriminate || reflexivity).
  replace ((0x90000000 + x) mod 2^27) with x
    by (Z.div_mod_to_equations; lia).
  apply mask_low. lia.
Qed.

(** X5.  The framebuffer mirror of [write_word].  A write at an address
    [a] of 0x90000000 .. 0x90000000 + 640*480*4 - 1 stores the whole word
    in pixel [(a - 0x90000000) / 4] of [framebuffer], whatever the
    alignment of [a], and changes no other pixel; the word also goes to the
    bytes [a - 0x90000000 ..] of [memory], which are the bytes of the RAM
    address [0x80000000 + (a - 0x90000000)]: drawing overwrites the start
    of RAM, where the program is fetched.  A write at any other address
    leaves [framebuffer] alone. *)
Theorem framebuffer_mirror (m : Machine) (a v : Z) :
  (0x90000000 <= a < 0x90000000 + SCREEN_WIDTH * SCREEN_HEIGHT * 4 ->
   let pixel := (a - 0x90000000) / 4 in
   0 <= pixel < SCREEN_WIDTH * SCREEN_HEIGHT
   /\ framebuffer (write_word a v m) pixel = v
   /\ (forall q, q <> pixel ->
                 framebuffer (write_word a v m) q = framebuffer m q)
   /\ memory (write_word a v m)
      = store_big_endian (memory m) (a - 0x90000000) v
   /\ (0 <= v < 2^32 ->
       read_word (write_word a v m) (0x80000000 + (a - 0x90000000)) = v))
  /\ (~ (0x90000000 <= a < 0x90000000 + SCREEN_WIDTH * SCREEN_HEIGHT * 4) ->
      framebuffer (write_word a v m) = framebuffer m).
Proof.
  split.
  - intros Ha pixel.
    assert (Ht : translate_address a = a - 0x90000000).
    { replace a with (0x90000000 + (a - 0x90000000)) at 1 by lia.
      apply translate_framebuffer. lia. }
    assert (Hp : 0 <= pixel < SCREEN_WIDTH * SCREEN_HEIGHT).
    { subst pixel. unfold SCREEN_WIDTH, SCREEN_HEIGHT in *.
      Z.div_mod_to_equations. lia. }
    assert (Hmapped : translate_address a + 3 < MEMORY_SIZE).
    { rewrite Ht. unfold SCREEN_WIDTH, SCREEN_HEIGHT, MEMORY_SIZE in *. lia. }
    assert (Hfb : framebuffer (write_word a v m) = upd (framebuffer m) pixel v).
    { unfold write_word. rewrite guard_no_wrap.
      destruct (Z.geb_spec (translate_address a + 3) MEMORY_SIZE); [lia|].
      destruct (Z.leb_spec 0x90000000 a); [|lia].
      destruct (Z.ltb_spec a (0x90000000 + SCREEN_WIDTH * SCREEN_HEIGHT * 4));
        [|lia].
      cbn [andb]. fold pixel.
      destruct (Z.ltb_spec pixel (SCREEN_WIDTH * SCREEN_HEIGHT)); [|lia].
      reflexivity. }
    split; [exact Hp|].
    split; [rewrite Hfb; apply upd_same|].
    split; [intros q Hq; rewrite Hfb; now apply upd_other|].
    split; [rewrite memory_write_word by exact Hmapped; now rewrite Ht|].
    intros Hv. apply read_write_alias; [|exact Hmapped|exact Hv].
    rewrite Ht, translate_ram by (unfold SCREEN_WIDTH, SCREEN_HEIGHT in *; lia).
    symmetry. apply mask_low. unfold SCREEN_WIDTH, SCREEN_HEIGHT in *. lia.
  - intros Hout. unfold write_word.
    destruct (wrap32 (translate_address a + 3) >=? MEMORY_SIZE); [reflexivity|].
    destruct (Z.leb_spec 0x90000000 a);
      destruct (Z.ltb_spec a (0x90000000 + SCREEN_WIDTH * SCREEN_HEIGHT * 4));
      cbn [andb]; try reflexivity.
    exfalso. apply Hout. lia.
Qed.

Lemma framebuffer_mirror_witness :
  framebuffer (write_word 0x90000006 0x00FF00FF Examples.blank) 1 = 0x00FF00FF
  /\ read_word (write_word 0x90000006 0x00FF00FF Examples.blank) 0x80000006
     = 0x00FF00FF
  /\ framebuffer (write_word 0x80000006 0x00FF00FF Examples.blank)
     = framebuffer Examples.blank.
Proof.
  destruct (framebuffer_mirror Examples.blank 0x90000006 0x00FF00FF)
    as [Hin _].
  destruct (framebuffer_mirror Examples.blank 0x80000006 0x00FF00FF)
    as [_ Hout].
  assert (Ha : 0x90000000 <= 0x90000006
               < 0x90000000 + SCREEN_WIDTH * SCREEN_HEIGHT * 4)
    by (split; [discriminate | reflexivity]).
  destruct (Hin Ha) as (_ & Hpixel & _ & _ & Hread).
  split; [exact Hpixel|].
  split; [apply Hread; split; [discriminate | reflexivity]|].
  apply Hout. intros [Hlow _]. apply Hlow. reflexivity.
Defined.

End EmuWiiV1Memory.

(** ** src/emuwiiv1.cpp: the executor and the emulation loop *)

Module EmuWiiV1Executor.
Import EmuWiiV1 EmuWiiV1Facts.

(** The three shapes of the machine after [execute_instruction]: only the
    [CPUState] changed; STW; system call. *)
Lemma execute_shape (instruction : Z) (m : Machine) :
  (exists s, execute_instruction instruction m = set_state s (tick m)
             /\ running s = running (state m)
             /\ kernel_mode s = kernel_mode (state m)
             /\ cycle_count s = wrap64 (cycle_count (state m) + 1)
             /\ (opcode_of instruction <> 0x11 ->
                 interrupts_enabled s = interrupts_enabled (state m)))
  \/ (opcode_of instruction = 0x24
      /\ exists a v, execute_instruction instruction m
                     = set_state (advance_pc (state (tick m)))
                                 (write_word a v (tick m)))
  \/ (opcode_of instruction = 0x13
      /\ execute_instruction instruction m = trigger_interrupt 9 (tick m)).
Proof.
  unfold execute_instruction. cbv zeta.
  repeat match goal with
         | |- context [opcode_of instruction =? ?k] =>
             destruct (Z.eqb_spec (opcode_of instruction) k)
         end;
    try (right; right; split; [assumption | reflexivity]);
    try (right; left; split; [assumption|];
         eexists; eexists;
         match goal with
         | |- context [state (write_word ?a ?v ?x)] =>
             destruct (write_word_frame x a v) as (-> & _)
         end; reflexivity);
    left;
    repeat match goal with
           | |- context [if ?c then _ else _] => destruct c
           end;
    eexists; (split; [reflexivity|]);
    cbn [state set_state advance_pc set_pc set_gpr set_spr set_fpr
         set_interrupts_enabled tick set_cycle_count running kernel_mode
         cycle_count interrupts_enabled];
    repeat split; congruence.
Qed.

(** X6.  What no instruction can do.  Whatever the instruction word,
    [execute_instruction] adds one to the cycle counter (mod 2^64) and
    leaves [running], the Starlet mailbox, the vector table and the audio
    state as they were: no instruction stops the emulator and none reaches
    the mailbox.  Memory and framebuffer change only under STW (opcode
    0x24); [kernel_mode] and the record of interrupt requests change only
    under a system call (opcode 0x13); [interrupts_enabled] changes only
    under a system call or a return from interrupt (opcode 0x11). *)
Theorem execute_frame (instruction : Z) (m : Machine) :
  let m' := execute_instruction instruction m in
  running (state m') = running (state m)
  /\ cycle_count (state m') = wrap64 (cycle_count (state m) + 1)
  /\ starlet_memory m' = starlet_memory m
  /\ interrupt_vectors m' = interrupt_vectors m
  /\ audio_state m' = audio_state m
  /\ (opcode_of instruction <> 0x24 ->
      memory m' = memory m /\ framebuffer m' = framebuffer m)
  /\ (opcode_of instruction <> 0x13 ->
      kernel_mode (state m') = kernel_mode (state m)
      /\ trigger_calls m' = trigger_calls m)
  /\ (opcode_of instruction <> 0x13 -> opcode_of instruction <> 0x11 ->
      interrupts_enabled (state m') = interrupts_enabled (state m)).
Proof.
  intros m'. subst m'.
  destruct (execute_shape instruction m)
    as [(s & -> & Hrun & Hkm & Hcc & Hie)
       | [(Hop & a & v & ->) | (Hop & ->)]].
  - cbn [state set_state starlet_memory interrupt_vectors audio_state memory
         framebuffer trigger_calls tick].
    repeat split; auto.
  - destruct (write_word_frame (tick m) a v) as (Hs & Hsm & Hiv & Hau & Htc).
    cbn [state set_state starlet_memory interrupt_vectors audio_state memory
         framebuffer trigger_calls advance_pc set_pc running cycle_count
         kernel_mode interrupts_enabled].
    rewrite Hsm, Hiv, Hau, Htc.
    cbn [state set_state starlet_memory interrupt_vectors audio_state
         trigger_calls tick set_cycle_count running cycle_count kernel_mode
         interrupts_enabled].
    repeat split; try reflexivity; intros; congruence.
  - destruct (trigger_interrupt_frame 9 (tick m))
      as (Hmem & Hfb & Hsm & Hiv & Hau & _).
    rewrite Hmem, Hfb, Hsm, Hiv, Hau.
    unfold trigger_interrupt.
    cbn [state set_state set_trigger_calls tick set_cycle_count
         interrupts_enabled].
    destruct (interrupts_enabled (state m));
      cbn [state set_state set_trigger_calls tick set_cycle_count set_spr
           set_pc set_interrupts_enabled set_kernel_mode running cycle_count
           starlet_memory interrupt_vectors audio_state memory framebuffer];
      repeat split; try reflexivity; intros; congruence.
Qed.

Lemma execute_frame_witness :
  let m' := execute_instruction Examples.add_r3_r1_r2 Examples.add_machine in
  running (state m') = running (state Examples.add_machine)
  /\ memory m' = memory Examples.add_machine
  /\ trigger_calls m' = trigger_calls Examples.add_machine
  /\ interrupts_enabled (state m')
     = interrupts_enabled (state Examples.add_machine).
Proof.
  intros m'.
  destruct (execute_frame Examples.add_r3_r1_r2 Examples.add_machine)
    as (Hrun & _ & _ & _ & _ & Hmem & Htrig & Hie).
  split; [exact Hrun|].
  split; [apply Hmem; discriminate|].
  split; [apply Htrig; discriminate|].
  apply Hie; discriminate.
Defined.

(** One round of the loop while the mailbox is idle: the round is the
    instruction alone, whatever the fuel. *)
Lemma emulation_step_idle (fuel : nat) (m : Machine) :
  command (starlet_memory m) = 0 ->
  emulation_step fuel m = Some (execute_instruction (fetch_instruction m) m).
Proof.
  intros Hidle. unfold emulation_step, handle_starlet_command.
  destruct (execute_frame (fetch_instruction m) m) as (_ & _ & -> & _).
  rewrite Hidle. reflexivity.
Qed.

(** X7.  The emulated program can neither stop the emulator nor post a
    Starlet command.  From a machine whose mailbox is idle, any number [n]
    of rounds of the emulation loop complete (with any fuel, the transfer
    loop is never entered), and afterwards [running] and the mailbox, the
    vector table and the audio state are what they were; when the machine
    was running, exactly [n] instructions were executed. *)
Theorem no_program_stops_the_loop (fuel n : nat) (m : Machine) :
  command (starlet_memory m) = 0 ->
  exists m',
    emulation_loop fuel n m = Some m'
    /\ running (state m') = running (state m)
    /\ starlet_memory m' = starlet_memory m
    /\ interrupt_vectors m' = interrupt_vectors m
    /\ audio_state m' = audio_state m
    /\ (running (state m) = true ->
        cycle_count (state m') mod 2^64
        = (cycle_count (state m) + Z.of_nat n) mod 2^64).
Proof.
  revert m. induction n as [|n IH]; intros m Hidle.
  - exists m. cbn [emulation_loop]. repeat split.
    intros _. change (Z.of_nat 0) with 0. now rewrite Z.add_0_r.
  - cbn [emulation_loop].
    destruct (running (state m)) eqn:Hrun.
    + rewrite (emulation_step_idle fuel m Hidle).
      set (m1 := execute_instruction (fetch_instruction m) m).
      destruct (execute_frame (fetch_instruction m) m)
        as (Hrun1 & Hcc1 & Hsm1 & Hiv1 & Hau1 & _).
      fold m1 in Hrun1, Hcc1, Hsm1, Hiv1, Hau1.
      destruct (IH m1) as (m' & Hloop & Hrun' & Hsm' & Hiv' & Hau' & Hcc').
      { now rewrite Hsm1. }
      exists m'. split; [exact Hloop|].
      split; [congruence|]. split; [congruence|]. split; [congruence|].
      split; [congruence|].
      intros _. rewrite Hcc' by congruence. rewrite Hcc1. unfold wrap64.
      rewrite Zplus_mod_idemp_l. f_equal. lia.
    + exists m. rewrite Hrun. repeat split. intros H. discriminate.
Qed.

Lemma no_program_stops_the_loop_witness :
  exists m',
    emulation_loop 0 100 Examples.add_machine = Some m'
    /\ running (state m') = true
    /\ cycle_count (state m') mod 2^64 = 100.
Proof.
  destruct (no_program_stops_the_loop 0 100 Examples.add_machine eq_refl)
    as (m' & Hloop & Hrun & _ & _ & _ & Hcc).
  exists m'. split; [exact Hloop|]. split; [exact Hrun|].
  exact (Hcc eq_refl).
Defined.

(** X8.  An interrupt and the return from it.  When interrupts are enabled,
    [trigger_interrupt] enters the handler at the vector of the type, keeps
    the interrupted pc in SPR 8 and disables interrupts; a further request
    made before the return is dropped (only recorded).  A return from
    interrupt (any word of opcode 0x11) then resumes at the interrupted pc
    with interrupts enabled again.  The round trip keeps the general
    registers and memory, but not everything: SPR 8 now holds the
    interrupted pc instead of its old value, and [kernel_mode] stays set,
    whatever it was before the interrupt. *)
Theorem interrupt_round_trip (t rfi : Z) (m : Machine) :
  interrupts_enabled (state m) = true ->
  opcode_of rfi = 0x11 ->
  let m1 := trigger_interrupt t m in
  let m2 := execute_instruction rfi m1 in
  pc (state m1) = get_interrupt_vector m t
  /\ interrupts_enabled (state m1) = false
  /\ (forall t2, state (trigger_interrupt t2 m1) = state m1
                 /\ memory (trigger_interrupt t2 m1) = memory m1)
  /\ pc (state m2) = pc (state m)
  /\ interrupts_enabled (state m2) = true
  /\ kernel_mode (state m2) = true
  /\ spr (state m2) 8 = pc (state m)
  /\ (forall k, k <> 8 -> spr (state m2) k = spr (state m) k)
  /\ gpr (state m2) = gpr (state m)
  /\ memory m2 = memory m.
Proof.
  intros Hie Hop m1 m2.
  assert (H1 : m1 = set_state
                 (set_kernel_mode true
                    (set_interrupts_enabled false
                       (set_pc (get_interrupt_vector m t)
                          (set_spr 8 (pc (state m)) (state m)))))
                 (set_trigger_calls (trigger_calls m ++ [t]) m)).
  { unfold m1, trigger_interrupt. cbn [state set_trigger_calls].
    rewrite Hie. reflexivity. }
  assert (H2 : m2 = set_state
                 (set_interrupts_enabled true
                    (set_pc (spr (state m1) 8) (state (tick m1)))) (tick m1))
    by (unfold m2; now apply execute_rfi).
  split; [rewrite H1; reflexivity|].
  split; [rewrite H1; reflexivity|].
  split.
  { intros t2. rewrite trigger_disarmed by (rewrite H1; reflexivity).
    split; reflexivity. }
  rewrite H2, H1.
  cbn [state set_state tick set_cycle_count set_interrupts_enabled set_pc
       set_kernel_mode set_spr set_trigger_calls pc spr gpr memory
       interrupts_enabled kernel_mode].
  rewrite upd_same.
  repeat split. intros k Hk. now apply upd_other.
Qed.

Lemma interrupt_round_trip_witness :
  let m1 := trigger_interrupt 4 Examples.armed_machine in
  let m2 := execute_instruction 0x44000000 m1 in
  interrupts_enabled (state m1) = false
  /\ pc (state m2) = 0x80000040
  /\ interrupts_enabled (state m2) = true.
Proof.
  intros m1 m2.
  assert (Harmed : interrupts_enabled (state Examples.armed_machine) = true)
    by reflexivity.
  assert (Hop : opcode_of 0x44000000 = 0x11) by reflexivity.
  destruct (interrupt_round_trip 4 0x44000000 Examples.armed_machine
              Harmed Hop)
    as (_ & Hoff & _ & Hpc & Hie & _).
  split; [exact Hoff|]. split; [exact Hpc | exact Hie].
Defined.

(** The mask [0x80000000 >> (cr_field * 4 + cr_bit)] of the conditional
    branch selects bit [31 - bi] of the condition register. *)
Lemma condition_bit (cr bi : Z) :
  0 <= bi <= 31 ->
  negb (Z.land cr (Z.shiftr 0x80000000 (bi / 4 * 4 + bi mod 4)) =? 0)
  = Z.testbit cr (31 - bi).
Proof.
  intros Hbi.
  replace (bi / 4 * 4 + bi mod 4) with bi by (Z.div_mod_to_equations; lia).
  rewrite Z.shiftr_div_pow2 by lia.
  change 0x80000000 with (2^31).
  rewrite <- Z.pow_sub_r by lia.
  rewrite land_pow2_eqb by lia. apply negb_involutive.
Qed.

Lemma field_range (x : Z) : 0 <= Z.land x 0x1F <= 31.
Proof. apply land_mask_range. lia. Qed.

(** The conditional branch, with its tests on masks read as bit tests. *)
Lemma execute_bc (instruction : Z) (m : Machine) :
  opcode_of instruction = 0x10 ->
  let s := state (tick m) in
  let bo := field_21 instruction in
  let bi := field_16 instruction in
  let taken := Z.testbit bo 2
               || Bool.eqb (Z.testbit (spr s 0) (31 - bi)) (Z.testbit bo 3) in
  let s1 := if Z.testbit instruction 0
            then set_spr 8 (wrap32 (pc s + 4)) s else s in
  execute_instruction instruction m
  = if taken
    then set_state (set_pc (wrap32 (pc s + to_int16 (Z.land instruction 0xFFFC)))
                           s1) (tick m)
    else set_state (advance_pc s1) (tick m).
Proof.
  intros Hop s bo bi taken s1.
  assert (Hlink : negb (Z.land instruction 0x1 =? 0) = Z.testbit instruction 0).
  { change 0x1 with (2^0). rewrite land_pow2_eqb by lia. apply negb_involutive. }
  assert (Hbo2 : negb (Z.land bo 0x4 =? 0) = Z.testbit bo 2).
  { change 0x4 with (2^2). rewrite land_pow2_eqb by lia. apply negb_involutive. }
  assert (Hbo3 : negb (Z.land bo 0x8 =? 0) = Z.testbit bo 3).
  { change 0x8 with (2^3). rewrite land_pow2_eqb by lia. apply negb_involutive. }
  assert (Hcond : forall cr,
             negb (Z.land cr (Z.shiftr 0x80000000 (bi / 4 * 4 + bi mod 4)) =? 0)
             = Z.testbit cr (31 - bi))
    by (intros cr; apply condition_bit, field_range).
  unfold execute_instruction. rewrite Hop. cbv zeta.
  change (0x10 =? 0x18) with false. change (0x10 =? 0x19) with false.
  change (0x10 =? 0x1C) with false. change (0x10 =? 0x1F) with false.
  change (0x10 =? 0x12) with false. change (0x10 =? 0x10) with true.
  cbv iota. fold bo bi s.
  rewrite Hlink, Hbo2, Hbo3, Hcond. fold s1.
  assert (Hcr : spr s1 0 = spr s 0).
  { unfold s1. destruct (Z.testbit instruction 0); [|reflexivity].
    cbn [spr set_spr]. apply upd_other. discriminate. }
  assert (Hpc : pc s1 = pc s)
    by (unfold s1; destruct (Z.testbit instruction 0); reflexivity).
  rewrite Hcr, Hpc. subst taken.
  destruct (Z.testbit bo 2), (Z.testbit bo 3), (Z.testbit (spr s 0) (31 - bi));
    reflexivity.
Qed.

(** X9.  The conditional branch (opcode 0x10).  The branch is taken when
    bit 2 of the BO field (bits 21-25) is set, or when bit [31 - BI] of
    SPR 0 (BI: bits 16-20; the bit is counted from the most significant
    end) equals bit 3 of BO.  A taken branch goes to pc plus the low 16
    bits of the word with the two flag bits cleared, read as a signed
    number; the displacement is always relative to pc.  A branch not taken
    goes to pc + 4.  When bit 0 of the word is set, SPR 8 receives pc + 4,
    whether or not the branch is taken.  Nothing else changes. *)
Theorem conditional_branch (instruction : Z) (m : Machine) :
  opcode_of instruction = 0x10 ->
  let s := state m in
  let bo := field_21 instruction in
  let bi := field_16 instruction in
  let taken := Z.testbit bo 2
               || Bool.eqb (Z.testbit (spr s 0) (31 - bi)) (Z.testbit bo 3) in
  let m' := execute_instruction instruction m in
  pc (state m')
  = (if taken then wrap32 (pc s + to_int16 (Z.land instruction 0xFFFC))
     else wrap32 (pc s + 4))
  /\ spr (state m') 8
     = (if Z.testbit instruction 0 then wrap32 (pc s + 4) else spr s 8)
  /\ (forall k, k <> 8 -> spr (state m') k = spr s k)
  /\ gpr (state m') = gpr s
  /\ memory m' = memory m.
Proof.
  intros Hop s bo bi taken m'.
  subst m'. rewrite (execute_bc instruction m Hop). cbv zeta.
  cbn [state tick set_state set_cycle_count spr pc]. fold s bo bi taken.
  destruct taken, (Z.testbit instruction 0);
    cbn [state set_state set_pc set_spr advance_pc set_cycle_count
         pc spr gpr memory tick];
    rewrite ?upd_same;
    (split; [reflexivity|]); (split; [reflexivity|]);
    (split; [intros k Hk; try reflexivity; apply upd_other; congruence|]);
    split; reflexivity.
Qed.

Lemma conditional_branch_witness :
  pc (state (execute_instruction Examples.bc_bit31_16 Examples.less_machine))
  = 0x80000010
  /\ pc (state (execute_instruction Examples.bc_bit31_16 Examples.blank)) = 4.
Proof.
  assert (Hop : opcode_of Examples.bc_bit31_16 = 0x10) by reflexivity.
  destruct (conditional_branch Examples.bc_bit31_16 Examples.less_machine Hop)
    as (Htaken & _).
  destruct (conditional_branch Examples.bc_bit31_16 Examples.blank Hop)
    as (Hnot & _).
  split; [exact Htaken | exact Hnot].
Defined.

(** The four bits that CMP replaces in the condition register. *)
Lemma cr_field_bits (cr cr_val sh j : Z) :
  0 <= cr < 2^32 -> 0 <= cr_val < 16 -> 0 <= sh <= 28 -> 0 <= j ->
  Z.testbit (wrap32 (Z.lor (Z.land cr (Z.lnot (Z.shiftl 0xF sh)))
                           (Z.shiftl cr_val sh))) j
  = if (sh <=? j) && (j <? sh + 4) then Z.testbit cr_val (j - sh)
    else Z.testbit cr j.
Proof.
  intros Hcr Hval Hsh Hj. unfold wrap32.
  assert (Hhigh : forall k, 4 <= k -> Z.testbit cr_val k = false).
  { intros k Hk. destruct (Z.eq_dec cr_val 0) as [->|Hz]; [apply Z.bits_0|].
    apply Z.bits_above_log2; [lia|].
    apply Z.log2_lt_pow2; [lia|].
    assert (2^4 <= 2^k) by (apply Z.pow_le_mono_r; lia). lia. }
  destruct (Z.lt_ge_cases j 32) as [Hlow|Hhi].
  - rewrite Z.mod_pow2_bits_low by lia.
    rewrite Z.lor_spec, Z.land_spec, Z.lnot_spec, !Z.shiftl_spec by lia.
    change 0xF with (Z.ones 4). rewrite Z.testbit_ones by lia.
    destruct (Z.leb_spec sh j), (Z.ltb_spec j (sh + 4)),
      (Z.leb_spec 0 (j - sh)), (Z.ltb_spec (j - sh) 4);
      try lia; cbn [andb negb].
    + now rewrite andb_false_r.
    + rewrite andb_true_r, Hhigh by lia. apply orb_false_r.
    + rewrite andb_true_r, (Z.testbit_neg_r cr_val) by lia. apply orb_false_r.
  - rewrite Z.mod_pow2_bits_high by lia.
    destruct (Z.leb_spec sh j), (Z.ltb_spec j (sh + 4)); try lia;
      cbn [andb]; symmetry; now apply testbit_above_32.
Qed.

(** [crfd], bits 23-25 of the word, is the upper part of the field that
    CMP reads as [ra], bits 21-25. *)
Lemma crfd_of_ra (instruction : Z) :
  Z.land (Z.shiftr instruction 23) 0x7 = field_21 instruction / 4.
Proof.
  unfold field_21.
  replace (Z.shiftr instruction 23) with (Z.shiftr (Z.shiftr instruction 21) 2)
    by (rewrite Z.shiftr_shiftr by lia; reflexivity).
  set (x := Z.shiftr instruction 21).
  change 0x7 with (Z.ones 3). change 0x1F with (Z.ones 5).
  rewrite !Z.land_ones, Z.shiftr_div_pow2 by lia.
  change (2^2) with 4. change (2^3) with 8. change (2^5) with 32.
  Z.div_mod_to_equations. lia.
Qed.

(** The extended opcode whose low byte is 0x0A executes as CMP. *)
Lemma execute_cmp (instruction : Z) (m : Machine) :
  opcode_of instruction = 0x1F ->
  wrap8 (Z.land (Z.shiftr instruction 1) 0x3FF) = 0x00A ->
  let s := state (tick m) in
  let a := to_int32 (gpr s (field_21 instruction)) in
  let b := to_int32 (gpr s (field_16 instruction)) in
  let cr_val := if a <? b then 0x8 else if a >? b then 0x4 else 0x2 in
  let sh := 28 - 4 * (field_21 instruction / 4) in
  execute_instruction instruction m
  = set_state
      (advance_pc
         (set_spr 0 (wrap32 (Z.lor (Z.land (spr s 0) (Z.lnot (Z.shiftl 0xF sh)))
                                   (Z.shiftl cr_val sh))) s)) (tick m).
Proof.
  intros Hop Hxo. cbv zeta.
  unfold execute_instruction. rewrite Hop, Hxo, crfd_of_ra. reflexivity.
Qed.

Lemma cr_field_base (instruction : Z) :
  0 <= 28 - 4 * (field_21 instruction / 4) <= 28.
Proof.
  pose proof (field_range (Z.shiftr instruction 21)) as H.
  fold (field_21 instruction) in H.
  Z.div_mod_to_equations. lia.
Qed.

(** The value CMP puts in the field, bit by bit. *)
Lemma cr_val_bits (a b : Z) :
  let cr_val := if a <? b then 0x8 else if a >? b then 0x4 else 0x2 in
  0 <= cr_val < 16
  /\ Z.testbit cr_val 3 = (a <? b)
  /\ Z.testbit cr_val 2 = (b <? a)
  /\ Z.testbit cr_val 1 = (a =? b)
  /\ Z.testbit cr_val 0 = false.
Proof.
  cbv zeta. rewrite Z.gtb_ltb.
  destruct (Z.ltb_spec a b), (Z.ltb_spec b a), (Z.eqb_spec a b); try lia;
    repeat split; reflexivity || lia.
Qed.

(** X10.  CMP.  Under opcode 0x1F, an extended opcode whose low byte is
    0x0A is executed as CMP; the test is made on a [uint8_t], so the
    encodings 0x00A, 0x10A (SUB in the source), 0x20A and 0x30A all
    compare and none subtracts.  CMP compares the registers named by bits
    21-25 and 16-20 as signed 32-bit numbers and writes the four bits of
    one field of SPR 0: less, greater, equal, and a cleared fourth bit,
    from the most significant end.  The field is number [ra / 4], since
    [crfd] is read from bits 23-25, which are part of the [ra] field.  All
    other bits of SPR 0, the general registers and memory are kept, and pc
    advances by 4. *)
Theorem compare_sets_field (instruction : Z) (m : Machine) :
  opcode_of instruction = 0x1F ->
  wrap8 (Z.land (Z.shiftr instruction 1) 0x3FF) = 0x00A ->
  0 <= spr (state m) 0 < 2^32 ->
  let s := state m in
  let a := to_int32 (gpr s (field_21 instruction)) in
  let b := to_int32 (gpr s (field_16 instruction)) in
  let p := 28 - 4 * (field_21 instruction / 4) in
  let m' := execute_instruction instruction m in
  let cr' := spr (state m') 0 in
  Z.testbit cr' (p + 3) = (a <? b)
  /\ Z.testbit cr' (p + 2) = (b <? a)
  /\ Z.testbit cr' (p + 1) = (a =? b)
  /\ Z.testbit cr' p = false
  /\ (forall j, 0 <= j -> j < p \/ p + 4 <= j ->
                Z.testbit cr' j = Z.testbit (spr s 0) j)
  /\ pc (state m') = wrap32 (pc s + 4)
  /\ gpr (state m') = gpr s
  /\ memory m' = memory m.
Proof.
  intros Hop Hxo Hcr s a b p m' cr'.
  pose proof (cr_field_base instruction) as Hp. fold p in Hp.
  destruct (cr_val_bits a b) as (Hval & Hlt & Hgt & Heq & Hso).
  assert (Hbits : forall j, 0 <= j ->
            Z.testbit cr' j
            = if (p <=? j) && (j <? p + 4)
              then Z.testbit (if a <? b then 0x8 else if a >? b then 0x4 else 0x2)
                             (j - p)
              else Z.testbit (spr s 0) j).
  { intros j Hj. unfold cr', m'.
    rewrite (execute_cmp instruction m Hop Hxo). cbv zeta.
    cbn [state set_state tick set_cycle_count advance_pc set_pc set_spr spr gpr].
    rewrite upd_same. fold s a b p.
    now apply cr_field_bits. }
  assert (Hin : forall d, 0 <= d < 4 -> (p <=? p + d) && (p + d <? p + 4) = true).
  { intros d Hd. destruct (Z.leb_spec p (p + d)), (Z.ltb_spec (p + d) (p + 4));
      reflexivity || lia. }
  split; [rewrite Hbits, Hin by lia; replace (p + 3 - p) with 3 by lia; exact Hlt|].
  split; [rewrite Hbits, Hin by lia; replace (p + 2 - p) with 2 by lia; exact Hgt|].
  split; [rewrite Hbits, Hin by lia; replace (p + 1 - p) with 1 by lia; exact Heq|].
  split.
  { replace p with (p + 0) at 1 by lia.
    rewrite Hbits, Hin by lia. replace (p + 0 - p) with 0 by lia. exact Hso. }
  split.
  { intros j Hj Hout. rewrite Hbits by exact Hj.
    destruct (Z.leb_spec p j), (Z.ltb_spec j (p + 4)); reflexivity || lia. }
  unfold m'. rewrite (execute_cmp instruction m Hop Hxo). cbv zeta.
  repeat split.
Qed.

Lemma compare_sets_field_witness :
  let m' := execute_instruction Examples.sub_r3_r1_r2 Examples.add_machine in
  Z.testbit (spr (state m') 0) 31 = true
  /\ gpr (state m') 3 = 0.
Proof.
  intros m'.
  assert (Hop : opcode_of Examples.sub_r3_r1_r2 = 0x1F) by reflexivity.
  assert (Hxo : wrap8 (Z.land (Z.shiftr Examples.sub_r3_r1_r2 1) 0x3FF) = 0x00A)
    by reflexivity.
  assert (Hcr : 0 <= spr (state Examples.add_machine) 0 < 2^32)
    by (split; [discriminate | reflexivity]).
  destruct (compare_sets_field Examples.sub_r3_r1_r2 Examples.add_machine
              Hop Hxo Hcr) as (Hlt & _ & _ & _ & _ & _ & Hgpr & _).
  split; [exact Hlt|].
  unfold m'. rewrite Hgpr. reflexivity.
Defined.

(** X11.  CMP followed by a conditional branch.  After a CMP, a branch
    whose BO has bit 3 set and bit 2 clear and whose BI names bit [k] of
    the field that the CMP wrote is taken exactly when the comparison came
    out less ([k] = 0), greater ([k] = 1) or equal ([k] = 2): the bit
    layout written by CMP and the bit test of the branch agree. *)
Theorem compare_then_branch (cmp bc k : Z) (m : Machine) :
  opcode_of cmp = 0x1F ->
  wrap8 (Z.land (Z.shiftr cmp 1) 0x3FF) = 0x00A ->
  0 <= spr (state m) 0 < 2^32 ->
  opcode_of bc = 0x10 ->
  Z.testbit (field_21 bc) 2 = false ->
  Z.testbit (field_21 bc) 3 = true ->
  0 <= k <= 2 ->
  field_16 bc = 4 * (field_21 cmp / 4) + k ->
  let s := state m in
  let a := to_int32 (gpr s (field_21 cmp)) in
  let b := to_int32 (gpr s (field_16 cmp)) in
  let holds := if k =? 0 then a <? b else if k =? 1 then b <? a else a =? b in
  pc (state (execute_instruction bc (execute_instruction cmp m)))
  = if holds
    then wrap32 (wrap32 (pc s + 4) + to_int16 (Z.land bc 0xFFFC))
    else wrap32 (wrap32 (pc s + 4) + 4).
Proof.
  intros Hop Hxo Hcr Hbc Hbo2 Hbo3 Hk Hbi s a b holds.
  pose proof (cr_field_base cmp) as Hp.
  destruct (cr_val_bits a b) as (Hval & Hlt & Hgt & Heq & _).
  set (m1 := execute_instruction cmp m).
  assert (Hpc1 : pc (state m1) = wrap32 (pc s + 4)).
  { unfold m1. rewrite (execute_cmp cmp m Hop Hxo). reflexivity. }
  assert (Hbit : Z.testbit (spr (state m1) 0) (31 - field_16 bc) = holds).
  { unfold m1. rewrite (execute_cmp cmp m Hop Hxo). cbv zeta.
    cbn [state set_state tick set_cycle_count advance_pc set_pc set_spr spr gpr].
    rewrite upd_same. fold s a b.
    rewrite cr_field_bits by (assumption || lia).
    rewrite Hbi.
    set (p := 28 - 4 * (field_21 cmp / 4)) in *.
    replace (31 - (4 * (field_21 cmp / 4) + k)) with (p + (3 - k))
      by (unfold p; lia).
    destruct (Z.leb_spec p (p + (3 - k))), (Z.ltb_spec (p + (3 - k)) (p + 4));
      try lia; cbn [andb].
    replace (p + (3 - k) - p) with (3 - k) by lia.
    unfold holds.
    destruct (Z.eqb_spec k 0) as [->|Hk0]; [exact Hlt|].
    destruct (Z.eqb_spec k 1) as [->|Hk1]; [exact Hgt|].
    replace k with 2 by lia. exact Heq. }
  rewrite (execute_bc bc m1 Hbc). cbv zeta.
  cbn [state tick set_state set_cycle_count spr pc].
  rewrite Hbo2, Hbo3, Hbit.
  destruct holds, (Z.testbit bc 0);
    cbn [orb Bool.eqb]; unfold advance_pc;
    cbn [state set_state set_pc set_spr set_cycle_count pc];
    rewrite ?Hpc1; reflexivity.
Qed.

Lemma compare_then_branch_witness :
  pc (state (execute_instruction Examples.bc_bit31_16
               (execute_instruction Examples.sub_r3_r1_r2 Examples.add_machine)))
  = 0x80000014.
Proof.
  assert (Hcr : 0 <= spr (state Examples.add_machine) 0 < 2^32)
    by (split; [discriminate | reflexivity]).
  assert (Hk : 0 <= 0 <= 2) by (split; discriminate).
  exact (compare_then_branch Examples.sub_r3_r1_r2 Examples.bc_bit31_16 0
           Examples.add_machine eq_refl eq_refl Hcr eq_refl eq_refl eq_refl
           Hk eq_refl).
Defined.

(** X12.  STW followed by LWZ.  A store and a load that name the same base
    register and the same 16-bit offset address the same word: when that
    word is inside the buffer, the loaded register receives the value of
    the stored register, and two instructions have gone by. *)
Theorem store_then_load (stw lwz : Z) (m : Machine) :
  opcode_of stw = 0x24 ->
  opcode_of lwz = 0x20 ->
  field_16 lwz = field_16 stw ->
  Z.land lwz 0xFFFF = Z.land stw 0xFFFF ->
  let s := state m in
  let ea := effective_address s (field_16 stw) (to_int16 (Z.land stw 0xFFFF)) in
  translate_address ea + 3 < MEMORY_SIZE ->
  0 <= gpr s (field_21 stw) < 2^32 ->
  let m' := execute_instruction lwz (execute_instruction stw m) in
  gpr (state m') (field_21 lwz) = gpr s (field_21 stw)
  /\ read_word m' ea = gpr s (field_21 stw)
  /\ pc (state m') = wrap32 (wrap32 (pc s + 4) + 4)
  /\ cycle_count (state m') = wrap64 (wrap64 (cycle_count s + 1) + 1).
Proof.
  intros Hstw Hlwz Hra Hoff s ea Hmapped Hv m'.
  set (v := gpr s (field_21 stw)) in *.
  set (w := write_word ea v (tick m)).
  assert (Hs : state w = state (tick m))
    by (unfold w; now destruct (write_word_frame (tick m) ea v) as (-> & _)).
  assert (H1 : execute_instruction stw m = set_state (advance_pc (state w)) w).
  { rewrite (execute_stw stw m Hstw). reflexivity. }
  assert (Hread : forall x, memory x = memory w -> read_word x ea = v).
  { intros x Hx. rewrite (read_word_memory x w ea Hx).
    unfold w. now apply read_write_same. }
  subst m'. rewrite H1, (execute_lwz lwz _ Hlwz), Hra, Hoff.
  cbn [state set_state advance_pc set_pc set_gpr set_cycle_count tick gpr pc
       cycle_count].
  rewrite Hs.
  cbn [state set_state set_cycle_count tick gpr pc cycle_count].
  change (effective_address
            (advance_pc
               (set_cycle_count (wrap64 (cycle_count (state m) + 1)) (state m)))
            (field_16 stw) (to_int16 (Z.land stw 0xFFFF))) with ea.
  rewrite upd_same.
  split; [apply Hread; reflexivity|].
  split; [apply Hread; reflexivity|].
  split; reflexivity.
Qed.

Lemma store_then_load_witness :
  let m := set_state (set_gpr 3 0xDEADBEEF (state Examples.blank)) Examples.blank in
  gpr (state (execute_instruction Examples.lwz_r3_8_r0
                (execute_instruction Examples.stw_r3_8_r0 m))) 3
  = 0xDEADBEEF.
Proof.
  intros m.
  assert (Hmapped : translate_address
                      (effective_address (state m)
                         (field_16 Examples.stw_r3_8_r0)
                         (to_int16 (Z.land Examples.stw_r3_8_r0 0xFFFF))) + 3
                    < MEMORY_SIZE) by reflexivity.
  assert (Hv : 0 <= gpr (state m) (field_21 Examples.stw_r3_8_r0) < 2^32)
    by (split; [discriminate | reflexivity]).
  destruct (store_then_load Examples.stw_r3_8_r0 Examples.lwz_r3_8_r0 m
              eq_refl eq_refl eq_refl eq_refl Hmapped Hv) as (Hgpr & _).
  exact Hgpr.
Defined.

End EmuWiiV1Executor.

(** ** src/emuwiiv1.cpp: start-up *)

Module EmuWiiV1Boot.
Import EmuWiiV1 EmuWiiV1Facts EmuWiiV1Memory.

(** On an empty table, the loop of [initialize_kernel] visits the twelve
    vectors in the order in which they were entered. *)
Lemma sorted_vectors :
  merge_sort key_le
    (map_to_list (fold_left (fun acc e => <[fst e := snd e]> acc)
                            kernel_vectors (∅ : gmap Z Z)))
  = kernel_vectors.
Proof. vm_compute. reflexivity. Qed.

Lemma initialize_kernel_empty (m : Machine) :
  interrupt_vectors m = ∅ ->
  initialize_kernel m
  = fold_left (fun acc e => write_word (snd e) 0x4C000064 acc) kernel_vectors
      (set_interrupt_vectors
         (fold_left (fun acc e => <[fst e := snd e]> acc) kernel_vectors ∅) m).
Proof.
  intros Hempty. unfold initialize_kernel. rewrite Hempty, sorted_vectors.
  reflexivity.
Qed.

(** A run of writes of one word [w]: an address that is written, and that
    every other written address either equals or misses by a whole word,
    reads [w] afterwards. *)
Lemma write_words_read (w a : Z) (l : list (Z * Z)) (m : Machine) :
  0 <= w < 2^32 ->
  translate_address a + 3 < MEMORY_SIZE ->
  (forall b, In b (map snd l) ->
             b = a
             \/ translate_address a + 4 <= translate_address b
             \/ translate_address b + 4 <= translate_address a) ->
  read_word m a = w \/ In a (map snd l) ->
  read_word (fold_left (fun acc e => write_word (snd e) w acc) l m) a = w.
Proof.
  intros Hw Hmapped. revert m.
  induction l as [|e l IH]; intros m Hapart Hin.
  - destruct Hin as [Hin|[]]. exact Hin.
  - cbn [fold_left]. apply IH.
    + intros b Hb. apply Hapart. right. exact Hb.
    + destruct (Hapart (snd e)) as [Heq|Hd]; [left; reflexivity| |].
      * left. rewrite Heq. now apply read_write_same.
      * destruct Hin as [Hin|[Hin|Hin]].
        -- left. rewrite read_write_disjoint by lia. exact Hin.
        -- rewrite Hin in Hd. lia.
        -- right. exact Hin.
Qed.

(** The bytes that such a run leaves alone. *)
Lemma write_words_memory (w p : Z) (l : list (Z * Z)) (m : Machine) :
  (forall b, In b (map snd l) ->
             p < translate_address b \/ translate_address b + 3 < p) ->
  memory (fold_left (fun acc e => write_word (snd e) w acc) l m) p = memory m p.
Proof.
  revert m. induction l as [|e l IH]; intros m Hout; [reflexivity|].
  cbn [fold_left]. rewrite IH by (intros b Hb; apply Hout; right; exact Hb).
  apply memory_write_word_other. apply Hout. left. reflexivity.
Qed.

Lemma write_words_state (w : Z) (l : list (Z * Z)) (m : Machine) :
  state (fold_left (fun acc e => write_word (snd e) w acc) l m) = state m.
Proof.
  revert m. induction l as [|e l IH]; intros m; [reflexivity|].
  cbn [fold_left]. rewrite IH.
  now destruct (write_word_frame m (snd e) w) as (-> & _).
Qed.

(** The vector addresses and their offsets in the buffer. *)
Lemma vector_addresses (b : Z) :
  In b (map snd kernel_vectors) ->
  exists j, 0 <= j < 12 /\ b = 0x80003000 + 0x10 * j.
Proof.
  cbn [map kernel_vectors snd In]. unfold INTERRUPT_TABLE_BASE.
  intros H.
  repeat (destruct H as [H|H];
          [exists ((b - 0x80003000) / 0x10); subst b; split; [split|];
           reflexivity || discriminate|]).
  destruct H.
Qed.

Lemma translate_vector (j : Z) :
  0 <= j < 12 -> translate_address (0x80003000 + 0x10 * j) = 0x3000 + 0x10 * j.
Proof.
  intros Hj.
  replace (0x80003000 + 0x10 * j) with (0x80000000 + (0x3000 + 0x10 * j)) by lia.
  rewrite translate_ram by lia. apply mask_low. lia.
Qed.

(** X13.  [initialize_kernel] on the empty vector table of program start.
    Each of the twelve interrupt types 0-11 gets the vector
    0x80003000 + 0x10 * i, and the word 0x4C000064 can be read back at
    each vector.  That word has opcode 0x13: [execute_instruction] runs it
    as a system call, not as the return from interrupt (opcode 0x11) that
    the comment in the source announces.  The bytes of memory outside
    0x3000 .. 0x30B3 and the [CPUState] are left alone. *)
Theorem kernel_stub_words (m : Machine) (i : Z) :
  interrupt_vectors m = ∅ ->
  0 <= i < 12 ->
  let m' := initialize_kernel m in
  get_interrupt_vector m' i = 0x80003000 + 0x10 * i
  /\ read_word m' (get_interrupt_vector m' i) = 0x4C000064
  /\ opcode_of (read_word m' (get_interrupt_vector m' i)) = 0x13
  /\ (forall p, p < 0x3000 \/ 0x30B4 <= p -> memory m' p = memory m p)
  /\ state m' = state m.
Proof.
  intros Hempty Hi m'.
  assert (Hvec : get_interrupt_vector m' i = 0x80003000 + 0x10 * i)
    by (apply initialize_kernel_vectors; exact Hi).
  assert (Hword : read_word m' (0x80003000 + 0x10 * i) = 0x4C000064).
  { unfold m'. rewrite (initialize_kernel_empty m Hempty).
    apply write_words_read.
    - split; [discriminate | reflexivity].
    - rewrite translate_vector by exact Hi. unfold MEMORY_SIZE. lia.
    - intros b Hb. destruct (vector_addresses b Hb) as (j & Hj & ->).
      rewrite !translate_vector by assumption. lia.
    - right.
      assert (Hcase : i = 0 \/ i = 1 \/ i = 2 \/ i = 3 \/ i = 4 \/ i = 5
                      \/ i = 6 \/ i = 7 \/ i = 8 \/ i = 9 \/ i = 10 \/ i = 11)
        by lia.
      cbn [map kernel_vectors snd In]. unfold INTERRUPT_TABLE_BASE.
      repeat (destruct Hcase as [->|Hcase]; [tauto|]). subst i. tauto. }
  rewrite Hvec, Hword.
  split; [reflexivity|]. split; [reflexivity|]. split; [reflexivity|].
  unfold m'. rewrite (initialize_kernel_empty m Hempty).
  split; [|now rewrite write_words_state].
  intros p Hp. rewrite write_words_memory; [reflexivity|].
  intros b Hb. destruct (vector_addresses b Hb) as (j & Hj & ->).
  rewrite translate_vector by exact Hj. lia.
Qed.

Lemma kernel_stub_words_witness :
  read_word (initialize_kernel power_on)
            (get_interrupt_vector (initialize_kernel power_on) 9)
  = 0x4C000064.
Proof.
  assert (Hi : 0 <= 9 < 12) by (split; [discriminate | reflexivity]).
  destruct (kernel_stub_words power_on 9 eq_refl Hi) as (_ & Hword & _).
  exact Hword.
Defined.





End EmuWiiV1Boot.

(** ** src/emuwiiv1.cpp: the Starlet mailbox *)

Module EmuWiiV1Mailbox.
Import EmuWiiV1 EmuWiiV1Facts.

(** The next counter of the transfer loop, while the loop can still end. *)
Lemma next_index (i size : Z) :
  0 <= i -> i mod 4 = 0 -> i < size -> size <= 0xFFFFFFFC ->
  wrap32 (i + 4) = i + 4.
Proof.
  intros Hi Hmod Hlt Hsize. apply wrap32_small.
  Z.div_mod_to_equations. lia.
Qed.

Lemma next_index_aligned (i : Z) : i mod 4 = 0 -> (i + 4) mod 4 = 0.
Proof. intros H. Z.div_mod_to_equations. lia. Qed.

(** A byte count of at most 0xFFFFFFFC: the loop ends after at most
    [n] rounds when [size <= i + 4 * n], and touches memory and the
    framebuffer only. *)
Lemma transfer_loop_ends (size src dest : Z) (n : nat) :
  size <= 0xFFFFFFFC ->
  forall (i : Z) (fuel : nat) (m : Machine),
    0 <= i -> i mod 4 = 0 -> size <= i + 4 * Z.of_nat n -> (n < fuel)%nat ->
    exists m',
      transfer_loop fuel i size src dest m = Some m'
      /\ state m' = state m
      /\ starlet_memory m' = starlet_memory m
      /\ interrupt_vectors m' = interrupt_vectors m
      /\ audio_state m' = audio_state m
      /\ trigger_calls m' = trigger_calls m.
Proof.
  intros Hsize. induction n as [|n IH]; intros i fuel m Hi Hmod Hn Hfuel.
  - destruct fuel as [|fuel]; [lia|]. rewrite transfer_loop_S.
    destruct (Z.ltb_spec i size); [lia|]. exists m. repeat split.
  - destruct fuel as [|fuel]; [lia|]. rewrite transfer_loop_S.
    destruct (Z.ltb_spec i size) as [Hlt|Hge]; [|exists m; repeat split].
    rewrite (next_index i size Hi Hmod Hlt Hsize).
    destruct (IH (i + 4) fuel (transfer_round src dest i m))
      as (m' & Hloop & Hs & Hsm & Hiv & Hau & Htc);
      [lia | now apply next_index_aligned | lia | lia |].
    destruct (transfer_round_frame src dest i m) as (Fs & Fsm & Fiv & Fau & Ftc).
    exists m'. split; [exact Hloop|].
    repeat split; congruence.
Qed.

(** A byte count above 0xFFFFFFFC: the counter, a multiple of 4 below
    2^32, never reaches it, and no amount of fuel ends the loop. *)
Lemma transfer_loop_diverges (size src dest : Z) (fuel : nat) :
  0xFFFFFFFC < size ->
  forall (i : Z) (m : Machine),
    0 <= i < 2^32 -> i mod 4 = 0 ->
    transfer_loop fuel i size src dest m = None.
Proof.
  intros Hsize. induction fuel as [|fuel IH]; intros i m Hi Hmod; [reflexivity|].
  rewrite transfer_loop_S.
  assert (Hlt : i < size) by (Z.div_mod_to_equations; lia).
  destruct (Z.ltb_spec i size); [|lia].
  apply IH; [apply wrap32_range|].
  unfold wrap32.
  rewrite Z.mod_mod_divide by (exists (2^30); reflexivity).
  now apply next_index_aligned.
Qed.

(** A pending block copy, in terms of its transfer loop. *)
Lemma handle_block_copy (fuel : nat) (m : Machine) :
  let sm := starlet_memory m in
  let src := read_word m (param_addr sm) in
  let dest := read_word m (wrap32 (param_addr sm + 4)) in
  let size := read_word m (wrap32 (param_addr sm + 8)) in
  command sm = 0x03 \/ command sm = 0x04 ->
  handle_starlet_command fuel m
  = match transfer_loop fuel 0 size src dest m with
    | Some m' =>
        Some (true,
              trigger_interrupt 1
                (set_starlet_memory
                   (mkStarletMemory 0 0x00 (param_addr (starlet_memory m'))
                                    (result_addr (starlet_memory m')) 0x01) m'))
    | None => None
    end.
Proof.
  intros sm src dest size Hcmd.
  unfold handle_starlet_command, starlet_dispatch. fold sm.
  destruct Hcmd as [Hc|Hc]; rewrite Hc; simpl (_ =? _); cbn [orb negb];
    fold src dest size;
    destruct (transfer_loop fuel 0 size src dest m); reflexivity.
Qed.

(** X15.  When a block copy ends.  The loop counter of commands 3 and 4
    is a [uint32_t] that advances by 4.  For a byte count of at most
    0xFFFFFFFC the poll ends, after one round per started word, with
    response 0, status 1, the command cleared and one interrupt request of
    type 1; only memory and the framebuffer can differ otherwise.  For a
    byte count of 0xFFFFFFFD or more the counter wraps to 0 before it
    reaches the count: the poll never returns, whatever the fuel. *)
Theorem block_copy_ends_or_hangs (fuel : nat) (m : Machine) :
  let sm := starlet_memory m in
  let size := read_word m (wrap32 (param_addr sm + 8)) in
  command sm = 0x03 \/ command sm = 0x04 ->
  (size <= 0xFFFFFFFC -> (Z.to_nat ((size + 3) / 4) < fuel)%nat ->
   exists m',
     handle_starlet_command fuel m = Some (true, m')
     /\ response (starlet_memory m') = 0x00
     /\ status (starlet_memory m') = 0x01
     /\ command (starlet_memory m') = 0
     /\ gpr (state m') = gpr (state m)
     /\ running (state m') = running (state m)
     /\ interrupt_vectors m' = interrupt_vectors m
     /\ trigger_calls m' = trigger_calls m ++ [1])
  /\ (0xFFFFFFFC < size -> handle_starlet_command fuel m = None).
Proof.
  intros sm size Hcmd.
  rewrite (handle_block_copy fuel m Hcmd). fold sm size.
  set (src := read_word m (param_addr sm)).
  set (dest := read_word m (wrap32 (param_addr sm + 4))).
  pose proof (read_word_range m (wrap32 (param_addr sm + 8))) as Hrange.
  fold sm size in Hrange.
  split.
  - intros Hsize Hfuel.
    destruct (transfer_loop_ends size src dest (Z.to_nat ((size + 3) / 4))
                Hsize 0 fuel m)
      as (m' & Hloop & Hs & Hsm & Hiv & Hau & Htc);
      [lia | reflexivity | | exact Hfuel |].
    { rewrite Z2Nat.id by (Z.div_mod_to_equations; lia).
      Z.div_mod_to_equations. lia. }
    rewrite Hloop. eexists. split; [reflexivity|].
    set (m5 := set_starlet_memory _ m').
    destruct (trigger_interrupt_frame 1 m5) as (_ & _ & Gsm & Giv & _ & Gtc).
    rewrite Gsm, Giv, Gtc.
    assert (Hstate : gpr (state (trigger_interrupt 1 m5)) = gpr (state m')
                     /\ running (state (trigger_interrupt 1 m5))
                        = running (state m')).
    { unfold trigger_interrupt. cbn [state set_trigger_calls].
      destruct (interrupts_enabled (state m5)); split; reflexivity. }
    destruct Hstate as [-> ->].
    unfold m5. cbn [starlet_memory set_starlet_memory response status command
                    interrupt_vectors trigger_calls].
    rewrite Hs, Hiv, Htc. repeat split.
  - intros Hsize.
    rewrite (transfer_loop_diverges size src dest fuel Hsize 0 m)
      by (lia || reflexivity).
    reflexivity.
Qed.

Lemma block_copy_ends_or_hangs_witness :
  (exists m',
     handle_starlet_command 5 Examples.disjoint_copy = Some (true, m')
     /\ status (starlet_memory m') = 0x01)
  /\ handle_starlet_command 1000 Examples.endless_copy = None.
Proof.
  split.
  - destruct (block_copy_ends_or_hangs 5 Examples.disjoint_copy
                (or_introl eq_refl)) as [Hends _].
    destruct Hends as (m' & Hrun & _ & Hstatus & _).
    + vm_compute. discriminate.
    + apply le_n.
    + exists m'. split; [exact Hrun | exact Hstatus].
  - destruct (block_copy_ends_or_hangs 1000 Examples.endless_copy
                (or_introl eq_refl)) as [_ Hhangs].
    apply Hhangs. reflexivity.
Defined.

(** [read_word] looks at the four bytes of the translated word only. *)
Lemma read_word_bytes (m1 m2 : Machine) (a : Z) :
  (forall d, 0 <= d <= 3 ->
             memory m1 (translate_address a + d) = memory m2 (translate_address a + d)) ->
  read_word m1 a = read_word m2 a.
Proof.
  intros H. unfold read_word.
  destruct (wrap32 (translate_address a + 3) >=? MEMORY_SIZE); [reflexivity|].
  unfold big_endian.
  rewrite <- (Z.add_0_r (translate_address a)) at 1 5.
  now rewrite !H by lia.
Qed.

Lemma aligned_below (j size : Z) :
  j < size -> size <= 0x100000 -> j mod 4 = 0 -> j < 2^20 - 3.
Proof. intros Hj Hsize Hmod. Z.div_mod_to_equations. lia. Qed.

Lemma next_aligned (i j : Z) :
  i <= j -> i mod 4 = 0 -> j mod 4 = 0 -> j = i \/ i + 4 <= j.
Proof. intros Hij Hi Hj. Z.div_mod_to_equations. lia. Qed.

(** The transfer loop from counter [i] on, for a byte count of at most
    1 MB: when the destination words from [i] on are mapped and none of
    them overlaps a source word read in a later round, the loop ends with
    each of these destination words holding what its source word held. *)
Lemma transfer_loop_copies (size src dest : Z) (n : nat) :
  let P := fun j => translate_address (wrap32 (src + j)) in
  let Q := fun j => translate_address (wrap32 (dest + j)) in
  size <= 0x100000 ->
  forall (i : Z) (fuel : nat) (m : Machine),
    0 <= i -> i mod 4 = 0 -> size <= i + 4 * Z.of_nat n -> (n < fuel)%nat ->
    (forall j, i <= j < size -> j mod 4 = 0 -> Q j + 3 < MEMORY_SIZE) ->
    (forall j k, i <= j < k -> k < size -> j mod 4 = 0 -> k mod 4 = 0 ->
                 Q j + 4 <= P k \/ P k + 4 <= Q j) ->
    exists m',
      transfer_loop fuel i size src dest m = Some m'
      /\ (forall j, i <= j < size -> j mod 4 = 0 ->
                    read_word m' (wrap32 (dest + j)) = read_word m (wrap32 (src + j)))
      /\ (forall p, (forall j, i <= j < size -> j mod 4 = 0 ->
                               p < Q j \/ Q j + 3 < p) ->
                    memory m' p = memory m p).
Proof.
  intros P Q Hsize.
  induction n as [|n IH]; intros i fuel m Hi Hmod Hn Hfuel Hin Hapart.
  - destruct fuel as [|fuel]; [lia|]. rewrite transfer_loop_S.
    destruct (Z.ltb_spec i size); [lia|]. exists m.
    split; [reflexivity|]. split; [intros j Hj; lia | reflexivity].
  - destruct fuel as [|fuel]; [lia|]. rewrite transfer_loop_S.
    destruct (Z.ltb_spec i size) as [Hlt|Hge].
    2:{ exists m. split; [reflexivity|].
        split; [intros j Hj; lia | reflexivity]. }
    rewrite (next_index i size Hi Hmod Hlt) by lia.
    set (m1 := transfer_round src dest i m).
    destruct (IH (i + 4) fuel m1) as (m' & Hloop & Hcopy & Hframe).
    { lia. } { now apply next_index_aligned. } { lia. } { lia. }
    { intros j Hj Hj4. apply Hin; [lia | exact Hj4]. }
    { intros j k Hjk Hk Hj4 Hk4. apply Hapart; (lia || assumption). }
    exists m'. split; [exact Hloop|]. split.
    + intros j Hj Hj4.
      destruct (next_aligned i j ltac:(lia) Hmod Hj4) as [->|Hnext].
      * (* the word of this round: later rounds leave it alone *)
        assert (Hkeep : read_word m' (wrap32 (dest + i))
                        = read_word m1 (wrap32 (dest + i))).
        { apply read_word_bytes. intros d Hd. apply Hframe.
          intros k Hk Hk4.
          pose proof (aligned_below k size ltac:(lia) Hsize Hk4) as Hk20.
          pose proof (block_words_apart dest i k ltac:(lia) Hk20 Hmod Hk4) as Ha.
          unfold Q. lia. }
        rewrite Hkeep. unfold m1, transfer_round.
        apply read_write_same; [apply (Hin i); [lia | exact Hmod]|].
        apply read_word_range.
      * rewrite (Hcopy j ltac:(lia) Hj4). unfold m1, transfer_round.
        apply read_write_disjoint.
        pose proof (Hapart i j ltac:(lia) ltac:(lia) Hmod Hj4) as Ha.
        unfold P, Q in Ha. lia.
    + intros p Hp. rewrite Hframe.
      * unfold m1, transfer_round. apply memory_write_word_other.
        apply (Hp i); [lia | exact Hmod].
      * intros j Hj Hj4. apply Hp; [lia | exact Hj4].
Qed.

(** X16.  A block copy of any length up to 1 MB.  A pending command 3 or
    4 whose parameter block gives a byte count of at most 0x100000, whose
    destination words are mapped and none of whose destination words
    overlaps a source word read in a later round: the poll ends with every
    destination word holding what its source word held, one word per
    started group of four bytes (a count that is not a multiple of 4
    copies its last word whole), no byte outside the destination words
    changed, response 0, status 1, the command cleared and one interrupt
    request of type 1. *)
Theorem block_copy_words (fuel : nat) (m : Machine) :
  let sm := starlet_memory m in
  let src := read_word m (param_addr sm) in
  let dest := read_word m (wrap32 (param_addr sm + 4)) in
  let size := read_word m (wrap32 (param_addr sm + 8)) in
  let P := fun j => translate_address (wrap32 (src + j)) in
  let Q := fun j => translate_address (wrap32 (dest + j)) in
  command sm = 0x03 \/ command sm = 0x04 ->
  size <= 0x100000 ->
  (forall j, 0 <= j < size -> j mod 4 = 0 -> Q j + 3 < MEMORY_SIZE) ->
  (forall j k, 0 <= j < k -> k < size -> j mod 4 = 0 -> k mod 4 = 0 ->
               Q j + 4 <= P k \/ P k + 4 <= Q j) ->
  (Z.to_nat ((size + 3) / 4) < fuel)%nat ->
  exists m',
    handle_starlet_command fuel m = Some (true, m')
    /\ block_copied m m' src dest size
    /\ (forall p, (forall j, 0 <= j < size -> j mod 4 = 0 ->
                             p < Q j \/ Q j + 3 < p) ->
                  memory m' p = memory m p)
    /\ response (starlet_memory m') = 0x00
    /\ status (starlet_memory m') = 0x01
    /\ command (starlet_memory m') = 0
    /\ trigger_calls m' = trigger_calls m ++ [1].
Proof.
  intros sm src dest size P Q Hcmd Hsize Hin Hapart Hfuel.
  rewrite (handle_block_copy fuel m Hcmd). fold sm src dest size.
  pose proof (read_word_range m (wrap32 (param_addr sm + 8))) as Hrange.
  fold sm size in Hrange.
  assert (Hrounds : size <= 0 + 4 * Z.of_nat (Z.to_nat ((size + 3) / 4))).
  { rewrite Z2Nat.id by (Z.div_mod_to_equations; lia).
    Z.div_mod_to_equations. lia. }
  destruct (transfer_loop_copies size src dest (Z.to_nat ((size + 3) / 4))
              Hsize 0 fuel m ltac:(lia) eq_refl Hrounds Hfuel Hin Hapart)
    as (m' & Hloop & Hcopy & Hframe).
  destruct (transfer_loop_ends size src dest (Z.to_nat ((size + 3) / 4))
              ltac:(lia) 0 fuel m ltac:(lia) eq_refl Hrounds Hfuel)
    as (m'' & Hloop' & _ & _ & _ & _ & Htc).
  rewrite Hloop in Hloop'. injection Hloop' as <-.
  rewrite Hloop. eexists. split; [reflexivity|].
  set (m5 := set_starlet_memory _ m').
  destruct (trigger_interrupt_frame 1 m5) as (Gmem & _ & Gsm & _ & _ & Gtc).
  assert (Hmem : memory (trigger_interrupt 1 m5) = memory m') by exact Gmem.
  rewrite Gsm, Gtc.
  split.
  { intros j Hj Hj4. rewrite (read_word_memory _ m' _ Hmem).
    now apply Hcopy. }
  split.
  { intros p Hp. rewrite Hmem. now apply Hframe. }
  unfold m5. cbn [starlet_memory set_starlet_memory response status command
                  trigger_calls].
  rewrite Htc. repeat split.
Qed.

Lemma block_copy_words_witness :
  exists m',
    handle_starlet_command 4 Examples.odd_copy = Some (true, m')
    /\ read_word m' 0x80000200 = 0x11111111
    /\ read_word m' 0x80000204 = 0x22222222
    /\ read_word m' 0x80000208 = 0x33333333
    /\ trigger_calls m' = [1].
Proof.
  assert (Hcases : forall j, 0 <= j < 10 -> j mod 4 = 0 -> j = 0 \/ j = 4 \/ j = 8)
    by (intros j Hj Hj4; Z.div_mod_to_equations; lia).
  destruct (block_copy_words 4 Examples.odd_copy)
    as (m' & Hrun & Hcopy & _ & _ & _ & _ & Hcalls).
  - right. reflexivity.
  - vm_compute. discriminate.
  - intros j Hj Hj4.
    destruct (Hcases j Hj Hj4) as [->|[->| ->]]; reflexivity.
  - intros j k Hjk Hk Hj4 Hk4. change (k < 10) in Hk.
    destruct (Hcases j ltac:(lia) Hj4) as [->|[->| ->]];
      destruct (Hcases k ltac:(lia) Hk4) as [->|[->| ->]];
      try lia; right; vm_compute; discriminate.
  - apply le_n.
  - assert (H0 : 0 <= 0 < 10) by lia.
    assert (H4 : 0 <= 4 < 10) by lia.
    assert (H8 : 0 <= 8 < 10) by lia.
    exists m'. split; [exact Hrun|].
    split; [exact (Hcopy 0 H0 eq_refl)|].
    split; [exact (Hcopy 4 H4 eq_refl)|].
    split; [exact (Hcopy 8 H8 eq_refl)|].
    exact Hcalls.
Defined.

(** What [trigger_interrupt] does to the [CPUState], in both cases. *)
Lemma trigger_interrupt_state (t : Z) (m : Machine) :
  let m' := trigger_interrupt t m in
  gpr (state m') = gpr (state m)
  /\ running (state m') = running (state m)
  /\ (interrupts_enabled (state m) = true ->
      pc (state m') = get_interrupt_vector m t
      /\ spr (state m') 8 = pc (state m)
      /\ interrupts_enabled (state m') = false)
  /\ (interrupts_enabled (state m) = false -> state m' = state m).
Proof.
  unfold trigger_interrupt. cbn [state set_trigger_calls].
  destruct (interrupts_enabled (state m)).
  - cbn [state set_state set_kernel_mode set_interrupts_enabled set_pc set_spr
         gpr running pc spr interrupts_enabled].
    rewrite upd_same.
    split; [reflexivity|]. split; [reflexivity|].
    split; [intros _; repeat split | intros Hoff; discriminate].
  - split; [reflexivity|]. split; [reflexivity|].
    split; [intros Hon; discriminate | intros _; reflexivity].
Qed.

(** X17.  The commands without a transfer: 1 (initialize), 2 (reset) and
    every command number that has no [case].  The poll always returns, with
    no use of fuel, having set status to 1, cleared the command and made
    exactly one interrupt request of type 1; the response is 0 for the
    commands 1 and 2 and 0xFF for an unknown command; memory, the
    framebuffer, the audio state, the two address fields of the mailbox
    and the general registers are untouched.  With interrupts enabled the
    CPU is now in the handler of vector 1; with interrupts disabled its
    state is unchanged and the request is lost.  The next poll finds the
    mailbox idle. *)
Theorem plain_command_outcome (fuel : nat) (m : Machine) :
  let sm := starlet_memory m in
  command sm <> 0 -> command sm <> 0x03 -> command sm <> 0x04 ->
  command sm <> 0x05 ->
  exists m',
    handle_starlet_command fuel m = Some (true, m')
    /\ starlet_memory m'
       = mkStarletMemory 0 (if (command sm =? 0x01) || (command sm =? 0x02)
                            then 0x00 else 0xFF)
                         (param_addr sm) (result_addr sm) 0x01
    /\ trigger_calls m' = trigger_calls m ++ [1]
    /\ memory m' = memory m
    /\ framebuffer m' = framebuffer m
    /\ audio_state m' = audio_state m
    /\ gpr (state m') = gpr (state m)
    /\ (interrupts_enabled (state m) = true ->
        pc (state m') = get_interrupt_vector m 1
        /\ spr (state m') 8 = pc (state m))
    /\ (interrupts_enabled (state m) = false -> state m' = state m)
    /\ handle_starlet_command fuel m' = Some (false, m').
Proof.
  intros sm H0 H3 H4 H5.
  set (r := if (command sm =? 0x01) || (command sm =? 0x02) then 0x00 else 0xFF).
  set (m3 := set_starlet_memory
               (mkStarletMemory 0 r (param_addr sm) (result_addr sm) 0x01) m).
  assert (Hrun : handle_starlet_command fuel m = Some (true, trigger_interrupt 1 m3)).
  { unfold handle_starlet_command, starlet_dispatch. fold sm.
    apply Z.eqb_neq in H0, H3, H4, H5. rewrite H0, H3, H4, H5.
    cbn [negb orb]. unfold m3, r.
    destruct ((command sm =? 0x01) || (command sm =? 0x02)); reflexivity. }
  destruct (trigger_interrupt_frame 1 m3) as (Gmem & Gfb & Gsm & _ & Gau & Gtc).
  destruct (trigger_interrupt_state 1 m3) as (Ggpr & _ & Gon & Goff).
  exists (trigger_interrupt 1 m3). split; [exact Hrun|].
  split; [rewrite Gsm; reflexivity|].
  split; [rewrite Gtc; reflexivity|].
  split; [rewrite Gmem; reflexivity|].
  split; [rewrite Gfb; reflexivity|].
  split; [rewrite Gau; reflexivity|].
  split; [rewrite Ggpr; reflexivity|].
  split; [intros Hie; destruct (Gon Hie) as (Hpc & Hlr & _); split; assumption|].
  split; [exact Goff|].
  unfold handle_starlet_command. rewrite Gsm. reflexivity.
Qed.

Lemma plain_command_outcome_witness :
  let m := set_starlet_memory (mkStarletMemory 0x77 0 0 0 0) Examples.armed_machine in
  exists m',
    handle_starlet_command 0 m = Some (true, m')
    /\ response (starlet_memory m') = 0xFF
    /\ status (starlet_memory m') = 0x01
    /\ spr (state m') 8 = 0x80000040.
Proof.
  intros m.
  assert (N0 : command (starlet_memory m) <> 0) by discriminate.
  assert (N3 : command (starlet_memory m) <> 0x03) by discriminate.
  assert (N4 : command (starlet_memory m) <> 0x04) by discriminate.
  assert (N5 : command (starlet_memory m) <> 0x05) by discriminate.
  assert (Harmed : interrupts_enabled (state m) = true) by reflexivity.
  destruct (plain_command_outcome 0 m N0 N3 N4 N5)
    as (m' & Hrun & Hsm & _ & _ & _ & _ & _ & Hon & _).
  exists m'. split; [exact Hrun|].
  rewrite Hsm. split; [reflexivity|]. split; [reflexivity|].
  exact (proj2 (Hon Harmed)).
Defined.

(** The copy loop of command 5, entry by entry. *)
Lemma audio_copy_loop_spec (rounds : nat) (buffer_addr : Z) (mem : Z -> Z) :
  forall (i : Z) (buf : Z -> Z) (j : Z),
    audio_copy_loop rounds i buffer_addr mem buf j
    = if (i <=? j) && (j <? i + Z.of_nat rounds)
      then mem (translate_address (wrap32 (buffer_addr + j)))
      else buf j.
Proof.
  induction rounds as [|rounds IH]; intros i buf j.
  - cbn [audio_copy_loop].
    destruct (Z.leb_spec i j), (Z.ltb_spec j (i + Z.of_nat 0)); reflexivity || lia.
  - cbn [audio_copy_loop]. rewrite IH.
    destruct (Z.leb_spec (i + 1) j), (Z.ltb_spec j (i + 1 + Z.of_nat rounds)),
      (Z.leb_spec i j), (Z.ltb_spec j (i + Z.of_nat (S rounds)));
      cbn [andb]; try lia; try reflexivity;
      unfold upd; destruct (Z.eqb_spec j i); try lia; subst; reflexivity.
Qed.

(** X18.  Command 5, the audio buffer update.  When the audio device is
    initialised and the requested size fits the buffer, the first [size]
    entries of the audio buffer receive the bytes of memory at
    [buffer_addr + i], each address translated on its own and each offset
    inside the memory buffer; the rest of the audio buffer, its size and
    position, and memory are unchanged, and the response is 0.  Otherwise
    nothing is copied and the response is 1.  In both cases the poll
    returns with status 1 and the command cleared. *)
Theorem audio_buffer_update (fuel : nat) (m : Machine) :
  let sm := starlet_memory m in
  let a := audio_state m in
  let buffer_addr := read_word m (param_addr sm) in
  let size := read_word m (wrap32 (param_addr sm + 4)) in
  command sm = 0x05 ->
  exists m',
    handle_starlet_command fuel m = Some (true, m')
    /\ status (starlet_memory m') = 0x01
    /\ command (starlet_memory m') = 0
    /\ memory m' = memory m
    /\ buffer_size (audio_state m') = buffer_size a
    /\ position (audio_state m') = position a
    /\ initialized (audio_state m') = initialized a
    /\ (initialized a = true -> size <= buffer_size a ->
        response (starlet_memory m') = 0x00
        /\ forall i,
             buffer (audio_state m') i
             = if (0 <=? i) && (i <? size)
               then memory m (translate_address (wrap32 (buffer_addr + i)))
               else buffer a i)
    /\ (initialized a = false \/ buffer_size a < size ->
        response (starlet_memory m') = 0x01
        /\ audio_state m' = a)
    /\ forall i, 0 <= translate_address (wrap32 (buffer_addr + i)) < MEMORY_SIZE.
Proof.
  intros sm a buffer_addr size Hcmd.
  pose proof (read_word_range m (wrap32 (param_addr sm + 4))) as Hsize.
  fold sm size in Hsize.
  assert (Hbound : forall i,
             0 <= translate_address (wrap32 (buffer_addr + i)) < MEMORY_SIZE).
  { intros i. pose proof (translate_address_range (wrap32 (buffer_addr + i))).
    unfold MEM_MASK in *. lia. }
  unfold handle_starlet_command, starlet_dispatch. fold sm a.
  rewrite Hcmd. simpl (_ =? _). cbn [negb orb]. fold buffer_addr size.
  destruct (initialized a) eqn:Hinit;
    [destruct (Z.leb_spec size (buffer_size a)) as [Hfit|Hbig]|];
    cbn [andb]; eexists; (split; [reflexivity|]);
    match goal with
    | |- context [trigger_interrupt 1 ?x] =>
        destruct (trigger_interrupt_frame 1 x) as (-> & _ & -> & _ & -> & _)
    end;
    cbn [starlet_memory set_starlet_memory set_status set_command set_response
         status command response param_addr result_addr memory audio_state
         set_audio_state buffer_size position initialized buffer];
    fold a; rewrite ?Hinit;
    (split; [reflexivity|]); (split; [reflexivity|]); (split; [reflexivity|]);
    (split; [reflexivity|]); (split; [reflexivity|]); (split; [reflexivity|]).
  - split; [|split; [|exact Hbound]].
    + intros _ _. split; [reflexivity|].
      intros i. rewrite audio_copy_loop_spec.
      rewrite Z2Nat.id by lia. reflexivity.
    + intros [Hoff|Hover]; [discriminate | lia].
  - split; [|split; [|exact Hbound]].
    + intros _ Hle. lia.
    + intros _. split; reflexivity.
  - split; [|split; [|exact Hbound]].
    + intros Hon. discriminate.
    + intros _. split; reflexivity.
Qed.

Lemma audio_buffer_update_witness :
  exists m',
    handle_starlet_command 0 Examples.audio_request = Some (true, m')
    /\ response (starlet_memory m') = 0x00
    /\ buffer (audio_state m') 0 = 0xBB
    /\ buffer (audio_state m') 1 = 0xCC
    /\ buffer (audio_state m') 2 = 0.
Proof.
  destruct (audio_buffer_update 0 Examples.audio_request eq_refl)
    as (m' & Hrun & _ & _ & _ & _ & _ & _ & Hcopy & _).
  assert (Hfit : read_word Examples.audio_request
                   (wrap32 (param_addr (starlet_memory Examples.audio_request) + 4))
                 <= buffer_size (audio_state Examples.audio_request))
    by (vm_compute; discriminate).
  destruct (Hcopy eq_refl Hfit) as (Hresp & Hbuf).
  exists m'. split; [exact Hrun|]. split; [exact Hresp|].
  split; [exact (Hbuf 0)|]. split; [exact (Hbuf 1) | exact (Hbuf 2)].
Defined.

End EmuWiiV1Mailbox.

(** ** src/emuwiiv0.cpp: more on the [Memory] class *)

Module EmuWiiV0Memory.
Import EmuWiiV0 EmuWiiV0Facts.

(** [MEM2_SIZE] is a power of two: its mask keeps the offset inside the
    window and drops the base. *)
Lemma mem2_offset_window (x : Z) :
  0 <= x < MEM2_SIZE ->
  mem2_offset (0x90000000 + x) = x /\ mem2_offset (0xD0000000 + x) = x.
Proof.
  unfold mem2_offset, MEM2_SIZE. intros Hx.
  change (64 * 1024 * 1024 - 1) with (Z.ones 26).
  rewrite !Z.land_ones by lia.
  change 0x90000000 with (36 * 2^26). change 0xD0000000 with (52 * 2^26).
  rewrite (Z.add_comm (36 * 2^26)), (Z.add_comm (52 * 2^26)).
  rewrite !Z_mod_plus_full.
  change (64 * 1024 * 1024) with (2^26) in Hx.
  split; apply Z.mod_small; exact Hx.
Qed.

Lemma outside_mem1_window (a : Z) :
  0x90000000 <= a -> a < 0xC0000000 \/ 0xD0000000 <= a ->
  in_mem1_window a = false.
Proof.
  unfold in_mem1_window, MEM1_SIZE. intros Hlow Hhigh.
  apply orb_false_iff. split; apply andb_false_iff.
  - right. apply Z.ltb_ge. lia.
  - destruct Hhigh as [H|H]; [left; apply Z.leb_gt | right; apply Z.ltb_ge]; lia.
Qed.

Lemma in_mem2_window_both (x : Z) :
  0 <= x < MEM2_SIZE ->
  in_mem1_window (0x90000000 + x) = false
  /\ in_mem1_window (0xD0000000 + x) = false
  /\ in_mem2_window (0x90000000 + x) = true
  /\ in_mem2_window (0xD0000000 + x) = true.
Proof.
  intros Hx.
  split; [apply outside_mem1_window; unfold MEM2_SIZE in Hx; lia|].
  split; [apply outside_mem1_window; unfold MEM2_SIZE in Hx; lia|].
  unfold in_mem2_window.
  split; apply orb_true_iff; [left | right]; apply andb_true_iff;
    (split; [apply Z.leb_le | apply Z.ltb_lt]); lia.
Qed.

(** X19.  The two MEM2 windows of the [Memory] class, 0x90000000 and
    0xD0000000, share one buffer, offset for offset: for every offset [x]
    whose word fits (x + 3 < 64 MB) a word written through one window is
    read back through the other and through itself.  In the last three
    bytes of a window the word does not fit: the write is dropped and the
    read gives 0. *)
Theorem mem2_windows_alias (x : Z) (Hx : 0 <= x < MEM2_SIZE) :
  mem2_offset (0x90000000 + x) = x
  /\ mem2_offset (0xD0000000 + x) = x
  /\ (x + 3 < MEM2_SIZE ->
      forall m v, 0 <= v < 2^32 ->
        read32 (write32 (0x90000000 + x) v m) (0xD0000000 + x) = v
        /\ read32 (write32 (0xD0000000 + x) v m) (0x90000000 + x) = v
        /\ read32 (write32 (0x90000000 + x) v m) (0x90000000 + x) = v)
  /\ (MEM2_SIZE <= x + 3 ->
      forall m v,
        write32 (0x90000000 + x) v m = m
        /\ write32 (0xD0000000 + x) v m = m
        /\ read32 m (0x90000000 + x) = 0
        /\ read32 m (0xD0000000 + x) = 0).
Proof.
  destruct (mem2_offset_window x Hx) as [Olow Ohigh].
  destruct (in_mem2_window_both x Hx) as (N1 & N2 & W1 & W2).
  split; [exact Olow|]. split; [exact Ohigh|].
  split.
  - intros Hfit m v Hv.
    unfold read32, write32. rewrite N1, N2, W1, W2, Olow, Ohigh.
    destruct (Z.ltb_spec (x + 3) MEM2_SIZE); [|lia].
    cbn [mem2]. repeat split; now apply big_endian_store.
  - intros Hedge m v.
    unfold read32, write32. rewrite N1, N2, W1, W2, Olow, Ohigh.
    destruct (Z.ltb_spec (x + 3) MEM2_SIZE); [lia|].
    repeat split.
Qed.

Lemma mem2_windows_alias_witness :
  read32 (write32 0x90000010 0xCAFEBABE Examples.fresh_memory) 0xD0000010
  = 0xCAFEBABE
  /\ read32 (write32 0x93FFFFFE 0xCAFEBABE Examples.fresh_memory) 0x93FFFFFE = 0.
Proof.
  assert (H1 : 0 <= 0x10 < MEM2_SIZE) by (split; [discriminate | reflexivity]).
  assert (H2 : 0 <= 0x3FFFFFE < MEM2_SIZE) by (split; [discriminate | reflexivity]).
  destruct (mem2_windows_alias 0x10 H1) as (_ & _ & Hfit & _).
  destruct (mem2_windows_alias 0x3FFFFFE H2) as (_ & _ & _ & Hedge).
  split.
  - apply (Hfit eq_refl Examples.fresh_memory 0xCAFEBABE).
    split; [discriminate | reflexivity].
  - assert (Hover : MEM2_SIZE <= 0x3FFFFFE + 3) by discriminate.
    destruct (Hedge Hover Examples.fresh_memory 0xCAFEBABE) as (Hw & _ & Hr & _).
    change (write32 0x93FFFFFE 0xCAFEBABE Examples.fresh_memory)
      with (write32 (0x90000000 + 0x3FFFFFE) 0xCAFEBABE Examples.fresh_memory).
    rewrite Hw. exact Hr.
Defined.

(** [MEM1_SIZE - 1] = 0x17FFFFF has bits 0-22 and bit 24, not bit 23. *)
Lemma mem1_mask_low (x : Z) : 0 <= x < 2^23 -> Z.land x (MEM1_SIZE - 1) = x.
Proof.
  intros H. apply (land_covered x (MEM1_SIZE - 1) 23); [lia | exact H | reflexivity].
Qed.

Lemma mem1_offset_cases (h x : Z) :
  0 <= h < 4 -> 0 <= x < 2^23 ->
  mem1_offset (0x80000000 + (h * 2^23 + x))
  = (if 2 <=? h then 2^24 else 0) + x.
Proof.
  intros Hh Hx. unfold mem1_offset.
  rewrite (land_mask_mod _ (MEM1_SIZE - 1) 25)
    by (try split; discriminate || reflexivity).
  replace ((0x80000000 + (h * 2^23 + x)) mod 2^25) with (h * 2^23 + x)
    by (Z.div_mod_to_equations; lia).
  rewrite (add_high_low h x 23) by lia.
  rewrite Z.land_lor_distr_l, (mem1_mask_low x) by exact Hx.
  assert (Hcase : h = 0 \/ h = 1 \/ h = 2 \/ h = 3) by lia.
  destruct Hcase as [->|[->|[->| ->]]].
  - change (Z.land (0 * 2^23) (MEM1_SIZE - 1)) with 0. reflexivity.
  - change (Z.land (1 * 2^23) (MEM1_SIZE - 1)) with 0. reflexivity.
  - change (Z.land (2 * 2^23) (MEM1_SIZE - 1)) with (2 * 2^23).
    rewrite <- (add_high_low 2 x 23) by lia. reflexivity.
  - change (Z.land (3 * 2^23) (MEM1_SIZE - 1)) with (2 * 2^23).
    rewrite <- (add_high_low 2 x 23) by lia. reflexivity.
Qed.

Lemma in_mem1_window_first (o : Z) :
  0 <= o < MEM1_SIZE -> in_mem1_window (0x80000000 + o) = true.
Proof.
  unfold in_mem1_window. intros H.
  apply orb_true_iff. left. apply andb_true_iff.
  split; [apply Z.leb_le | apply Z.ltb_lt]; lia.
Qed.

(** X20.  MEM1 of the [Memory] class is 24 MB, which is not a power of
    two, and its offset is taken with the mask [MEM1_SIZE - 1]: bit 23 of
    the offset is dropped.  So the second 8 MB of the window are folded
    onto the first 8 MB (a word written at 0x80800000 + x is read at
    0x80000000 + x), the third 8 MB are found at offset 16 MB, and the
    bytes 0x800000 .. 0xFFFFFF of [mem1] are never reached by any
    address. *)
Theorem mem1_window_folds (x : Z) (Hx : 0 <= x < 0x800000) :
  mem1_offset (0x80000000 + x) = x
  /\ mem1_offset (0x80800000 + x) = x
  /\ mem1_offset (0x81000000 + x) = 0x1000000 + x
  /\ (forall a, Z.testbit (mem1_offset a) 23 = false)
  /\ forall m v, 0 <= v < 2^32 ->
       read32 (write32 (0x80800000 + x) v m) (0x80000000 + x) = v
       /\ read32 (write32 (0x80000000 + x) v m) (0x80800000 + x) = v.
Proof.
  assert (H0 : mem1_offset (0x80000000 + x) = x).
  { replace (0x80000000 + x) with (0x80000000 + (0 * 2^23 + x)) by lia.
    rewrite mem1_offset_cases by lia. reflexivity. }
  assert (H1 : mem1_offset (0x80800000 + x) = x).
  { replace (0x80800000 + x) with (0x80000000 + (1 * 2^23 + x)) by lia.
    rewrite mem1_offset_cases by lia. reflexivity. }
  assert (H2 : mem1_offset (0x81000000 + x) = 0x1000000 + x).
  { replace (0x81000000 + x) with (0x80000000 + (2 * 2^23 + x)) by lia.
    rewrite mem1_offset_cases by lia. reflexivity. }
  assert (W0 : in_mem1_window (0x80000000 + x) = true)
    by (apply in_mem1_window_first; unfold MEM1_SIZE; lia).
  assert (W1 : in_mem1_window (0x80800000 + x) = true).
  { replace (0x80800000 + x) with (0x80000000 + (0x800000 + x)) by lia.
    apply in_mem1_window_first. unfold MEM1_SIZE. lia. }
  split; [exact H0|]. split; [exact H1|]. split; [exact H2|].
  split.
  { intros a. unfold mem1_offset. rewrite Z.land_spec.
    change (Z.testbit (MEM1_SIZE - 1) 23) with false. apply andb_false_r. }
  intros m v Hv.
  split.
  - rewrite (read32_write32_mem1 m _ _ v W1 W0) by congruence.
    rewrite H1.
    destruct (Z.ltb_spec (x + 3) MEM1_SIZE); [|unfold MEM1_SIZE in *; lia].
    now apply big_endian_store.
  - rewrite (read32_write32_mem1 m _ _ v W0 W1) by congruence.
    rewrite H0.
    destruct (Z.ltb_spec (x + 3) MEM1_SIZE); [|unfold MEM1_SIZE in *; lia].
    now apply big_endian_store.
Qed.

Lemma mem1_window_folds_witness :
  read32 (write32 0x80800020 0x0BADF00D Examples.fresh_memory) 0x80000020
  = 0x0BADF00D.
Proof.
  assert (Hx : 0 <= 0x20 < 0x800000) by (split; [discriminate | reflexivity]).
  destruct (mem1_window_folds 0x20 Hx) as (_ & _ & _ & _ & Hfold).
  apply (Hfold Examples.fresh_memory 0x0BADF00D).
  split; [discriminate | reflexivity].
Defined.

(** X21.  The I/O registers of the [Memory] class.  The background-colour
    register 0x0D000000 and the audio-frequency register 0x0D000008 read
    back the last word written and pass it to the device when one is
    connected; the two do not disturb each other.  The input register
    0x0D000004 ignores writes and reads the button state of the connected
    input device, or 0 without one.  No register write changes MEM1 or
    MEM2.  Every other address outside the four RAM windows reads 0 and
    ignores writes. *)
Theorem io_registers (m : Memory) (v : Z) :
  let bg := write32 REG_VIDEO_BG_COLOR v m in
  let fr := write32 REG_AUDIO_FREQ v m in
  read32 bg REG_VIDEO_BG_COLOR = v
  /\ video bg = match video m with Some _ => Some v | None => None end
  /\ read32 bg REG_AUDIO_FREQ = read32 m REG_AUDIO_FREQ
  /\ read32 fr REG_AUDIO_FREQ = v
  /\ audio fr = match audio m with Some _ => Some v | None => None end
  /\ read32 fr REG_VIDEO_BG_COLOR = read32 m REG_VIDEO_BG_COLOR
  /\ write32 REG_INPUT_STATE v m = m
  /\ read32 m REG_INPUT_STATE
     = match input m with Some buttons => buttons | None => 0 end
  /\ mem1 bg = mem1 m /\ mem2 bg = mem2 m
  /\ mem1 fr = mem1 m /\ mem2 fr = mem2 m
  /\ forall a,
       in_mem1_window a = false -> in_mem2_window a = false ->
       a <> REG_VIDEO_BG_COLOR -> a <> REG_INPUT_STATE -> a <> REG_AUDIO_FREQ ->
       read32 m a = 0 /\ write32 a v m = m.
Proof.
  intros bg fr.
  assert (Hbg : bg = mkMemory (mem1 m) (mem2 m)
                       (match video m with Some _ => Some v | None => None end)
                       (audio m) (input m) v (audioFreqValue m))
    by reflexivity.
  assert (Hfr : fr = mkMemory (mem1 m) (mem2 m) (video m)
                       (match audio m with Some _ => Some v | None => None end)
                       (input m) (videoBgColor m) v)
    by reflexivity.
  rewrite Hbg, Hfr.
  do 12 (split; [reflexivity|]).
  intros a N1 N2 Nbg Nin Nfr.
  apply Z.eqb_neq in Nbg, Nin, Nfr.
  unfold read32, write32. rewrite N1, N2, Nbg, Nin, Nfr.
  split; reflexivity.
Qed.

Lemma io_registers_witness :
  read32 (write32 REG_VIDEO_BG_COLOR 0x00FF00 Examples.fresh_memory)
         REG_VIDEO_BG_COLOR = 0x00FF00
  /\ read32 Examples.fresh_memory 0x0D00000C = 0
  /\ write32 0x0D00000C 0x00FF00 Examples.fresh_memory = Examples.fresh_memory.
Proof.
  destruct (io_registers Examples.fresh_memory 0x00FF00)
    as (Hbg & _ & _ & _ & _ & _ & _ & _ & _ & _ & _ & _ & Hother).
  split; [exact Hbg|].
  apply (Hother 0x0D00000C); try reflexivity; discriminate.
Defined.

End EmuWiiV0Memory.

(** ** src/wiiemu.cpp: interrupts and the emulation loop *)

Module WiiEmuLoop.
Import WiiEmu WiiEmuFacts.

(** No instruction of this draft touches the two flags or the mailbox. *)
Lemma execute_keeps_flags (instruction : Z) (m : Machine) :
  let m' := execute_instruction instruction m in
  interrupts_enabled (state m') = interrupts_enabled (state m)
  /\ kernel_mode (state m') = kernel_mode (state m)
  /\ starlet_memory m' = starlet_memory m.
Proof.
  unfold execute_instruction. cbv zeta.
  repeat match goal with |- context [if ?c then _ else _] => destruct c end;
    repeat split.
Qed.

Lemma handle_keeps_running (m : Machine) :
  let m' := snd (handle_starlet_command m) in
  running (state m') = running (state m)
  /\ kernel_mode (state m') = kernel_mode (state m)
  /\ memory m' = memory m
  /\ (interrupts_enabled (state m) = false -> state m' = state m)
  /\ (interrupts_enabled (state m) = true -> command (starlet_memory m) <> 0 ->
      pc (state m') = 0x80000000 /\ interrupts_enabled (state m') = false).
Proof.
  unfold handle_starlet_command, trigger_interrupt.
  destruct (Z.eqb_spec (command (starlet_memory m)) 0) as [Hidle|Hbusy];
    cbn [negb snd state set_starlet_memory];
    destruct (interrupts_enabled (state m));
    cbn [state set_state set_pc set_interrupts_enabled running kernel_mode
         memory set_starlet_memory pc interrupts_enabled];
    (split; [reflexivity|]); (split; [reflexivity|]); (split; [reflexivity|]);
    split; intros; try discriminate; try reflexivity; try contradiction;
    split; reflexivity.
Qed.

(** A word whose last byte would lie at or past the end of [memory] reads
    as 0; this covers every address of the Wii address space from
    0x80000000 on, since this draft does not translate addresses. *)
Lemma read_word_high (m : Machine) (a : Z) :
  MEMORY_SIZE - 3 <= a <= 0xFFFFFFFC -> read_word m a = 0.
Proof.
  unfold MEMORY_SIZE. intros Ha. unfold read_word.
  rewrite wrap32_small by lia.
  destruct (Z.geb_spec (a + 3) MEMORY_SIZE); [reflexivity|].
  unfold MEMORY_SIZE in *. lia.
Qed.

(** A round that starts with pc out of range stops the emulator. *)
Lemma stray_pc_stops (m : Machine) :
  MEMORY_SIZE - 3 <= pc (state m) <= 0xFFFFFFFC ->
  running (state (emulation_step m)) = false.
Proof.
  intros Hpc. unfold emulation_step, fetch_instruction.
  rewrite (read_word_high m _ Hpc).
  rewrite (execute_unrecognized 0 m eq_refl).
  destruct (handle_keeps_running (set_state (set_running false (state m)) m))
    as (-> & _).
  reflexivity.
Qed.

(** X22.  In the draft src/wiiemu.cpp a taken interrupt is fatal.  The
    only interrupt vector is 0x80000000 and addresses are not translated,
    so the vector lies outside the 88 MB buffer.  With interrupts enabled
    and a Starlet command pending, the round completes the command and
    enters the handler at 0x80000000; the next fetch is out of bounds and
    reads 0, opcode 0 has no [case], and the emulator stops: after two
    rounds at most [running] is false.  More generally any round that
    starts with pc between 0x057FFFFD and 0xFFFFFFFC stops the emulator. *)
Theorem taken_interrupt_halts (m : Machine) :
  (MEMORY_SIZE - 3 <= pc (state m) <= 0xFFFFFFFC ->
   fetch_instruction m = 0 /\ running (state (emulation_step m)) = false)
  /\ (interrupts_enabled (state m) = true ->
      command (starlet_memory m) <> 0 ->
      pc (state (emulation_step m)) = 0x80000000
      /\ interrupts_enabled (state (emulation_step m)) = false
      /\ command (starlet_memory (emulation_step m)) = 0
      /\ running (state (emulation_loop 2 m)) = false).
Proof.
  split.
  - intros Hpc. split; [now apply read_word_high | now apply stray_pc_stops].
  - intros Hon Hbusy.
    set (m0 := execute_instruction (fetch_instruction m) m).
    destruct (execute_keeps_flags (fetch_instruction m) m) as (Hie & _ & Hsm).
    fold m0 in Hie, Hsm.
    destruct (handle_keeps_running m0) as (_ & _ & _ & _ & Htaken).
    destruct Htaken as [Hpc Hoff]; [congruence | congruence |].
    assert (Hstep : emulation_step m = snd (handle_starlet_command m0))
      by reflexivity.
    rewrite Hstep.
    split; [exact Hpc|]. split; [exact Hoff|].
    split.
    { unfold handle_starlet_command.
      destruct (Z.eqb_spec (command (starlet_memory m0)) 0) as [Hidle|_];
        [congruence|].
      cbn [negb snd]. unfold trigger_interrupt.
      cbn [state set_starlet_memory].
      destruct (interrupts_enabled (state m0)); reflexivity. }
    cbn [emulation_loop].
    destruct (running (state m)) eqn:Hrun; [|exact Hrun].
    rewrite Hstep.
    destruct (running (state (snd (handle_starlet_command m0)))) eqn:Hrun1;
      [|exact Hrun1].
    apply stray_pc_stops. rewrite Hpc. unfold MEMORY_SIZE.
    split; discriminate.
Qed.

Lemma taken_interrupt_halts_witness :
  let m := set_starlet_memory (mkStarletMemory 0x01 0)
             (set_state (set_interrupts_enabled true (state Examples.wiiemu_add))
                        Examples.wiiemu_add) in
  running (state (emulation_step m)) = true
  /\ pc (state (emulation_step m)) = 0x80000000
  /\ running (state (emulation_loop 2 m)) = false.
Proof.
  intros m.
  destruct (taken_interrupt_halts m) as [_ Htaken].
  assert (Hbusy : command (starlet_memory m) <> 0) by discriminate.
  destruct (Htaken eq_refl Hbusy) as (Hpc & _ & _ & Hhalt).
  split; [reflexivity|]. split; [exact Hpc | exact Hhalt].
Defined.

(** X23.  In the draft src/wiiemu.cpp nothing enables interrupts.  The
    [CPUState] constructor disables them, no instruction and no Starlet
    command sets the flag, so from a state with interrupts disabled the
    flag stays clear for any number of rounds: every Starlet completion
    is answered in the mailbox, but its interrupt never reaches the CPU,
    and [kernel_mode] never changes either. *)
Theorem interrupts_stay_disabled (n : nat) (m : Machine) :
  interrupts_enabled (state m) = false ->
  let m' := emulation_loop n m in
  interrupts_enabled (state m') = false
  /\ kernel_mode (state m') = kernel_mode (state m)
  /\ command (starlet_memory (emulation_step m)) = 0
  /\ state (emulation_step m)
     = state (execute_instruction (fetch_instruction m) m).
Proof.
  intros Hoff m'.
  assert (Hstep : forall x, interrupts_enabled (state x) = false ->
            interrupts_enabled (state (emulation_step x)) = false
            /\ kernel_mode (state (emulation_step x)) = kernel_mode (state x)
            /\ state (emulation_step x)
               = state (execute_instruction (fetch_instruction x) x)).
  { intros x Hx. unfold emulation_step.
    set (x0 := execute_instruction (fetch_instruction x) x).
    destruct (execute_keeps_flags (fetch_instruction x) x) as (Hie & Hkm & _).
    fold x0 in Hie, Hkm.
    destruct (handle_keeps_running x0) as (_ & _ & _ & Hsame & _).
    rewrite (Hsame ltac:(congruence)). repeat split; congruence. }
  assert (Hloop : forall k x, interrupts_enabled (state x) = false ->
            interrupts_enabled (state (emulation_loop k x)) = false
            /\ kernel_mode (state (emulation_loop k x)) = kernel_mode (state x)).
  { induction k as [|k IH]; intros x Hx; [split; [exact Hx | reflexivity]|].
    cbn [emulation_loop].
    destruct (running (state x)); [|split; [exact Hx | reflexivity]].
    destruct (Hstep x Hx) as (H1 & H2 & _).
    destruct (IH (emulation_step x) H1) as (H3 & H4).
    split; [exact H3 | congruence]. }
  destruct (Hloop n m Hoff) as (H1 & H2).
  destruct (Hstep m Hoff) as (_ & _ & H3).
  split; [exact H1|]. split; [exact H2|]. split; [|exact H3].
  unfold emulation_step, handle_starlet_command.
  set (m0 := execute_instruction (fetch_instruction m) m).
  destruct (Z.eqb_spec (command (starlet_memory m0)) 0) as [Hidle|Hbusy];
    cbn [negb snd]; [exact Hidle|].
  unfold trigger_interrupt. cbn [state set_starlet_memory].
  destruct (interrupts_enabled (state m0)); reflexivity.
Qed.

Lemma interrupts_stay_disabled_witness :
  interrupts_enabled (state (emulation_loop 50 Examples.wiiemu_add)) = false.
Proof.
  destruct (interrupts_stay_disabled 50 Examples.wiiemu_add eq_refl) as (H & _).
  exact H.
Defined.

End WiiEmuLoop.

(** ** src/emuwiiv0.cpp: the draft headed "emulator.cpp" *)

Module EmulatorFacts.
Import Emulator.

(** The four bytes of a word, put together least significant first. *)
Lemma bytes_of_word_le (v : Z) :
  0 <= v < 2^32 ->
  Z.lor (Z.lor (Z.lor (Z.land v 0xFF)
                      (Z.shiftl (Z.land (Z.shiftr v 8) 0xFF) 8))
               (Z.shiftl (Z.land (Z.shiftr v 16) 0xFF) 16))
        (Z.shiftl (Z.land (Z.shiftr v 24) 0xFF) 24) = v.
Proof.
  intros Hv. rewrite <- (bytes_of_word v Hv) at 5.
  apply Z.bits_inj'. intros n Hn. rewrite !Z.lor_spec.
  repeat match goal with |- context [Z.testbit ?x n] =>
    let b := fresh "b" in set (b := Z.testbit x n); clearbody b end.
  repeat match goal with b : bool |- _ => destruct b end; reflexivity.
Qed.

Lemma little_endian_store (bytes : Z -> Z) (p v : Z) :
  0 <= v < 2^32 -> little_endian (store_little_endian bytes p v) p = v.
Proof.
  intros Hv. unfold little_endian, store_little_endian.
  rewrite upd_same.
  rewrite (upd_other _ (p + 3) (p + 2)), upd_same by lia.
  rewrite (upd_other _ (p + 3) (p + 1)), (upd_other _ (p + 2) (p + 1)),
    upd_same by lia.
  rewrite (upd_other _ (p + 3) p), (upd_other _ (p + 2) p),
    (upd_other _ (p + 1) p), upd_same by lia.
  rewrite bytes_of_word_le by exact Hv.
  now apply wrap32_small.
Qed.

Lemma read_write_word (m : Machine) (a v : Z) :
  a <= MEMORY_SIZE - 4 -> 0 <= v < 2^32 ->
  read_word (write_word a v m) a = v.
Proof.
  intros Ha Hv. unfold read_word, write_word.
  destruct (Z.gtb_spec a (MEMORY_SIZE - 4)); [lia|].
  cbn [memory set_memory]. now apply little_endian_store.
Qed.

(** The bounds test of LW and SW, on the signed address. *)
Lemma out_of_bounds_spec (address : Z) :
  - 2^31 <= address < 2^31 ->
  out_of_bounds address
  = negb ((0 <=? address) && (address <=? MEMORY_SIZE - 4)).
Proof.
  intros Hrange. unfold out_of_bounds, MEMORY_SIZE.
  destruct (Z.ltb_spec address 0), (Z.leb_spec 0 address); try lia;
    cbn [orb andb negb]; try reflexivity.
  rewrite wrap32_small by lia.
  destruct (Z.gtb_spec address (16 * 1024 * 1024 - 4)),
    (Z.leb_spec address (16 * 1024 * 1024 - 4)); reflexivity || lia.
Qed.

Lemma to_int32_range (x : Z) : - 2^31 <= to_int32 x < 2^31.
Proof.
  unfold to_int32. cbv zeta.
  pose proof (Z.mod_pos_bound x (2^32) ltac:(lia)) as H.
  destruct (Z.ltb_spec (x mod 2^32) (2^31)); lia.
Qed.

Lemma execute_sw (instruction : Z) (m : Machine) :
  opcode_of instruction = 0x28 ->
  execute_instruction instruction m
  = if out_of_bounds (data_address (state m) instruction)
    then set_state (set_running false (state m)) m
    else write_word (wrap32 (data_address (state m) instruction))
                    (gpr (state m) (field_21 instruction)) m.
Proof. intros Hop. unfold execute_instruction. rewrite Hop. reflexivity. Qed.

Lemma execute_lw (instruction : Z) (m : Machine) :
  opcode_of instruction = 0x20 ->
  execute_instruction instruction m
  = if out_of_bounds (data_address (state m) instruction)
    then set_state (set_running false (state m)) m
    else set_state (set_gpr (field_21 instruction)
                      (read_word m (wrap32 (data_address (state m) instruction)))
                      (state m)) m.
Proof. intros Hop. unfold execute_instruction. rewrite Hop. reflexivity. Qed.

(** X24.  SW and LW of the draft headed "emulator.cpp".  The address is
    the base register plus the sign-extended offset, read as a signed
    32-bit number, and is in bounds when it lies between 0 and
    [MEMORY_SIZE - 4].  In bounds, a SW followed by a LW with the same base
    field and offset loads the stored value (the word is kept least
    significant byte first) and the emulator keeps running; out of bounds,
    either instruction stops the emulator and changes neither a register
    nor memory. *)
Theorem sw_then_lw (sw lw : Z) (m : Machine) :
  opcode_of sw = 0x28 ->
  opcode_of lw = 0x20 ->
  field_16 lw = field_16 sw ->
  Z.land lw 0xFFFF = Z.land sw 0xFFFF ->
  0 <= gpr (state m) (field_21 sw) < 2^32 ->
  let address := data_address (state m) sw in
  out_of_bounds address
  = negb ((0 <=? address) && (address <=? MEMORY_SIZE - 4))
  /\ (out_of_bounds address = false ->
      let m' := execute_instruction lw (execute_instruction sw m) in
      gpr (state m') (field_21 lw) = gpr (state m) (field_21 sw)
      /\ read_word m' address = gpr (state m) (field_21 sw)
      /\ running (state m') = running (state m)
      /\ pc (state m') = pc (state m))
  /\ (out_of_bounds address = true ->
      execute_instruction sw m = set_state (set_running false (state m)) m
      /\ execute_instruction lw m = set_state (set_running false (state m)) m).
Proof.
  intros Hsw Hlw Hra Hoff Hv address.
  assert (Hspec : out_of_bounds address
                  = negb ((0 <=? address) && (address <=? MEMORY_SIZE - 4)))
    by (apply out_of_bounds_spec, to_int32_range).
  assert (Hsame : forall s, gpr s = gpr (state m) -> data_address s lw = address).
  { intros s Hs. unfold address, data_address. now rewrite Hs, Hra, Hoff. }
  split; [exact Hspec|]. split.
  - intros Hin m'.
    assert (Hb : 0 <= address <= MEMORY_SIZE - 4).
    { rewrite Hin in Hspec.
      destruct (Z.leb_spec 0 address), (Z.leb_spec address (MEMORY_SIZE - 4));
        cbn in Hspec; (discriminate || lia). }
    assert (Hw : wrap32 address = address)
      by (apply wrap32_small; unfold MEMORY_SIZE in Hb; lia).
    set (m1 := write_word address (gpr (state m) (field_21 sw)) m).
    assert (H1 : execute_instruction sw m = m1).
    { rewrite (execute_sw sw m Hsw). fold address. now rewrite Hin, Hw. }
    assert (Hs1 : state m1 = state m).
    { unfold m1, write_word. now destruct (address >? MEMORY_SIZE - 4). }
    assert (Hread : read_word m1 address = gpr (state m) (field_21 sw))
      by (unfold m1; apply read_write_word; [lia | exact Hv]).
    subst m'. rewrite H1, (execute_lw lw m1 Hlw).
    rewrite (Hsame (state m1)) by now rewrite Hs1.
    rewrite Hin, Hw, Hread, Hs1.
    cbn [state set_state set_gpr gpr running pc]. rewrite upd_same.
    split; [reflexivity|]. split; [|split; reflexivity].
    unfold read_word. cbn [memory set_state].
    unfold read_word in Hread. exact Hread.
  - intros Hout. split.
    + rewrite (execute_sw sw m Hsw). fold address. now rewrite Hout.
    + rewrite (execute_lw lw m Hlw), (Hsame (state m) eq_refl). now rewrite Hout.
Qed.

Lemma sw_then_lw_witness :
  let m := set_state (set_gpr 3 0xDEADBEEF (state Examples.emulator_blank))
                     Examples.emulator_blank in
  gpr (state (execute_instruction 0x80800010 (execute_instruction 0xA0600010 m))) 4
  = 0xDEADBEEF
  /\ running (state (execute_instruction 0xA060FFFC m)) = false.
Proof.
  intros m.
  assert (Hv : 0 <= gpr (state m) (field_21 0xA0600010) < 2^32)
    by (split; [discriminate | reflexivity]).
  assert (Hv' : 0 <= gpr (state m) (field_21 0xA060FFFC) < 2^32)
    by (split; [discriminate | reflexivity]).
  destruct (sw_then_lw 0xA0600010 0x80800010 m eq_refl eq_refl eq_refl eq_refl Hv)
    as (_ & Hin & _).
  destruct (sw_then_lw 0xA060FFFC 0x8080FFFC m eq_refl eq_refl eq_refl eq_refl Hv')
    as (_ & _ & Hout).
  destruct (Hin eq_refl) as (Hload & _).
  destruct (Hout eq_refl) as (Hhalt & _).
  split; [exact Hload|]. rewrite Hhalt. reflexivity.
Defined.

Lemma low_half_range (instruction : Z) : 0 <= Z.land instruction 0xFFFF < 2^16.
Proof.
  pose proof (land_mask_range instruction 0xFFFF ltac:(lia)). lia.
Qed.

(** Truncating the sign-extended immediate to 16 bits gives back the
    immediate field. *)
Lemma sign_extended_low (instruction : Z) :
  sign_extended instruction mod 2^16 = Z.land instruction 0xFFFF.
Proof.
  unfold sign_extended, to_int16, wrap32. cbv zeta.
  pose proof (low_half_range instruction) as H.
  set (x := Z.land instruction 0xFFFF) in *. clearbody x.
  rewrite (Z.mod_small x (2^16)) by lia.
  destruct (Z.ltb_spec x (2^15)); Z.div_mod_to_equations; lia.
Qed.

(** Converting it back to [int16_t] gives the signed immediate. *)
Lemma sign_extended_signed (instruction : Z) :
  to_int16 (sign_extended instruction) = to_int16 (Z.land instruction 0xFFFF).
Proof.
  unfold to_int16 at 1. cbv zeta. rewrite sign_extended_low.
  unfold to_int16. cbv zeta.
  rewrite Z.mod_small by apply low_half_range. reflexivity.
Qed.

(** X25.  The immediates of the draft headed "emulator.cpp".  ADDI, ANDI
    and ORI all compute their immediate with the same sign-extending cast,
    but ANDI and ORI truncate it again: ADDI adds the signed immediate
    (mod 2^32), while ANDI and ORI combine the register with the
    zero-extended 16-bit field, so ANDI always clears the upper half of
    the result.  Each writes register bits 21-25 only and leaves pc,
    [running] and memory alone. *)
Theorem immediate_extension (instruction : Z) (m : Machine) :
  let s := state m in
  let rD := field_21 instruction in
  let rA := field_16 instruction in
  let imm := Z.land instruction 0xFFFF in
  let m' := execute_instruction instruction m in
  (opcode_of instruction = 0x14 ->
   gpr (state m') rD = wrap32 (gpr s rA + to_int16 imm))
  /\ (opcode_of instruction = 0x04 ->
      gpr (state m') rD = Z.land (gpr s rA) imm
      /\ 0 <= gpr (state m') rD < 2^16)
  /\ (opcode_of instruction = 0x0A ->
      gpr (state m') rD = Z.lor (gpr s rA) imm)
  /\ (opcode_of instruction = 0x14 \/ opcode_of instruction = 0x04
      \/ opcode_of instruction = 0x0A ->
      (forall r, r <> rD -> gpr (state m') r = gpr s r)
      /\ pc (state m') = pc s
      /\ running (state m') = running s
      /\ memory m' = memory m).
Proof.
  intros s rD rA imm m'.
  assert (Haddi : opcode_of instruction = 0x14 ->
            m' = set_state (set_gpr rD (wrap32 (gpr s rA + to_int16 imm)) s) m).
  { intros Hop. unfold m', execute_instruction. rewrite Hop. cbv zeta.
    change (0x14 =? 0x00) with false. change (0x14 =? 0x14) with true.
    cbv iota. fold s rD rA. do 2 f_equal.
    unfold sign_extended, wrap32. fold imm.
    now rewrite Zplus_mod_idemp_r. }
  assert (Handi : opcode_of instruction = 0x04 ->
            m' = set_state (set_gpr rD (Z.land (gpr s rA) imm) s) m).
  { intros Hop. unfold m', execute_instruction. rewrite Hop. cbv zeta.
    rewrite sign_extended_low. reflexivity. }
  assert (Hori : opcode_of instruction = 0x0A ->
            m' = set_state (set_gpr rD (Z.lor (gpr s rA) imm) s) m).
  { intros Hop. unfold m', execute_instruction. rewrite Hop. cbv zeta.
    rewrite sign_extended_low. reflexivity. }
  split; [intros Hop; rewrite (Haddi Hop); cbn [state set_state set_gpr gpr];
          apply upd_same|].
  split.
  { intros Hop. rewrite (Handi Hop). cbn [state set_state set_gpr gpr].
    rewrite upd_same. split; [reflexivity|].
    pose proof (low_half_range instruction) as Hi. fold imm in Hi.
    pose proof (land_mask_range (gpr s rA) imm (proj1 Hi)) as Hr. lia. }
  split; [intros Hop; rewrite (Hori Hop); cbn [state set_state set_gpr gpr];
          apply upd_same|].
  intros [Hop|[Hop|Hop]];
    [rewrite (Haddi Hop) | rewrite (Handi Hop) | rewrite (Hori Hop)];
    cbn [state set_state set_gpr gpr pc running memory];
    (split; [intros r Hr; apply upd_other; exact Hr|]); repeat split.
Qed.

Lemma immediate_extension_witness :
  let m := set_state (set_gpr 1 0x12345678 (state Examples.emulator_blank))
                     Examples.emulator_blank in
  gpr (state (execute_instruction 0x5041FFFF m)) 2 = 0x12345677
  /\ gpr (state (execute_instruction 0x1041FFFF m)) 2 = 0x5678
  /\ gpr (state (execute_instruction 0x2841FFFF m)) 2 = 0x1234FFFF.
Proof.
  intros m.
  destruct (immediate_extension 0x5041FFFF m) as (Haddi & _).
  destruct (immediate_extension 0x1041FFFF m) as (_ & Handi & _).
  destruct (immediate_extension 0x2841FFFF m) as (_ & _ & Hori & _).
  split; [exact (Haddi eq_refl)|].
  split; [exact (proj1 (Handi eq_refl)) | exact (Hori eq_refl)].
Defined.

(** A machine is its four components. *)
Lemma machine_eta (m : Machine) :
  m = mkMachine (mkCPUState (pc (state m)) (gpr (state m)) (running (state m)))
                (memory m).
Proof. destruct m as [[p g r] mem]. reflexivity. Qed.

Lemma fetch_in_bounds (m : Machine) :
  0 <= pc (state m) <= MEMORY_SIZE - 4 ->
  fetch_instruction m
  = (read_word m (pc (state m)),
     set_state (set_pc (pc (state m) + 4) (state m)) m).
Proof.
  intros Hpc. unfold fetch_instruction.
  destruct (Z.gtb_spec (pc (state m)) (MEMORY_SIZE - 4)); [lia|].
  rewrite wrap32_small by (unfold MEMORY_SIZE in *; lia). reflexivity.
Qed.

(** X26.  BEQ and BNE of the draft headed "emulator.cpp", over one round
    of the loop.  [fetch_instruction] moves pc past the word before it is
    executed, so a taken branch goes to pc + 4 + 4 * offset (mod 2^32),
    offset being the signed 16-bit field, and a branch not taken to
    pc + 4; registers, memory and [running] are unchanged.  With offset
    -1 a taken branch returns to itself: the round changes nothing, and
    the emulator never stops. *)
Theorem branch_from_next (m : Machine) :
  let s := state m in
  let i := read_word m (pc s) in
  let taken := if opcode_of i =? 0x02
               then gpr s (field_21 i) =? gpr s (field_16 i)
               else negb (gpr s (field_21 i) =? gpr s (field_16 i)) in
  0 <= pc s <= MEMORY_SIZE - 4 ->
  opcode_of i = 0x02 \/ opcode_of i = 0x03 ->
  let m' := emulation_step m in
  pc (state m')
  = (if taken then wrap32 (pc s + 4 + 4 * to_int16 (Z.land i 0xFFFF))
     else pc s + 4)
  /\ gpr (state m') = gpr s
  /\ running (state m') = running s
  /\ memory m' = memory m
  /\ (taken = true -> Z.land i 0xFFFF = 0xFFFF ->
      forall n, emulation_loop n m = m).
Proof.
  intros s i taken Hpc Hop m'.
  assert (Hstep : m' = if taken
                       then set_state
                              (set_pc (wrap32 (pc s + 4
                                               + 4 * to_int16 (Z.land i 0xFFFF))) s) m
                       else set_state (set_pc (pc s + 4) s) m).
  { unfold m', emulation_step. rewrite (fetch_in_bounds m Hpc). fold s i.
    unfold execute_instruction. cbv zeta.
    rewrite sign_extended_signed, Z.shiftl_mul_pow2 by lia.
    cbn [state set_state set_pc pc gpr]. fold s.
    assert (Htarget : wrap32 (pc s + 4 + to_int16 (Z.land i 0xFFFF) * 2^2)
                      = wrap32 (pc s + 4 + 4 * to_int16 (Z.land i 0xFFFF)))
      by (f_equal; lia).
    unfold taken.
    destruct Hop as [Hop|Hop]; rewrite Hop; simpl (_ =? _); cbv iota;
      destruct (gpr s (field_21 i) =? gpr s (field_16 i)); cbn [negb];
      rewrite ?Htarget; reflexivity. }
  assert (Hfacts : gpr (state m') = gpr s /\ running (state m') = running s
                   /\ memory m' = memory m)
    by (rewrite Hstep; destruct taken; repeat split).
  destruct Hfacts as (Hgpr & Hrun & Hmem).
  split; [rewrite Hstep; destruct taken; reflexivity|].
  split; [exact Hgpr|]. split; [exact Hrun|]. split; [exact Hmem|].
  intros Htaken Hself.
  assert (Hfix : emulation_step m = m).
  { fold m'. rewrite Hstep, Htaken, Hself.
    change (to_int16 0xFFFF) with (-1).
    replace (pc s + 4 + 4 * -1) with (pc s) by lia.
    rewrite wrap32_small by (unfold MEMORY_SIZE in Hpc; lia).
    rewrite (machine_eta m) at 2. reflexivity. }
  induction n as [|n IH]; [reflexivity|].
  cbn [emulation_loop]. destruct (running (state m)); [|reflexivity].
  now rewrite Hfix.
Qed.

Lemma branch_from_next_witness :
  emulation_step Examples.spinning = Examples.spinning
  /\ emulation_loop 1000 Examples.spinning = Examples.spinning.
Proof.
  assert (Hpc : 0 <= pc (state Examples.spinning) <= MEMORY_SIZE - 4)
    by (split; discriminate).
  destruct (branch_from_next Examples.spinning Hpc (or_introl eq_refl))
    as (_ & _ & _ & _ & Hspin).
  split; [exact (Hspin eq_refl eq_refl 1%nat) | exact (Hspin eq_refl eq_refl 1000%nat)].
Defined.

(** A round on a word of opcode 0 only moves pc. *)
Lemma nop_step (m : Machine) :
  0 <= pc (state m) <= MEMORY_SIZE - 4 ->
  opcode_of (read_word m (pc (state m))) = 0 ->
  emulation_step m = set_state (set_pc (pc (state m) + 4) (state m)) m.
Proof.
  intros Hpc Hnop. unfold emulation_step.
  rewrite (fetch_in_bounds m Hpc). unfold execute_instruction.
  now rewrite Hnop.
Qed.

Lemma nop_run (n : nat) :
  forall (m : Machine) (k : nat),
    running (state m) = true ->
    0 <= pc (state m) ->
    pc (state m) + 4 * Z.of_nat n <= MEMORY_SIZE ->
    (forall a, opcode_of (read_word m a) = 0) ->
    emulation_loop (n + k) m
    = emulation_loop k
        (set_state (set_pc (pc (state m) + 4 * Z.of_nat n) (state m)) m).
Proof.
  induction n as [|n IH]; intros m k Hrun Hpc Hend Hnop.
  - cbn [Nat.add]. change (Z.of_nat 0) with 0.
    rewrite Z.mul_0_r, Z.add_0_r.
    rewrite (machine_eta m) at 1. reflexivity.
  - cbn [Nat.add emulation_loop]. rewrite Hrun.
    rewrite nop_step by (try apply Hnop; lia).
    set (m1 := set_state (set_pc (pc (state m) + 4) (state m)) m).
    rewrite (IH m1 k); [| exact Hrun | cbn; lia | cbn; lia | exact Hnop].
    f_equal. unfold m1. cbn [state set_state set_pc pc gpr running memory].
    unfold set_state, set_pc. cbn [memory gpr running]. do 2 f_equal. lia.
Qed.

(** X27.  The draft headed "emulator.cpp" on a memory that holds only
    words of opcode 0 (NOP), such as an all-zero memory: the emulator walks
    through the memory four bytes at a time and stops when pc leaves it.
    After the [n] rounds that bring pc past [MEMORY_SIZE - 4] and one more,
    [running] is false, pc is where the walk ended, and registers and
    memory are unchanged; further rounds change nothing. *)
Theorem nop_walk_stops (n extra : nat) (m : Machine) :
  running (state m) = true ->
  0 <= pc (state m) ->
  (forall a, opcode_of (read_word m a) = 0) ->
  MEMORY_SIZE - 4 < pc (state m) + 4 * Z.of_nat n <= MEMORY_SIZE ->
  emulation_loop (n + S extra) m
  = mkMachine (mkCPUState (pc (state m) + 4 * Z.of_nat n) (gpr (state m)) false)
              (memory m).
Proof.
  intros Hrun Hpc Hnop Hend.
  rewrite (nop_run n m (S extra) Hrun Hpc ltac:(lia) Hnop).
  set (m1 := set_state (set_pc (pc (state m) + 4 * Z.of_nat n) (state m)) m).
  assert (Hlast : emulation_step m1
                  = mkMachine (mkCPUState (pc (state m) + 4 * Z.of_nat n)
                                          (gpr (state m)) false) (memory m)).
  { unfold emulation_step, fetch_instruction.
    cbn [m1 state set_state set_pc pc].
    destruct (Z.gtb_spec (pc (state m) + 4 * Z.of_nat n) (MEMORY_SIZE - 4));
      [|lia].
    reflexivity. }
  cbn [emulation_loop]. cbn [m1 state set_state set_pc running].
  rewrite Hrun. fold m1. rewrite Hlast.
  destruct extra; reflexivity.
Qed.

Lemma nop_walk_stops_witness :
  let m := set_state (set_pc (MEMORY_SIZE - 8) (state Examples.emulator_blank))
                     Examples.emulator_blank in
  running (state (emulation_loop 3 m)) = false
  /\ pc (state (emulation_loop 3 m)) = MEMORY_SIZE.
Proof.
  intros m.
  assert (Hnop : forall a, opcode_of (read_word m a) = 0).
  { intros a. unfold read_word.
    destruct (a >? MEMORY_SIZE - 4); reflexivity. }
  assert (Hpc : 0 <= pc (state m)) by discriminate.
  assert (Hend : MEMORY_SIZE - 4 < pc (state m) + 4 * Z.of_nat 2 <= MEMORY_SIZE)
    by (split; [reflexivity | discriminate]).
  pose proof (nop_walk_stops 2 0 m eq_refl Hpc Hnop Hend) as Hstop.
  change (2 + 1)%nat with 3%nat in Hstop. rewrite Hstop.
  split; reflexivity.
Defined.

(** X28.  [load_binary] of the draft headed "emulator.cpp".  A file that
    cannot be opened or that is larger than the 16 MB memory is refused
    and nothing changes.  Any other file is loaded at offset 0 and, unlike
    in src/emuwiiv1.cpp, the memory after its end keeps what it held; the
    CPU state is untouched, and with pc inside the image the next fetch
    yields the word made of four image bytes, least significant first,
    and moves pc by 4. *)
Theorem load_binary_image (bytes : list Z) (m : Machine) :
  let size := Z.of_nat (length bytes) in
  let image := fun p => nth (Z.to_nat p) bytes 0 in
  load_binary None m = (false, m)
  /\ (MEMORY_SIZE < size -> load_binary (Some bytes) m = (false, m))
  /\ (size <= MEMORY_SIZE ->
      exists m',
        load_binary (Some bytes) m = (true, m')
        /\ state m' = state m
        /\ (forall p, 0 <= p < size -> memory m' p = image p)
        /\ (forall p, size <= p -> memory m' p = memory m p)
        /\ (0 <= pc (state m) -> pc (state m) + 4 <= size ->
            fst (fetch_instruction m') = little_endian image (pc (state m))
            /\ pc (state (snd (fetch_instruction m'))) = pc (state m) + 4)).
Proof.
  intros size image.
  split; [reflexivity|]. split.
  - intros Hbig. unfold load_binary. fold size.
    destruct (Z.gtb_spec size MEMORY_SIZE); [reflexivity | lia].
  - intros Hfit. unfold load_binary. fold size.
    destruct (Z.gtb_spec size MEMORY_SIZE); [lia|].
    eexists. split; [reflexivity|]. split; [reflexivity|].
    assert (Hin : forall p, 0 <= p < size ->
              memory (set_memory
                        (fun i => if (0 <=? i) && (i <? size)
                                  then nth (Z.to_nat i) bytes 0
                                  else memory m i) m) p = image p).
    { intros p Hp. cbn [memory set_memory].
      destruct (Z.leb_spec 0 p), (Z.ltb_spec p size); reflexivity || lia. }
    split; [exact Hin|]. split.
    { intros p Hp. cbn [memory set_memory].
      destruct (Z.leb_spec 0 p), (Z.ltb_spec p size); reflexivity || lia. }
    intros Hpc Hend.
    rewrite fetch_in_bounds by (cbn [state set_memory]; lia).
    cbn [fst snd state set_state set_memory set_pc pc].
    split; [|reflexivity].
    unfold read_word. cbn [state set_memory].
    destruct (Z.gtb_spec (pc (state m)) (MEMORY_SIZE - 4)); [lia|].
    unfold little_endian. rewrite !Hin by lia. reflexivity.
Qed.

Lemma load_binary_image_witness :
  exists m',
    load_binary (Some [0xFF; 0xFF; 0x00; 0x08]) Examples.emulator_blank = (true, m')
    /\ fst (fetch_instruction m') = Examples.beq_self.
Proof.
  destruct (load_binary_image [0xFF; 0xFF; 0x00; 0x08] Examples.emulator_blank)
    as (_ & _ & Hload).
  destruct Hload as (m' & Hrun & _ & _ & _ & Hfetch); [discriminate|].
  exists m'. split; [exact Hrun|].
  destruct Hfetch as (Hword & _); [discriminate | discriminate |].
  exact Hword.
Defined.

End EmulatorFacts.
